(** * Cargo management server: store, sessions, orders, sync and settings

    A shallow embedding of [src/server.py].  JSON objects are finite maps
    from keys to values, lists are lists, Python exceptions are an error
    result, the wall clock and the uuid generator are inputs.

    - [value], [py_eq], [truthy], [py_gt]: JSON values under Python's
      [==], truth test and [>].
    - [world], [load_db], [save_db], [init_db]: the file, the cache and
      the two timestamps, with the call depth of [load_db] as fuel; a
      write fails on a disk that takes none, and on a snapshot
      [json.dump] does not serialise, which leaves the file undecodable.
    - [verify_token] and the handlers [get_orders], [create_order],
      [update_order], [sync_data], [get_setting], [set_setting],
      [register], [logout], [check_auth], [delete_order]: state passing
      over [world].
    - [Heap]: objects with identity, for what [dict.copy()] shares.

    The properties follow the definitions, each with the sample data it is
    run on. *)

From Stdlib Require Import ZArith Lia.
From stdpp Require Import base option list strings gmap fin_maps.

Open Scope string_scope.
Open Scope list_scope.
Open Scope Z_scope.

(** ** JSON values as Python sees them *)

(** The values a decoded JSON document holds, floats apart: no handler
    modelled here computes with a float. *)
#[warnings="-register-all"]
Inductive value : Type :=
  | VNone
  | VBool (b : bool)
  | VInt (z : Z)
  | VStr (s : string)
  | VList (l : list value).

(** A JSON object, i.e. a Python [dict] with string keys. *)
Abbreviation dict := (gmap string value).

(** Python exceptions, as far as the handlers tell them apart: a handler
    either catches everything or nothing.  What an uncaught exception
    leaves of the state is not followed. *)
Inductive result (A : Type) : Type :=
  | Ok (a : A)
  | Raise.
Arguments Ok {A} a.
Arguments Raise {A}.

Definition bind {A B : Type} (r : result A) (k : A → result B) : result B :=
  match r with
  | Ok a => k a
  | Raise => Raise
  end.

Notation "'let!' x ':=' r 'in' k" := (bind r (fun x => k))
  (at level 10, x name, r at level 100, k at level 200).

Definition bool_to_Z (b : bool) : Z := if b then 1 else 0.

(** [a == b] on values: [bool] is a subtype of [int] in Python, so [True == 1]. *)
Fixpoint py_eq (a b : value) : bool :=
  match a, b with
  | VNone, VNone => true
  | VBool x, VBool y => Bool.eqb x y
  | VBool x, VInt y => Z.eqb (bool_to_Z x) y
  | VInt x, VBool y => Z.eqb x (bool_to_Z y)
  | VInt x, VInt y => Z.eqb x y
  | VStr x, VStr y => String.eqb x y
  | VList xs, VList ys =>
      (fix all2 (xs ys : list value) : bool :=
         match xs, ys with
         | [], [] => true
         | x :: xs', y :: ys' => py_eq x y && all2 xs' ys'
         | _, _ => false
         end) xs ys
  | _, _ => false
  end.

(** Truth value of an object, as [if x:] and [not x] take it. *)
Definition truthy (v : value) : bool :=
  match v with
  | VNone => false
  | VBool b => b
  | VInt z => negb (Z.eqb z 0)
  | VStr s => negb (String.eqb s "")
  | VList l => match l with [] => false | _ => true end
  end.

(** [d.get(k)]: [None] when the key is absent. *)
Definition get (d : dict) (k : string) : value := default VNone (d !! k).

(** [d.get(k, dflt)]. *)
Definition get_or (d : dict) (k : string) (dflt : value) : value :=
  default dflt (d !! k).

(** [d[k]]: raises [KeyError] when the key is absent. *)
Definition item (d : dict) (k : string) : result value :=
  match d !! k with
  | Some v => Ok v
  | None => Raise
  end.

(** [x + 1] for the value a version field holds: defined on numbers
    ([bool] included), [TypeError] on everything else. *)
Definition plus_one (v : value) : result value :=
  match v with
  | VInt z => Ok (VInt (z + 1))
  | VBool b => Ok (VInt (bool_to_Z b + 1))
  | _ => Raise
  end.

(** [a > b]: numbers compare by value, strings and lists
    lexicographically; any other pairing raises [TypeError]. *)
Fixpoint str_lt (a b : string) : bool :=
  match a, b with
  | _, EmptyString => false
  | EmptyString, String _ _ => true
  | String x a', String y b' =>
      if Nat.ltb (Ascii.nat_of_ascii x) (Ascii.nat_of_ascii y) then true
      else if Nat.ltb (Ascii.nat_of_ascii y) (Ascii.nat_of_ascii x) then false
      else str_lt a' b'
  end.

Fixpoint py_gt (a b : value) : result bool :=
  match a, b with
  | VInt x, VInt y => Ok (Z.ltb y x)
  | VInt x, VBool y => Ok (Z.ltb (bool_to_Z y) x)
  | VBool x, VInt y => Ok (Z.ltb y (bool_to_Z x))
  | VBool x, VBool y => Ok (Z.ltb (bool_to_Z y) (bool_to_Z x))
  | VStr x, VStr y => Ok (str_lt y x)
  | VList xs, VList ys =>
      (fix lex (xs ys : list value) : result bool :=
         match xs, ys with
         | [], _ => Ok false
         | _ :: _, [] => Ok true
         | x :: xs', y :: ys' =>
             if py_eq x y then lex xs' ys' else py_gt x y
         end) xs ys
  | _, _ => Raise
  end.

(** ** The snapshot *)

(** A setting is any JSON value; a float is kept as the decimal literal it
    was written as ([SDec 885 1] is 88.5). *)
Inductive setting : Type :=
  | SDec (mantissa : Z) (places : nat)
  | SVal (v : value).

(** The document [json.load] decodes and [json.dump] writes, with the
    top-level keys [init_db] gives it. *)
Record db : Type := mkDb {
  users : list dict;
  orders : list dict;
  settings : gmap string setting;
  sessions : list dict;
  sync_log : list value;
  last_modified : string
}.

Definition set_users (us : list dict) (d : db) : db :=
  mkDb us (orders d) (settings d) (sessions d) (sync_log d) (last_modified d).
Definition set_orders (os : list dict) (d : db) : db :=
  mkDb (users d) os (settings d) (sessions d) (sync_log d) (last_modified d).
Definition set_settings (st : gmap string setting) (d : db) : db :=
  mkDb (users d) (orders d) st (sessions d) (sync_log d) (last_modified d).
Definition set_sessions (ss : list dict) (d : db) : db :=
  mkDb (users d) (orders d) (settings d) ss (sync_log d) (last_modified d).
Definition set_last_modified (t : string) (d : db) : db :=
  mkDb (users d) (orders d) (settings d) (sessions d) (sync_log d) t.

(** ** The process and its disk *)

(** What [DB_FILE] holds: nothing, bytes that [json.load] rejects, or a
    document. *)
Inductive file_state : Type :=
  | Missing
  | Corrupt
  | Doc (d : db).

(** The globals [db_cache] and [db_last_modified], the file with its
    modification time, whether the disk accepts a write, and how many
    uuids were drawn so far.  Times are microseconds. *)
Record world : Type := mkWorld {
  file : file_state;
  file_mtime : Z;
  writable : bool;
  db_cache : option db;
  db_last_modified : Z;
  uuid_count : nat
}.

Definition set_cache (c : option db) (w : world) : world :=
  mkWorld (file w) (file_mtime w) (writable w) c (db_last_modified w)
    (uuid_count w).
Definition set_db_last_modified (t : Z) (w : world) : world :=
  mkWorld (file w) (file_mtime w) (writable w) (db_cache w) t (uuid_count w).
Definition write_file (d : db) (t : Z) (w : world) : world :=
  mkWorld (Doc d) t (writable w) (db_cache w) (db_last_modified w)
    (uuid_count w).
Definition spoil_file (t : Z) (w : world) : world :=
  mkWorld Corrupt t (writable w) (db_cache w) (db_last_modified w)
    (uuid_count w).
Definition next_uuid (w : world) : world :=
  mkWorld (file w) (file_mtime w) (writable w) (db_cache w)
    (db_last_modified w) (S (uuid_count w)).

(** The nested lists and objects of a loaded snapshot are the very objects
    the cache holds ([dict.copy] is shallow, see [Heap]): a change made in
    place inside the snapshot is a change of the cache. *)
Definition in_place (f : db → db) (w : world) : world :=
  set_cache (f <$> db_cache w) w.

Definition file_exists (w : world) : bool :=
  match file w with
  | Missing => false
  | _ => true
  end.

(** Python's default recursion limit: a deeper call chain raises
    [RecursionError]. *)
Definition recursion_limit : nat := 1000.

Definition thirty_days : Z := 30 * 86400 * 1000000.

(** What the handlers take from the Python runtime:
    [datetime.isoformat] and [datetime.fromisoformat] ([None] where the
    latter raises), [strftime('%d.%m.%Y')], [uuid.uuid4] as the sequence
    of ids it hands out, the hex digest of SHA-256, and whether
    [json.dump(data, f, ensure_ascii=False)] writes a snapshot to the end:
    it raises on a string UTF-8 cannot encode (a lone surrogate) and on an
    integer with more digits than [str] converts. *)
Record runtime : Type := mkRuntime {
  isoformat : Z → string;
  fromisoformat : string → option Z;
  strftime_dmy : Z → string;
  uuid4 : nat → string;
  sha256_hex : string → string;
  serialises : db → bool
}.

(** A snapshot that holds nothing but what the file held when it was read
    and what the server made itself (uuids, digests, time stamps) is
    written as it was before: [json.dump] takes it.  What it may refuse
    comes in with a request. *)
Definition stored (data : db) : bool := true.

Section Server.

Variable rt : runtime.

(** [save_db]: stamps the snapshot, opens the file for writing, dumps the
    snapshot and refreshes the cache.  Every exception is swallowed and
    answered with [False]: [open] raises on a disk that takes no write,
    before anything is touched; [json.dump] runs after [open] has emptied
    the file, and where it raises it leaves bytes that do not decode, and
    the cache as it was.  [takes] is what [json.dump] makes of the stamped
    snapshot: [serialises rt] where the snapshot holds data of the
    request, [stored] where it does not. *)
Definition save_db (takes : db → bool) (now : Z) (data : db) (w : world)
    : bool * db * world :=
  let data' := set_last_modified (isoformat rt now) data in
  if writable w then
    if takes data' then
      (true, data',
       set_db_last_modified now
         (set_cache (Some data') (write_file data' now w)))
    else (false, data', spoil_file now w)
  else (false, data', w).

(** The snapshot [init_db] seeds. *)
Definition default_db (now : Z) (id : string) : db :=
  mkDb
    [ {[ "id" := VStr id;
         "email" := VStr "12abc202@gmail.com";
         "password" := VStr (sha256_hex rt "Abu_1610");
         "isAdmin" := VBool true;
         "createdAt" := VStr (isoformat rt now);
         "lastSync" := VStr (isoformat rt now);
         "devices" := VList [] ]} ]
    []
    {[ "kgz_rate" := SDec 885 1;
       "company_name" := SVal (VStr "Cargo Management System");
       "company_phone" := SVal (VStr "+996 XXX XXX XXX") ]}
    []
    []
    (isoformat rt now).

(** The body of [init_db] before its final [return load_db()]: seed the
    store when, and only when, no file exists. *)
Definition seed_if_missing (now : Z) (w : world) : world :=
  if file_exists w then w
  else
    let d := default_db now (uuid4 rt (uuid_count w)) in
    let '(_, d', w1) := save_db stored now d (next_uuid w) in
    set_db_last_modified now (set_cache (Some d') w1).

(** [load_db], with the call depth left as [fuel]: the cached snapshot when
    it is fresh, else the decoded file, else (any exception) [init_db ()],
    which comes back here. *)
Fixpoint load_db (fuel : nat) (now : Z) (w : world) : result (db * world) :=
  match fuel with
  | O => Raise
  | S fuel' =>
      match db_cache w with
      | Some c =>
          if file_exists w && (file_mtime w <=? db_last_modified w)%Z
          then Ok (c, w)
          else
            match file w with
            | Doc d => Ok (d, set_db_last_modified now (set_cache (Some d) w))
            | _ => load_db fuel' now (seed_if_missing now w)
            end
      | None =>
          match file w with
          | Doc d => Ok (d, set_db_last_modified now (set_cache (Some d) w))
          | _ => load_db fuel' now (seed_if_missing now w)
          end
      end
  end.

Definition init_db (fuel : nat) (now : Z) (w : world) : result (db * world) :=
  load_db fuel now (seed_if_missing now w).

(** *** Sessions *)

(** The inner loop of [verify_token]: position of the first user whose
    [id] equals [user_id]; [u['id']] raises on a user without one. *)
Fixpoint find_user (us : list dict) (user_id : value) : result (option nat) :=
  match us with
  | [] => Ok None
  | u :: us' =>
      let! v := item u "id" in
      if py_eq v user_id then Ok (Some O)
      else let! r := find_user us' user_id in Ok (S <$> r)
  end.

(** [datetime.fromisoformat(session['created'])], [None] for every
    exception it can raise. *)
Definition created_of (session : dict) : option Z :=
  match session !! "created" with
  | Some (VStr s) => fromisoformat rt s
  | _ => None
  end.

Definition is_active (now : Z) (session : dict) : bool :=
  match created_of session with
  | Some created => (now - created <? thirty_days)%Z
  | None => false
  end.

(** Loop state of [verify_token]: [active_sessions], [user], and the user
    list with the stamps made so far. *)
Definition vstate : Type := list dict * option dict * list dict.

(** One turn of the session loop; every exception ends the turn. *)
Definition verify_step (token : string) (now : Z) (st : vstate)
    (session : dict) : vstate :=
  let '(active, user, us) := st in
  if is_active now session then
    let active' := active ++ [session] in
    match session !! "token" with
    | Some tv =>
        if py_eq tv (VStr token) then
          match find_user us (get session "user_id") with
          | Ok (Some i) =>
              match us !! i with
              | Some u =>
                  let u' := <["lastActivity" := VStr (isoformat rt now)]> u in
                  (active', Some u', <[i := u']> us)
              | None => (active', user, us)
              end
          | _ => (active', user, us)
          end
        else (active', user, us)
    | None => (active', user, us)
    end
  else st.

Definition verify_token (token : string) (now : Z) (w : world)
    : result (option dict * world) :=
  if String.eqb token "" then Ok (None, w)
  else
    let! r := load_db recursion_limit now w in
    let '(d, w1) := r in
    let '(active, user, us) :=
      foldl (verify_step token now) ([], None, users d) (sessions d) in
    let d1 := set_users us d in
    let w2 := in_place (set_users us) w1 in
    if negb (length active =? length (sessions d))%nat then
      let '(_, _, w3) := save_db stored now (set_sessions active d1) w2 in
      Ok (user, w3)
    else Ok (user, w2).

(** *** What a handler answers *)

Inductive response : Type :=
  | Unauthorized
  | Forbidden
  | OrderNotFound
  | SettingNotFound
  | SyncError
  | OrdersList (os : list dict) (total : nat) (lastSync : string)
  | OrderCreated (o : dict)
  | OrderReuploaded (o : dict)
  | OrderUpdated (o : dict)
  | SyncDone (os : list dict)
  | SettingValue (v : setting)
  | SettingSaved (key : string) (v : setting).

Definition is_admin (user : dict) : bool := truthy (get user "isAdmin").

(** [o.get('userId') == uid]. *)
Definition owned_by (uid : value) (o : dict) : bool :=
  py_eq (get o "userId") uid.

(** [[o for o in orders if o.get('userId') == user['id']]]: the subscript
    is evaluated once per element. *)
Definition own_orders (user : dict) (os : list dict) : result (list dict) :=
  match os with
  | [] => Ok []
  | _ => let! uid := item user "id" in Ok (filter (λ o, owned_by uid o = true) os)
  end.

(** *** Orders *)

Definition get_orders (token : string) (now : Z) (w : world)
    : result (response * world) :=
  let! r := verify_token token now w in
  let '(user, w1) := r in
  match user with
  | None => Ok (Unauthorized, w1)
  | Some u =>
      let! r2 := load_db recursion_limit now w1 in
      let '(d, w2) := r2 in
      let! os := if is_admin u then Ok (orders d) else own_orders u (orders d) in
      Ok (OrdersList os (length os) (last_modified d), w2)
  end.

(** Position and element of the first hit, as a [for] loop with an early
    [return] finds it. *)
Fixpoint find_first {A : Type} (p : A → bool) (l : list A) : option (nat * A) :=
  match l with
  | [] => None
  | x :: l' =>
      if p x then Some (O, x)
      else
        match find_first p l' with
        | Some (i, y) => Some (S i, y)
        | None => None
        end
  end.

(** The duplicate test of [create_order]. *)
Definition same_upload (file_name uid : value) (existing : dict) : bool :=
  py_eq (get existing "fileName") file_name && py_eq (get existing "userId") uid.

(** The [new_order] literal of [create_order]. *)
Definition new_order (order_id : string) (uid email : value) (data : dict)
    (now : Z) : dict :=
  {[ "id" := VStr order_id;
     "userId" := uid;
     "userEmail" := email;
     "fileName" := get_or data "fileName" (VStr "");
     "uploadDate" := get_or data "uploadDate" (VStr (strftime_dmy rt now));
     "data" := get_or data "data" (VList []);
     "createdAt" := VStr (isoformat rt now);
     "updatedAt" := VStr (isoformat rt now);
     "syncVersion" := VInt 1 ]}.

Definition create_order (token : string) (data : dict) (now : Z) (w : world)
    : result (response * world) :=
  let! r := verify_token token now w in
  let '(user, w1) := r in
  match user with
  | None => Ok (Unauthorized, w1)
  | Some u =>
      let order_id := uuid4 rt (uuid_count w1) in
      let w2 := next_uuid w1 in
      let! uid := item u "id" in
      let! email := item u "email" in
      let new := new_order order_id uid email data now in
      let! r3 := load_db recursion_limit now w2 in
      let '(d, w3) := r3 in
      match find_first (same_upload (get new "fileName") uid) (orders d) with
      | Some (i, existing) =>
          let e1 := <["data" := get new "data"]> existing in
          let e2 := <["updatedAt" := VStr (isoformat rt now)]> e1 in
          let! v := plus_one (get_or e2 "syncVersion" (VInt 0)) in
          let e3 := <["syncVersion" := v]> e2 in
          let upd := λ x : db, set_orders (<[i := e3]> (orders x)) x in
          let '(_, _, w4) :=
            save_db (serialises rt) now (upd d) (in_place upd w3) in
          Ok (OrderReuploaded e3, w4)
      | None =>
          let upd := λ x : db, set_orders (orders x ++ [new]) x in
          let '(_, _, w4) :=
            save_db (serialises rt) now (upd d) (in_place upd w3) in
          Ok (OrderCreated new, w4)
      end
  end.

(** The search loop of [update_order] and [delete_order]: [order['id']]
    raises on an order without an id. *)
Fixpoint find_order (order_id : string) (os : list dict)
    : result (option (nat * dict)) :=
  match os with
  | [] => Ok None
  | o :: os' =>
      let! v := item o "id" in
      if py_eq v (VStr order_id) then Ok (Some (O, o))
      else
        let! r := find_order order_id os' in
        Ok (match r with Some (i, y) => Some (S i, y) | None => None end)
  end.

(** [order.update(data)]: the keys of [data] win. *)
Definition dict_update (order data : dict) : dict := data ∪ order.

(** [update_order].  Orders are values here, and the update is made at
    the position the search found: [order.update] changes the [dict]
    object, which is that position alone as long as no other position of
    the list holds the same object.  Two positions can hold one object
    only with one id, so the properties of an update are stated for an
    order that alone carries its id; the same goes for the re-upload of
    [create_order]. *)
Definition update_order (token order_id : string) (data : dict) (now : Z)
    (w : world) : result (response * world) :=
  let! r := verify_token token now w in
  let '(user, w1) := r in
  match user with
  | None => Ok (Unauthorized, w1)
  | Some u =>
      let! r2 := load_db recursion_limit now w1 in
      let '(d, w2) := r2 in
      let! hit := find_order order_id (orders d) in
      match hit with
      | Some (i, order) =>
          let! forbidden :=
            if truthy (get u "isAdmin") then Ok false
            else let! uid := item u "id" in Ok (negb (owned_by uid order)) in
          if forbidden : bool then Ok (Forbidden, w2)
          else
            let o1 := dict_update order data in
            let o2 := <["updatedAt" := VStr (isoformat rt now)]> o1 in
            let! v := plus_one (get_or o2 "syncVersion" (VInt 0)) in
            let o3 := <["syncVersion" := v]> o2 in
            let upd := λ x : db, set_orders (<[i := o3]> (orders x)) x in
            let '(_, _, w3) :=
              save_db (serialises rt) now (upd d) (in_place upd w2) in
            Ok (OrderUpdated o3, w3)
      | None => Ok (OrderNotFound, w2)
      end
  end.

(** *** Settings *)

Definition defaults : gmap string setting :=
  {[ "kgz_rate" := SDec 885 1;
     "company_name" := SVal (VStr "Cargo Management System");
     "company_phone" := SVal (VStr "+996 XXX XXX XXX") ]}.

(** [get_setting] reads no header at all. *)
Definition get_setting (key : string) (now : Z) (w : world)
    : result (response * world) :=
  let! r := load_db recursion_limit now w in
  let '(d, w1) := r in
  match settings d !! key with
  | Some v => Ok (SettingValue v, w1)
  | None =>
      match defaults !! key with
      | Some v => Ok (SettingValue v, w1)
      | None => Ok (SettingNotFound, w1)
      end
  end.

Definition set_setting (token key : string) (value : setting) (now : Z)
    (w : world) : result (response * world) :=
  let! r := verify_token token now w in
  let '(user, w1) := r in
  match user with
  | None => Ok (Unauthorized, w1)
  | Some u =>
      let! r2 := load_db recursion_limit now w1 in
      let '(d, w2) := r2 in
      let upd := λ x : db, set_settings (<[key := value]> (settings x)) x in
      let '(_, _, w3) :=
        save_db (serialises rt) now (upd d) (in_place upd w2) in
      Ok (SettingSaved key value, w3)
  end.

(** *** Synchronisation *)

(** [merged_orders]: a Python [dict] keyed by order id.  It remembers the
    order in which keys came in, and a key equal to one already there
    takes that one's place. *)
Definition merge_map : Type := list (value * dict).

(** Lists cannot be hashed: using one as a key raises [TypeError]. *)
Definition hashable (v : value) : bool :=
  match v with
  | VList _ => false
  | _ => true
  end.

Fixpoint map_find (m : merge_map) (k : value) : option dict :=
  match m with
  | [] => None
  | (k', o) :: m' => if py_eq k' k then Some o else map_find m' k
  end.

Fixpoint map_set (m : merge_map) (k : value) (o : dict) : merge_map :=
  match m with
  | [] => [(k, o)]
  | (k', o') :: m' =>
      if py_eq k' k then (k', o) :: m' else (k', o') :: map_set m' k o
  end.

Definition map_keys (m : merge_map) : list value := m.*1.
Definition map_values (m : merge_map) : list dict := m.*2.

(** The server orders the merge starts from: all of them for an admin,
    the caller's own otherwise. *)
Definition scoped_orders (user : dict) (os : list dict) : result (list dict) :=
  if truthy (get user "isAdmin") then Ok os else own_orders user os.

(** First loop: [merged_orders[order['id']] = order]. *)
Fixpoint seed_merge (m : merge_map) (server : list dict) : result merge_map :=
  match server with
  | [] => Ok m
  | o :: rest =>
      let! k := item o "id" in
      if hashable k then seed_merge (map_set m k o) rest else Raise
  end.

(** One turn of the second loop, with the number of uuids drawn. *)
Definition merge_client (user : dict) (st : merge_map * nat) (order : dict)
    : result (merge_map * nat) :=
  let '(m, n) := st in
  let order_id := get order "id" in
  if negb (truthy order_id) then
    let new_id := VStr (uuid4 rt n) in
    let o1 := <["id" := new_id]> order in
    let! uid := item user "id" in
    let o2 := <["userId" := uid]> o1 in
    let! email := item user "email" in
    let o3 := <["userEmail" := email]> o2 in
    let o4 := <["syncVersion" := VInt 1]> o3 in
    Ok (map_set m new_id o4, S n)
  else if hashable order_id then
    match map_find m order_id with
    | Some server_order =>
        let client_ver := get_or order "syncVersion" (VInt 0) in
        let server_ver := get_or server_order "syncVersion" (VInt 0) in
        let! newer := py_gt client_ver server_ver in
        Ok (if newer : bool then map_set m order_id order else m, n)
    | None =>
        let! uid := item user "id" in
        let o1 := <["userId" := uid]> order in
        let! email := item user "email" in
        let o2 := <["userEmail" := email]> o1 in
        Ok (map_set m order_id o2, n)
    end
  else Raise.

Fixpoint merge_clients (user : dict) (st : merge_map * nat)
    (client : list dict) : result (merge_map * nat) :=
  match client with
  | [] => Ok st
  | order :: rest =>
      let! st' := merge_client user st order in
      merge_clients user st' rest
  end.

(** [[o for o in all_orders if o.get('userId') != user['id'] or o['id'] not
    in user_order_ids]]. *)
Fixpoint keep_orders (user : dict) (m : merge_map) (os : list dict)
    : result (list dict) :=
  match os with
  | [] => Ok []
  | o :: rest =>
      let! uid := item user "id" in
      let! keep :=
        if negb (owned_by uid o) then Ok true
        else
          let! k := item o "id" in
          if hashable k then Ok (negb (bool_decide (is_Some (map_find m k))))
          else Raise in
      let! rest' := keep_orders user m rest in
      Ok (if keep : bool then o :: rest' else rest')
  end.

(** The [try] block of [sync_data]. *)
Definition sync_body (user : dict) (client_orders : list dict) (now : Z)
    (w : world) : result (response * world) :=
  let! r := load_db recursion_limit now w in
  let '(d, w1) := r in
  let! server_orders := scoped_orders user (orders d) in
  let! seeded := seed_merge [] server_orders in
  let! st := merge_clients user (seeded, uuid_count w1) client_orders in
  let '(merged, n) := st in
  let! kept := keep_orders user merged (orders d) in
  let all_orders := kept ++ map_values merged in
  let w2 := mkWorld (file w1) (file_mtime w1) (writable w1) (db_cache w1)
              (db_last_modified w1) n in
  let '(_, _, w3) := save_db (serialises rt) now (set_orders all_orders d) w2 in
  Ok (SyncDone (map_values merged), w3).

Definition sync_data (token : string) (client_orders : list dict) (now : Z)
    (w : world) : result (response * world) :=
  let! r := verify_token token now w in
  let '(user, w1) := r in
  match user with
  | None => Ok (Unauthorized, w1)
  | Some u =>
      match sync_body u client_orders now w1 with
      | Ok a => Ok a
      | Raise => Ok (SyncError, w1)
      end
  end.

End Server.

(** ** Objects with identity: what [db_cache.copy()] shares *)

Module Heap.

(** A Python object lives at an address; a container holds atoms or the
    addresses of other objects. *)
Inductive hval : Type :=
  | HAtom (v : value)
  | HRef (l : nat).

Inductive obj : Type :=
  | ODict (d : gmap string hval)
  | OList (l : list hval).

Abbreviation heap := (gmap nat obj).

(** The interpreter state [load_db] looks at. *)
Record pstate : Type := mkPstate {
  objects : heap;
  g_db_cache : option nat;
  g_db_last_modified : Z;
  g_file_exists : bool;
  g_file_mtime : Z
}.

Definition new_addr (h : heap) : nat := fresh (dom h).

(** [d.copy()]: a new dict with the same entries, so the same addresses. *)
Definition dict_copy (h : heap) (l : nat) : option (nat * heap) :=
  match h !! l with
  | Some (ODict d) => Some (new_addr h, <[new_addr h := ODict d]> h)
  | _ => None
  end.

Definition nonempty_dict (h : heap) (l : nat) : bool :=
  match h !! l with
  | Some (ODict d) => negb (bool_decide (d = ∅))
  | _ => false
  end.

(** The cache-hit path of [load_db]: the test, the second test, and
    [return db_cache.copy()].  [None] when the path is not taken. *)
Definition load_db_hit (p : pstate) : option (nat * pstate) :=
  match g_db_cache p with
  | Some c =>
      if nonempty_dict (objects p) c && g_file_exists p
         && (g_file_mtime p <=? g_db_last_modified p)%Z
      then
        match dict_copy (objects p) c with
        | Some (r, h') =>
            Some (r, mkPstate h' (g_db_cache p) (g_db_last_modified p)
                       (g_file_exists p) (g_file_mtime p))
        | None => None
        end
      else None
  | None => None
  end.

(** One step into a container: [x[k]] or [x[i]]. *)
Inductive step : Type :=
  | Key (k : string)
  | Idx (i : nat).

Definition follow (h : heap) (v : hval) (s : step) : option hval :=
  match v with
  | HRef l =>
      match h !! l, s with
      | Some (ODict d), Key k => d !! k
      | Some (OList xs), Idx i => xs !! i
      | _, _ => None
      end
  | HAtom _ => None
  end.

Fixpoint resolve (h : heap) (v : hval) (path : list step) : option hval :=
  match path with
  | [] => Some v
  | s :: path' =>
      match follow h v s with
      | Some v' => resolve h v' path'
      | None => None
      end
  end.

(** What a caller can do to the object it reaches by [path] from the
    snapshot: [x[k] = v] on a dict, [x.append(v)] on a list. *)
Inductive mutation : Type :=
  | SetItem (path : list step) (k : string) (v : hval)
  | Append (path : list step) (v : hval).

Definition mutate (h : heap) (root : nat) (m : mutation) : option heap :=
  match m with
  | SetItem path k v =>
      match resolve h (HRef root) path with
      | Some (HRef l) =>
          match h !! l with
          | Some (ODict d) => Some (<[l := ODict (<[k := v]> d)]> h)
          | _ => None
          end
      | _ => None
      end
  | Append path v =>
      match resolve h (HRef root) path with
      | Some (HRef l) =>
          match h !! l with
          | Some (OList xs) => Some (<[l := OList (xs ++ [v])]> h)
          | _ => None
          end
      | _ => None
      end
  end.

(** The JSON document an object stands for. *)
#[warnings="-register-all"]
Inductive tree : Type :=
  | TAtom (v : value)
  | TDict (d : list (string * tree))
  | TList (l : list tree)
  | TDangling.

Fixpoint view (fuel : nat) (h : heap) (v : hval) : tree :=
  match v with
  | HAtom a => TAtom a
  | HRef l =>
      match fuel with
      | O => TDangling
      | S fuel' =>
          match h !! l with
          | Some (ODict d) =>
              TDict (prod_map id (view fuel' h) <$> map_to_list d)
          | Some (OList xs) => TList (view fuel' h <$> xs)
          | None => TDangling
          end
      end
  end.

Definition with_objects (h : heap) (p : pstate) : pstate :=
  mkPstate h (g_db_cache p) (g_db_last_modified p) (g_file_exists p)
    (g_file_mtime p).

(** No container points at an address that holds nothing. *)
Definition ref_ok (h : heap) (v : hval) : Prop :=
  match v with
  | HRef l => is_Some (h !! l)
  | HAtom _ => True
  end.

Definition obj_ok (h : heap) (o : obj) : Prop :=
  match o with
  | ODict d => map_Forall (λ _ v, ref_ok h v) d
  | OList xs => Forall (ref_ok h) xs
  end.

Definition closed (h : heap) : Prop := map_Forall (λ _ o, obj_ok h o) h.

#[global] Instance ref_ok_dec h v : Decision (ref_ok h v).
Proof. destruct v; simpl; apply _. Defined.

#[global] Instance obj_ok_dec h o : Decision (obj_ok h o).
Proof. destruct o; simpl; apply _. Defined.

#[global] Instance closed_dec h : Decision (closed h).
Proof. unfold closed. apply _. Defined.

(** A process whose cache holds one user and no orders. *)
Definition sample_objects : heap :=
  {[ 0%nat := ODict {[ "users" := HRef 1; "orders" := HRef 2 ]};
     1%nat := OList [HRef 3];
     2%nat := OList [];
     3%nat := ODict {[ "id" := HAtom (VStr "u1") ]} ]}.

Definition sample_state : pstate := mkPstate sample_objects (Some 0%nat) 10 true 5.

(** The same process after a cache hit, and the heap after the caller
    rebinds a top-level key of the snapshot it got, or appends to the
    [orders] list it got. *)
Definition sample_hit : pstate :=
  match load_db_hit sample_state with
  | Some (_, p) => p
  | None => sample_state
  end.
Definition sample_rebound : heap :=
  default ∅ (mutate (objects sample_hit) 4 (SetItem [] "orders" (HAtom VNone))).
Definition sample_appended : heap :=
  default ∅ (mutate (objects sample_hit) 4
               (Append [Key "orders"] (HAtom (VStr "new order")))).

End Heap.

(** ** Accounts, logout and deletion *)

(** What [register], [logout], [check_auth] and [delete_order] answer. *)
Inductive reply : Type :=
  | FieldsMissing
  | UserExists
  | Registered (token : string) (user : dict)
  | ServerError
  | LoggedOut
  | Authenticated (user : dict)
  | NotAuthenticated
  | DeleteUnauthorized
  | DeleteForbidden
  | DeleteNotFound
  | OrderDeleted.

Section Accounts.

Variable rt : runtime.

(** [str.strip] and [str.lower]. *)
Variable strip : string → string.
Variable lower : string → string.

(** [data.get('email', '').strip().lower()]: anything but a string has no
    [strip]. *)
Definition email_of (data : dict) : result string :=
  match get_or data "email" (VStr "") with
  | VStr s => Ok (lower (strip s))
  | _ => Raise
  end.

(** [hash_password]: anything but a string has no [encode]. *)
Definition hash_password (password : value) : result string :=
  match password with
  | VStr p => Ok (sha256_hex rt p)
  | _ => Raise
  end.

(** The uniqueness loop of [register]: [user['email']] raises on a user
    without one. *)
Fixpoint email_taken (us : list dict) (email : string) : result bool :=
  match us with
  | [] => Ok false
  | u :: us' =>
      let! v := item u "email" in
      if py_eq v (VStr email) then Ok true else email_taken us' email
  end.

(** The [new_user] literal of [register]. *)
Definition new_user (user_id email hash : string) (now : Z) : dict :=
  {[ "id" := VStr user_id;
     "email" := VStr email;
     "password" := VStr hash;
     "isAdmin" := VBool (String.eqb email "12abc202@gmail.com");
     "createdAt" := VStr (isoformat rt now);
     "lastSync" := VStr (isoformat rt now);
     "lastActivity" := VStr (isoformat rt now);
     "devices" := VList [] ]}.

(** The session [register] opens. *)
Definition new_session (token user_id : string) (now : Z) : dict :=
  {[ "token" := VStr token;
     "user_id" := VStr user_id;
     "created" := VStr (isoformat rt now) ]}.

(** The [user] object of the answers. *)
Definition user_view (id email is_admin : value) : dict :=
  {[ "id" := id; "email" := email; "isAdmin" := is_admin; "uid" := email ]}.

(** [register]: the whole body sits in a [try], and every exception is
    answered with [ServerError]; none of them comes after a change of the
    snapshot.  The state a failed [load_db] leaves is not followed. *)
Definition register (data : dict) (now : Z) (w : world) : reply * world :=
  match email_of data with
  | Raise => (ServerError, w)
  | Ok email =>
      let password := get_or data "password" (VStr "") in
      if String.eqb email "" || negb (truthy password) then (FieldsMissing, w)
      else
        match load_db rt recursion_limit now w with
        | Raise => (ServerError, w)
        | Ok (d, w1) =>
            match email_taken (users d) email with
            | Raise => (ServerError, w1)
            | Ok true => (UserExists, w1)
            | Ok false =>
                let user_id := uuid4 rt (uuid_count w1) in
                let w2 := next_uuid w1 in
                match hash_password password with
                | Raise => (ServerError, w2)
                | Ok hash =>
                    let u := new_user user_id email hash now in
                    let session_token := uuid4 rt (uuid_count w2) in
                    let w3 := next_uuid w2 in
                    let upd := λ x : db,
                      set_sessions
                        (sessions x ++ [new_session session_token user_id now])
                        (set_users (users x ++ [u]) x) in
                    let '(_, _, w4) :=
                      save_db rt (serialises rt) now (upd d)
                        (in_place upd w3) in
                    (Registered session_token
                       (user_view (VStr user_id) (VStr email) (get u "isAdmin")),
                     w4)
                end
            end
        end
  end.




(** [delete_order]: the search and the ownership test of [update_order],
    then [orders.pop(i)] on the list the cache holds too. *)
Definition delete_order (token order_id : string) (now : Z) (w : world)
    : result (reply * world) :=
  let! r := verify_token rt token now w in
  let '(user, w1) := r in
  match user with
  | None => Ok (DeleteUnauthorized, w1)
  | Some u =>
      let! r2 := load_db rt recursion_limit now w1 in
      let '(d, w2) := r2 in
      let! hit := find_order order_id (orders d) in
      match hit with
      | Some (i, order) =>
          let! forbidden :=
            if truthy (get u "isAdmin") then Ok false
            else let! uid := item u "id" in Ok (negb (owned_by uid order)) in
          if forbidden : bool then Ok (DeleteForbidden, w2)
          else
            let upd := λ x : db, set_orders (delete i (orders x)) x in
            let '(_, _, w3) :=
              save_db rt stored now (upd d) (in_place upd w2) in
            Ok (OrderDeleted, w3)
      | None => Ok (DeleteNotFound, w2)
      end
  end.

End Accounts.

(** ** Vocabulary of the statements *)

(** What a successful [load_db] leaves behind: the snapshot it returned is
    the cache, and the disk and the uuid counter are as they were. *)
Definition loaded (w : world) (d : db) (w1 : world) : Prop :=
  db_cache w1 = Some d ∧ file w1 = file w ∧ file_mtime w1 = file_mtime w
  ∧ writable w1 = writable w ∧ uuid_count w1 = uuid_count w.

(** The orders on disk. *)
Definition persisted_orders (w : world) : list dict :=
  match file w with
  | Doc d => orders d
  | _ => []
  end.


(** A session holds [token] when its [token] field equals it. *)
Definition holds_token (token : string) (s : dict) : bool :=
  match s !! "token" with
  | Some tv => py_eq tv (VStr token)
  | None => false
  end.

(** The number a [syncVersion] field stands for, [0] when it is absent. *)
Definition version_of (o : dict) : option Z :=
  match get_or o "syncVersion" (VInt 0) with
  | VInt z => Some z
  | VBool b => Some (bool_to_Z b)
  | _ => None
  end.

(** The store holds the order list [os]: the file does, and so does the
    cache if there is one. *)
Definition holds_orders (w : world) (os : list dict) : Prop :=
  (∃ f, file w = Doc f ∧ orders f = os)
  ∧ (∀ c, db_cache w = Some c → orders c = os).

(** What a re-upload makes of the order it finds. *)
Definition reuploaded (rt : runtime) (existing : dict) (payload : value)
    (now : Z) (v : Z) : dict :=
  <["syncVersion" := VInt (v + 1)]>
    (<["updatedAt" := VStr (isoformat rt now)]>
       (<["data" := payload]> existing)).

(** What [update_order] makes of the order it finds. *)
Definition patched (rt : runtime) (order data : dict) (now : Z) (v : Z) : dict :=
  <["syncVersion" := VInt (v + 1)]>
    (<["updatedAt" := VStr (isoformat rt now)]> (dict_update order data)).

(** The state a handler leaves, and what it answered. *)
Definition world_after (r : result (response * world)) (w : world) : world :=
  match r with
  | Ok (_, w') => w'
  | Raise => w
  end.

Definition answer_of (r : result (response * world)) : option response :=
  match r with
  | Ok (a, _) => Some a
  | Raise => None
  end.

(** How many stored orders [create_order] would take for an earlier upload
    of the file. *)
Definition uploads (file_name uid : value) (os : list dict) : nat :=
  length (filter (λ o, same_upload file_name uid o = true) os).

(** The order carries the id [oid]. *)
Definition has_id (oid : string) (o : dict) : bool :=
  py_eq (get o "id") (VStr oid).

(** The merge map a sync builds from the stored orders [os] and the
    client orders, with the uuid counter it ends at. *)
Definition merged_orders (rt : runtime) (user : dict) (os client : list dict)
    (n : nat) : result (merge_map * nat) :=
  let! server := scoped_orders user os in
  let! seeded := seed_merge [] server in
  merge_clients rt user (seeded, n) client.

(** Every entry of a merge map sits under the id of its order, and no two
    keys are equal. *)
Fixpoint distinct_keys (m : merge_map) : Prop :=
  match m with
  | [] => True
  | (k, _) :: m' => Forall (λ e, py_eq k e.1 = false) m' ∧ distinct_keys m'
  end.

Definition well_keyed (m : merge_map) : Prop :=
  Forall (λ e, py_eq e.1 (get e.2 "id") = true) m ∧ distinct_keys m.

(** The compiled-in answer of [get_setting] for a key the store lacks. *)
Definition builtin_answer (key : string) : response :=
  if decide (key = "kgz_rate") then SettingValue (SDec 885 1)
  else if decide (key = "company_name")
       then SettingValue (SVal (VStr "Cargo Management System"))
  else if decide (key = "company_phone")
       then SettingValue (SVal (VStr "+996 XXX XXX XXX"))
  else SettingNotFound.

(** [json.dump] takes the snapshot [save_db] makes of [data] at [now]. *)
Definition dumps (rt : runtime) (now : Z) (data : db) : Prop :=
  serialises rt (set_last_modified (isoformat rt now) data) = true.

(** The order list [create_order] hands to [save_db], told from what it
    answers: a new order goes to the end, an updated one stays where the
    first order of that file name and owner stood. *)
Definition after_upload (file_name uid : value) (os : list dict)
    (r : response) : list dict :=
  match r with
  | OrderCreated o => os ++ [o]
  | OrderReuploaded o =>
      match find_first (same_upload file_name uid) os with
      | Some (i, _) => <[i := o]> os
      | None => os
      end
  | _ => os
  end.

(** [json.dump] takes the snapshot a sync hands to [save_db]: the orders
    the filter keeps of the snapshot [d], then the values of the merge
    map.  Nothing is asked of a sync that does not get that far. *)
Definition sync_dumps (rt : runtime) (user : dict) (d : db)
    (client : list dict) (n : nat) (now : Z) : Prop :=
  match merged_orders rt user (orders d) client n with
  | Ok (merged, _) =>
      match keep_orders user merged (orders d) with
      | Ok kept => dumps rt now (set_orders (kept ++ map_values merged) d)
      | Raise => True
      end
  | Raise => True
  end.

(** [json.dump] takes the snapshot a second upload of the file hands to
    [save_db], after a first one was answered with [r]: the order [r]
    names, with the new payload, where it stands. *)
Definition second_upload_dumps (rt : runtime) (file_name uid : value)
    (os : list dict) (r : response) (payload : value) (now : Z) (d : db)
    : Prop :=
  match r with
  | OrderCreated o1 | OrderReuploaded o1 =>
      match version_of o1 with
      | Some v1 =>
          dumps rt now
            (set_orders
               (after_upload file_name uid (after_upload file_name uid os r)
                  (OrderReuploaded (reuploaded rt o1 payload now v1)))
               d)
      | None => True
      end
  | _ => True
  end.

(** ** Sample data *)

Module Sample.

(** A stand-in for [json.dump]: it refuses a snapshot with an order whose
    file name is the text below, and takes every other. *)
Definition encodable (d : db) : bool :=
  forallb (λ o, negb (py_eq (get o "fileName") (VStr "\ud800"))) (orders d).

Definition rt0 : runtime :=
  mkRuntime
    (λ t, if (t <? thirty_days)%Z then "early" else "late")
    (λ s, if String.eqb s "early" then Some 0
          else if String.eqb s "late" then Some thirty_days else None)
    (λ _, "01.01.2026")
    (λ n, "#" +:+ String (Ascii.ascii_of_nat (65 + n)) "-uuid")
    (λ s, "#" +:+ s)
    encodable.

(** A store whose file cannot be decoded, in a process that has not
    loaded anything yet. *)
Definition corrupt_world : world := mkWorld Corrupt 0 true None 0 0.

Definition admin : dict :=
  {[ "id" := VStr "a0"; "email" := VStr "boss@x"; "isAdmin" := VBool true ]}.
Definition u1 : dict :=
  {[ "id" := VStr "u1"; "email" := VStr "u1@x"; "isAdmin" := VBool false ]}.
Definition u2 : dict :=
  {[ "id" := VStr "u2"; "email" := VStr "u2@x"; "isAdmin" := VBool false ]}.

Definition session (token user_id created : string) : dict :=
  {[ "token" := VStr token; "user_id" := VStr user_id;
     "created" := VStr created ]}.

Definition order (id owner file_name : string) (version : Z) : dict :=
  {[ "id" := VStr id; "userId" := VStr owner; "fileName" := VStr file_name;
     "data" := VList []; "syncVersion" := VInt version ]}.

Definition db0 : db :=
  mkDb [admin; u1; u2]
       [order "o1" "u1" "flightA" 2; order "o2" "u2" "flightB" 1]
       {[ "kgz_rate" := SDec 90 0 ]}
       [session "ta" "a0" "late"; session "t1" "u1" "late";
        session "t2" "u2" "late"; session "tx" "u1" "early"]
       [] "late".

(** The file holds [db0] and the process has not loaded it yet. *)
Definition w0 : world := mkWorld (Doc db0) 0 true None 0 0.

(** A moment at which the ["late"] sessions are young and the ["early"]
    one is thirty days old. *)
Definition now0 : Z := thirty_days.


(** What [verify_token] makes of user [u1]'s young token on [w0]. *)
Definition u1_verified : dict :=
  match verify_token rt0 "t1" now0 w0 with
  | Ok (Some u, _) => u
  | _ => ∅
  end.
Definition w0_verified : world :=
  match verify_token rt0 "t1" now0 w0 with
  | Ok (_, w) => w
  | Raise => w0
  end.

(** The snapshot [load_db] hands out in a world, and the world it
    leaves. *)
Definition snapshot (rt : runtime) (now : Z) (w : world) : db :=
  match load_db rt recursion_limit now w with
  | Ok (d, _) => d
  | Raise => mkDb [] [] ∅ [] [] ""
  end.
Definition reloaded (rt : runtime) (now : Z) (w : world) : world :=
  match load_db rt recursion_limit now w with
  | Ok (_, w') => w'
  | Raise => w
  end.

(** User [u1] holds two orders of one file name, as a sync with two new
    orders of that name leaves them. *)
Definition db_twins : db :=
  mkDb [admin; u1; u2]
       [order "o1" "u1" "flightA" 1; order "o3" "u1" "flightA" 1]
       ∅ [session "t1" "u1" "late"] [] "late".
Definition w_twins : world := mkWorld (Doc db_twins) 0 true None 0 0.
Definition upload_a : dict :=
  {[ "fileName" := VStr "flightA"; "data" := VList [VList [VStr "row"]] ]}.

(** [w0] after user [u1] uploaded [upload_a], and that user's next
    verification a moment later. *)
Definition r0_uploaded : response :=
  default Unauthorized (answer_of (create_order rt0 "t1" upload_a now0 w0)).
Definition w0_uploaded : world :=
  world_after (create_order rt0 "t1" upload_a now0 w0) w0.
Definition u1_reverified : dict :=
  match verify_token rt0 "t1" (now0 + 1) w0_uploaded with
  | Ok (Some u, _) => u
  | _ => ∅
  end.
Definition w0_reverified : world :=
  match verify_token rt0 "t1" (now0 + 1) w0_uploaded with
  | Ok (_, w) => w
  | Raise => w0
  end.

(** What a sync answered. *)
Definition synced (r : result (response * world)) : list dict :=
  match r with
  | Ok (SyncDone ms, _) => ms
  | _ => []
  end.

(** Two client copies of order [o1], at versions 5 and 7. *)
Definition c5 : dict := order "o1" "u1" "flightA" 5.
Definition c7 : dict := order "o1" "u1" "flightA" 7.

(** A client order the server has not seen. *)
Definition c9 : dict := order "o9" "u1" "flightC" 1.

Definition o1 : dict := order "o1" "u1" "flightA" 2.
Definition o2 : dict := order "o2" "u2" "flightB" 1.

(** A patch that names a version of its own. *)
Definition stale_patch : dict := {[ "syncVersion" := VInt 0 ]}.

(** A patch that names none. *)
Definition note_patch : dict := {[ "note" := VStr "checked" ]}.

End Sample.



(** Sample data for the account handlers and the store. *)
Module More.

(** An empty disk that takes writes, and one that refuses them. *)
Definition blank : world := mkWorld Missing 0 true None 0 0.
Definition blank_readonly : world := mkWorld Missing 0 false None 0 0.

(** Two users, one order each, and one young session of user [u1]. *)
Definition db1 : db :=
  mkDb [Sample.u1; Sample.u2] [Sample.o1; Sample.o2] ∅
       [Sample.session "t1" "u1" "late"] [] "late".
Definition w1 : world := mkWorld (Doc db1) 0 true None 0 0.
Definition w1_loaded (now : Z) : world := mkWorld (Doc db1) 0 true (Some db1) now 0.

(** What [verify_token] makes of the token of [u1], and of a token nobody
    holds. *)
Definition caller (rt : runtime) (now : Z) (w : world) : dict :=
  match verify_token rt "t1" now w with
  | Ok (Some u, _) => u
  | _ => ∅
  end.
Definition verified (rt : runtime) (token : string) (now : Z) (w : world) : world :=
  match verify_token rt token now w with
  | Ok (_, w') => w'
  | Raise => w
  end.

(** Request bodies. *)
Definition taken : dict := {[ "email" := VStr "u1@x"; "password" := VStr "pw" ]}.
Definition upload_z : dict :=
  {[ "fileName" := VStr "flightZ"; "data" := VList [VList [VStr "row"]] ]}.

(** An upload under the file name the sample [json.dump] refuses. *)
Definition upload_surrogate : dict :=
  {[ "fileName" := VStr "\ud800"; "data" := VList [] ]}.

(** Client orders: one with an id that cannot be hashed, one without id. *)
Definition unhashable : dict := {[ "id" := VList [VInt 1] ]}.
Definition unnamed : dict := {[ "fileName" := VStr "flightB" ]}.

(** A runtime whose uuids are pairwise different. *)
Fixpoint marks (n : nat) : string :=
  match n with
  | O => ""
  | S k => String (Ascii.ascii_of_nat 120) (marks k)
  end.
Definition rt1 : runtime :=
  mkRuntime (isoformat Sample.rt0) (fromisoformat Sample.rt0)
    (strftime_dmy Sample.rt0) (λ n, "#" +:+ marks n) (sha256_hex Sample.rt0)
    Sample.encodable.

End More.

(** * Properties *)

Section StoreFacts.

Variable rt : runtime.

Lemma seed_if_missing_exists now w :
  file_exists w = true → seed_if_missing rt now w = w.
Proof. unfold seed_if_missing. by intros ->. Qed.

(** A file that cannot be decoded and no fresh cache: every call of
    [load_db] ends in [init_db], which does not seed and calls [load_db]
    again on the same state. *)
Lemma load_db_corrupt fuel now w :
  file w = Corrupt →
  (db_cache w = None ∨ db_last_modified w < file_mtime w) →
  load_db rt fuel now w = Raise.
Proof.
  intros Hfile Hstale. induction fuel as [|fuel IH]; [done|].
  simpl. rewrite Hfile.
  assert (Hex : file_exists w = true) by (unfold file_exists; by rewrite Hfile).
  rewrite (seed_if_missing_exists _ _ Hex), IH, Hex.
  destruct (db_cache w) as [c|]; [|done].
  destruct Hstale as [?|Hlt]; [done|].
  assert ((file_mtime w <=? db_last_modified w)%Z = false) as ->
    by (apply Z.leb_gt; lia).
  done.
Qed.

(** The case [init_db] does cover: with no file at all, and a disk that
    takes the write, [load_db] seeds the default snapshot and returns it. *)
Lemma load_db_missing fuel now w :
  file w = Missing →
  writable w = true →
  ∃ w1,
    load_db rt (S (S fuel)) now w
    = Ok (set_last_modified (isoformat rt now)
            (default_db rt now (uuid4 rt (uuid_count w))), w1)
    ∧ file w1 = Doc (set_last_modified (isoformat rt now)
                       (default_db rt now (uuid4 rt (uuid_count w)))).
Proof.
  intros Hfile Hw.
  assert (Hseed : seed_if_missing rt now w
    = mkWorld (Doc (set_last_modified (isoformat rt now)
                      (default_db rt now (uuid4 rt (uuid_count w))))) now true
        (Some (set_last_modified (isoformat rt now)
                 (default_db rt now (uuid4 rt (uuid_count w))))) now
        (S (uuid_count w))).
  { unfold seed_if_missing, file_exists, save_db. rewrite Hfile. simpl.
    rewrite Hw.
    unfold set_db_last_modified, set_cache, write_file, next_uuid. simpl.
    by rewrite Hw. }
  assert (Hgo : load_db rt (S fuel) now (seed_if_missing rt now w)
    = Ok (set_last_modified (isoformat rt now)
            (default_db rt now (uuid4 rt (uuid_count w))),
          seed_if_missing rt now w)).
  { rewrite Hseed. simpl. by rewrite Z.leb_refl. }
  exists (seed_if_missing rt now w). split; [|by rewrite Hseed].
  rewrite <- Hgo. simpl. unfold file_exists. rewrite Hfile. simpl.
  by destruct (db_cache w).
Qed.

Lemma load_db_doc fuel now w d0 :
  file w = Doc d0 →
  ∃ d w1, load_db rt (S fuel) now w = Ok (d, w1) ∧ loaded w d w1.
Proof.
  intros Hfile. simpl. rewrite Hfile.
  destruct (db_cache w) as [c|] eqn:Hc.
  - destruct (file_exists w && (file_mtime w <=? db_last_modified w)%Z).
    + exists c, w. split; [done|]. by repeat split.
    + eexists _, _. split; [done|]. by repeat split.
  - eexists _, _. split; [done|]. by repeat split.
Qed.

Lemma load_db_doc_eq fuel now w d0 :
  file w = Doc d0 →
  load_db rt (S fuel) now w
  = Ok (match db_cache w with
        | Some c =>
            if file_exists w && (file_mtime w <=? db_last_modified w)%Z
            then (c, w)
            else (d0, set_db_last_modified now (set_cache (Some d0) w))
        | None => (d0, set_db_last_modified now (set_cache (Some d0) w))
        end).
Proof.
  intros Hfile. simpl. rewrite Hfile.
  destruct (db_cache w) as [c|]; [|done].
  by destruct (file_exists w && (file_mtime w <=? db_last_modified w)%Z).
Qed.

Lemma load_db_limit_eq now w d0 :
  file w = Doc d0 →
  load_db rt recursion_limit now w
  = Ok (match db_cache w with
        | Some c =>
            if file_exists w && (file_mtime w <=? db_last_modified w)%Z
            then (c, w)
            else (d0, set_db_last_modified now (set_cache (Some d0) w))
        | None => (d0, set_db_last_modified now (set_cache (Some d0) w))
        end).
Proof. apply (load_db_doc_eq 999). Qed.

Lemma load_db_limit now w d0 :
  file w = Doc d0 →
  ∃ d w1, load_db rt recursion_limit now w = Ok (d, w1) ∧ loaded w d w1.
Proof. apply (load_db_doc 999). Qed.

End StoreFacts.

(** C1 (defect): with an undecodable file and nothing cached, [load_db]
    returns at no call depth: [init_db] seeds only a missing file, so the
    two functions call each other until the interpreter gives up. *)
Theorem load_db_corrupt_store_never_returns (rt : runtime) (fuel : nat) (now : Z) :
  load_db rt fuel now Sample.corrupt_world = Raise.
Proof. apply load_db_corrupt; [done | by left]. Qed.

(** From here on [load_db] is used through the lemmas above only. *)
Arguments load_db : simpl never.
Arguments recursion_limit : simpl never.

Section SessionFacts.

Variable rt : runtime.

Lemma find_user_hit us v i :
  find_user us v = Ok (Some i) →
  ∃ u idv, us !! i = Some u ∧ u !! "id" = Some idv ∧ py_eq idv v = true.
Proof.
  revert i. induction us as [|u us IH]; intros i; simpl; [done|].
  unfold item. destruct (u !! "id") as [idv|] eqn:Hid; simpl; [|done].
  destruct (py_eq idv v) eqn:Heq.
  - intros [= <-]. by exists u, idv.
  - destruct (find_user us v) as [[j|]|]; simpl; [|done..].
    intros [= <-]. by apply IH.
Qed.

(** One turn either leaves the resolved user alone, or the session is
    young, holds the token, and names a user, who is stamped. *)
Lemma verify_step_cases token now a u us s :
  ∃ u' us',
    verify_step rt token now (a, u, us) s
    = (if is_active rt now s then a ++ [s] else a, u', us')
    ∧ ((u' = u ∧ us' = us)
       ∨ (is_active rt now s = true ∧ holds_token token s = true
          ∧ ∃ i x, us !! i = Some x ∧ is_Some (x !! "id")
              ∧ u' = Some (<["lastActivity" := VStr (isoformat rt now)]> x)
              ∧ us' = <[i := <["lastActivity" := VStr (isoformat rt now)]> x]> us)).
Proof.
  unfold verify_step.
  destruct (is_active rt now s) eqn:Hact; [|by eauto 10].
  destruct (s !! "token") as [tv|] eqn:Htok; [|by eauto 10].
  destruct (py_eq tv (VStr token)) eqn:Heq; [|by eauto 10].
  destruct (find_user us (get s "user_id")) as [[i|]|] eqn:Hfind;
    [|by eauto 10..].
  destruct (find_user_hit _ _ _ Hfind) as (x & idv & Hi & Hid & _).
  rewrite Hi. eexists _, _. split; [done|]. right.
  repeat split; [unfold holds_token; by rewrite Htok|]. exists i, x. by rewrite Hid.
Qed.

(** The loop keeps exactly the sessions that are still young. *)
Lemma verify_fold_active token now ss a u us :
  (foldl (verify_step rt token now) (a, u, us) ss).1.1
  = a ++ filter (λ s, is_active rt now s = true) ss.
Proof.
  revert a u us. induction ss as [|s ss IH]; intros a u us.
  - simpl. by rewrite app_nil_r.
  - cbn [foldl].
    destruct (verify_step_cases token now a u us s) as (u' & us' & -> & _).
    rewrite IH, filter_cons.
    destruct (is_active rt now s).
    + rewrite decide_True by done. by rewrite <- app_assoc.
    + by rewrite decide_False by done.
Qed.

(** The loop resolves a user only through a young session that holds the
    token. *)
Lemma verify_fold_user token now ss a u us :
  (∀ s, s ∈ ss → holds_token token s = true → is_active rt now s = false) →
  (foldl (verify_step rt token now) (a, u, us) ss).1.2 = u
  ∧ (foldl (verify_step rt token now) (a, u, us) ss).2 = us.
Proof.
  revert a u us. induction ss as [|s ss IH]; intros a u us Hno; [done|].
  cbn [foldl].
  destruct (verify_step_cases token now a u us s) as (u' & us' & -> & Hcase).
  destruct Hcase as [[-> ->]|(Hact & Hhold & _)].
  - apply IH. intros s0 Hin. apply Hno. by right.
  - assert (is_active rt now s = false); [|congruence].
    apply Hno; [by left|done].
Qed.


(** A write that goes through. *)
Lemma save_db_taken takes now data w :
  writable w = true →
  takes (set_last_modified (isoformat rt now) data) = true →
  (save_db rt takes now data w).2
  = mkWorld (Doc (set_last_modified (isoformat rt now) data)) now true
      (Some (set_last_modified (isoformat rt now) data)) now (uuid_count w).
Proof.
  intros Hw Ht. unfold save_db, set_db_last_modified, set_cache, write_file.
  by rewrite Hw, Ht.
Qed.

(** A write [json.dump] gives up: the file no longer decodes. *)
Lemma save_db_refused takes now data w :
  writable w = true →
  takes (set_last_modified (isoformat rt now) data) = false →
  save_db rt takes now data w
  = (false, set_last_modified (isoformat rt now) data, spoil_file now w).
Proof. intros Hw Ht. unfold save_db. by rewrite Hw, Ht. Qed.


Lemma save_db_file now data w :
  ∃ d1, file (save_db rt stored now data w).2
        = (if writable w then Doc d1 else file w)
        ∧ orders d1 = orders data ∧ sessions d1 = sessions data
        ∧ settings d1 = settings data ∧ users d1 = users data.
Proof.
  exists (set_last_modified (isoformat rt now) data).
  unfold save_db, stored. by destruct (writable w).
Qed.

Lemma save_db_keeps now data w :
  writable (save_db rt stored now data w).2 = writable w
  ∧ uuid_count (save_db rt stored now data w).2 = uuid_count w
  ∧ (∀ d0, file w = Doc d0 →
       ∃ d1, file (save_db rt stored now data w).2 = Doc d1).
Proof.
  unfold save_db, stored. destruct (writable w) eqn:Hw; simpl; eauto 10.
Qed.

(** Whatever becomes of the write, the disk takes writes as before and no
    uuid is drawn. *)
Lemma save_db_frame takes now data w :
  writable (save_db rt takes now data w).2 = writable w
  ∧ uuid_count (save_db rt takes now data w).2 = uuid_count w.
Proof.
  unfold save_db. destruct (writable w) eqn:Hw; simpl; [|done].
  by destruct (takes _).
Qed.

(** With a decodable file [verify_token] always answers, and leaves a
    decodable file. *)
Lemma verify_token_doc token now w d0 :
  file w = Doc d0 →
  ∃ user w1 d1,
    verify_token rt token now w = Ok (user, w1)
    ∧ file w1 = Doc d1 ∧ writable w1 = writable w
    ∧ uuid_count w1 = uuid_count w.
Proof.
  intros Hfile. unfold verify_token.
  destruct (String.eqb token ""); [by eauto 10|].
  destruct (load_db_limit rt now w d0 Hfile) as (d & wl & -> & Hl).
  destruct Hl as (Hc & Hf & Hm & Hwr & Hu). simpl.
  destruct (foldl _ _ _) as [[active user] us].
  destruct (negb _).
  - pose proof (save_db_keeps now (set_sessions active (set_users us d))
                  (in_place (set_users us) wl)) as (Hw1 & Hu1 & Hd1).
    destruct (Hd1 d0) as [d1 Hd1']; [by rewrite <- Hfile, <- Hf|].
    destruct (save_db _ _ _ _ _) as [[b dd] w3]. simpl in *.
    exists user, w3, d1. by rewrite Hw1, Hu1.
  - exists user, (in_place (set_users us) wl), d0. simpl.
    by rewrite Hf, Hwr, Hu.
Qed.


End SessionFacts.

Section Expiry.

Variable rt : runtime.




End Expiry.


Section Reads.

Variable rt : runtime.

Lemma py_eq_str_r v s : py_eq v (VStr s) = true ↔ v = VStr s.
Proof.
  destruct v; simpl; try (split; [done|by intros [=]]).
  rewrite String.eqb_eq. split; [by intros ->|by intros [= ->]].
Qed.



Lemma defaults_lookup key :
  match defaults !! key with
  | Some v => SettingValue v
  | None => SettingNotFound
  end = builtin_answer key.
Proof.
  unfold defaults, builtin_answer.
  rewrite !lookup_insert, lookup_singleton.
  destruct (decide ("kgz_rate" = key)) as [<-|H1]; [by rewrite decide_True|].
  rewrite (decide_False (P := key = "kgz_rate")) by congruence.
  destruct (decide ("company_name" = key)) as [<-|H2]; [by rewrite decide_True|].
  rewrite (decide_False (P := key = "company_name")) by congruence.
  destruct (decide ("company_phone" = key)) as [<-|H3]; [by rewrite decide_True|].
  by rewrite (decide_False (P := key = "company_phone")) by congruence.
Qed.


End Reads.



Section Holding.

Variable rt : runtime.

Lemma holds_orders_persisted w os :
  holds_orders w os → persisted_orders w = os.
Proof. intros [(f & Hf & <-) _]. unfold persisted_orders. by rewrite Hf. Qed.

Lemma load_db_holds now w os :
  holds_orders w os →
  ∃ d w1,
    load_db rt recursion_limit now w = Ok (d, w1)
    ∧ orders d = os ∧ holds_orders w1 os ∧ db_cache w1 = Some d
    ∧ writable w1 = writable w ∧ uuid_count w1 = uuid_count w.
Proof.
  intros Hh. pose proof Hh as [(f & Hf & Hos) Hc].
  rewrite (load_db_limit_eq rt now w f Hf).
  assert (Hread : ∃ d w1,
    Ok (f, set_db_last_modified now (set_cache (Some f) w)) = Ok (d, w1)
    ∧ orders d = os ∧ holds_orders w1 os ∧ db_cache w1 = Some d
    ∧ writable w1 = writable w ∧ uuid_count w1 = uuid_count w).
  { eexists _, _. split; [done|]. split; [done|]. split; [|done].
    split; [by exists f|]. simpl. by intros c' [= <-]. }
  destruct (db_cache w) as [c|] eqn:Hcache; [|done].
  destruct (file_exists w && (file_mtime w <=? db_last_modified w)%Z); [|done].
  exists c, w. split; [done|]. split; [by apply Hc|]. by split.
Qed.

Lemma save_db_holds now data w os :
  holds_orders w os →
  (writable w = true →
   holds_orders (save_db rt stored now data w).2 (orders data))
  ∧ (writable w = false → (save_db rt stored now data w).2 = w)
  ∧ writable (save_db rt stored now data w).2 = writable w
  ∧ uuid_count (save_db rt stored now data w).2 = uuid_count w.
Proof.
  intros Hh. unfold save_db, stored. destruct (writable w) eqn:Hw; simpl.
  - split; [|done]. intros _. split.
    + by eexists.
    + simpl. by intros c [= <-].
  - by repeat split.
Qed.

(** The write of a snapshot [json.dump] takes. *)
Lemma save_db_ok takes now data w :
  writable w = true →
  takes (set_last_modified (isoformat rt now) data) = true →
  holds_orders (save_db rt takes now data w).2 (orders data)
  ∧ writable (save_db rt takes now data w).2 = true
  ∧ uuid_count (save_db rt takes now data w).2 = uuid_count w.
Proof.
  intros Hw Ht. rewrite (save_db_taken rt takes now data w Hw Ht). simpl.
  split; [|done]. split; [by eexists|]. simpl. by intros c [= <-].
Qed.

(** The write of a snapshot [json.dump] does not take. *)
Lemma save_db_spoils takes now data w :
  writable w = true →
  takes (set_last_modified (isoformat rt now) data) = false →
  file (save_db rt takes now data w).2 = Corrupt
  ∧ file_mtime (save_db rt takes now data w).2 = now
  ∧ db_cache (save_db rt takes now data w).2 = db_cache w
  ∧ db_last_modified (save_db rt takes now data w).2 = db_last_modified w.
Proof. intros Hw Ht. by rewrite (save_db_refused rt takes now data w Hw Ht). Qed.

(** [load_db] on a store that holds [os]: whatever it returns. *)
Lemma load_db_holds_eq now w os d w1 :
  holds_orders w os →
  load_db rt recursion_limit now w = Ok (d, w1) →
  orders d = os ∧ holds_orders w1 os ∧ db_cache w1 = Some d
  ∧ writable w1 = writable w ∧ uuid_count w1 = uuid_count w.
Proof.
  intros Hh Hload.
  destruct (load_db_holds now w os Hh) as (d' & w1' & Hload' & H).
  rewrite Hload in Hload'. by injection Hload' as <- <-.
Qed.

(** Drawing a uuid changes nothing of what [load_db] reads. *)
Lemma load_db_next_uuid now w os d w1 :
  holds_orders w os →
  load_db rt recursion_limit now w = Ok (d, w1) →
  load_db rt recursion_limit now (next_uuid w) = Ok (d, next_uuid w1).
Proof.
  intros [(f & Hf & _) _].
  rewrite (load_db_limit_eq rt now w f Hf).
  rewrite (load_db_limit_eq rt now (next_uuid w) f Hf).
  unfold file_exists. simpl.
  destruct (db_cache w) as [c|]; [|by intros [= <- <-]].
  destruct (_ && _); by intros [= <- <-].
Qed.

Lemma in_place_holds (f : db → db) w os :
  (∀ x, orders (f x) = orders x) →
  holds_orders w os → holds_orders (in_place f w) os.
Proof.
  intros Hf [Hfile Hc]. split; [done|]. simpl.
  intros c. destruct (db_cache w) as [c0|]; simpl; [|done].
  intros [= <-]. rewrite Hf. by apply Hc.
Qed.

Lemma verify_token_holds token now w os :
  holds_orders w os →
  ∃ user w1,
    verify_token rt token now w = Ok (user, w1)
    ∧ holds_orders w1 os ∧ writable w1 = writable w
    ∧ uuid_count w1 = uuid_count w.
Proof.
  intros Hh. unfold verify_token.
  destruct (String.eqb token ""); [by eauto 10|].
  destruct (load_db_holds now w os Hh) as (d & wl & -> & Hos & Hhl & Hc & Hwr & Hu).
  simpl. destruct (foldl _ _ _) as [[active user] us].
  assert (Hh2 : holds_orders (in_place (set_users us) wl) os)
    by by apply in_place_holds.
  destruct (negb _).
  - pose proof (save_db_holds now (set_sessions active (set_users us d))
                  (in_place (set_users us) wl) os Hh2) as (Hok & Hfail & Hw1 & Hu1).
    destruct (save_db _ _ _ _ _) as [[b dd] w3]. simpl in *.
    exists user, w3. rewrite Hw1, Hu1. split; [done|]. split; [|done].
    destruct (writable wl) eqn:Hwl.
    + rewrite <- Hos. by apply Hok.
    + by rewrite Hfail.
  - exists user, (in_place (set_users us) wl). by split.
Qed.

(** What every handler does first, on a store that holds [os]. *)
Lemma handler_entry token now w os user w1 :
  holds_orders w os →
  verify_token rt token now w = Ok (user, w1) →
  holds_orders w1 os ∧ writable w1 = writable w
  ∧ uuid_count w1 = uuid_count w.
Proof.
  intros Hh Hv.
  destruct (verify_token_holds token now w os Hh) as (u' & w1' & Hv' & ?).
  rewrite Hv in Hv'. by injection Hv' as <- <-.
Qed.

End Holding.

(** Name what the [save_db] in the goal leaves behind. *)
Ltac save_step H w' :=
  match goal with
  | |- context [save_db ?rt ?takes ?now ?x ?y] =>
      pose proof (save_db_ok rt takes now x y) as H;
      destruct (save_db rt takes now x y) as [[? ?] w']; simpl in H
  end.

Section OrderFacts.

Variable rt : runtime.

Lemma py_eq_refl v : py_eq v v = true.
Proof.
  revert v. fix IH 1. intros [|b|z|s|l]; simpl.
  - done.
  - by destruct b.
  - apply Z.eqb_refl.
  - apply String.eqb_refl.
  - induction l as [|x l IHl]; [done|]. by rewrite (IH x), IHl.
Qed.

Lemma find_first_hit {A} (p : A → bool) (l : list A) i x :
  find_first p l = Some (i, x) → l !! i = Some x ∧ p x = true.
Proof.
  revert i. induction l as [|y l IH]; intros i; simpl; [done|].
  destruct (p y) eqn:Hy; [by intros [= <- <-]|].
  destruct (find_first p l) as [[j z]|]; [|done].
  intros [= <- <-]. by apply IH.
Qed.

Lemma find_first_none {A} (p : A → bool) (l : list A) :
  find_first p l = None → filter (λ x, p x = true) l = [].
Proof.
  induction l as [|y l IH]; simpl; [done|].
  destruct (p y) eqn:Hy; [done|].
  destruct (find_first p l) as [[j z]|]; [done|].
  intros _. rewrite filter_cons, decide_False by (by rewrite Hy). by apply IH.
Qed.

Lemma find_first_some {A} (p : A → bool) (l : list A) x :
  x ∈ l → p x = true → is_Some (find_first p l).
Proof.
  intros Hin Hx. induction l as [|y l IH]; [by apply not_elem_of_nil in Hin|].
  simpl. destruct (p y) eqn:Hy; [done|].
  apply elem_of_cons in Hin as [->|Hin]; [congruence|].
  by destruct (IH Hin) as [[j z] ->].
Qed.

(** Replacing an element by one that passes the same test keeps the
    filtered length. *)
Lemma filter_insert_same {A} (p : A → bool) (l : list A) i x y :
  l !! i = Some x → p y = p x →
  length (filter (λ z, p z = true) (<[i := y]> l))
  = length (filter (λ z, p z = true) l).
Proof.
  revert i. induction l as [|z l IH]; intros i; [done|].
  destruct i as [|i]; simpl.
  - intros [= ->] Hp. rewrite !filter_cons, Hp.
    by destruct (decide (p x = true)).
  - intros Hi Hp. rewrite !filter_cons.
    destruct (decide (p z = true)); simpl; by rewrite (IH i).
Qed.

Lemma plus_one_version o :
  ∀ v, version_of o = Some v →
       plus_one (get_or o "syncVersion" (VInt 0)) = Ok (VInt (v + 1)).
Proof.
  intros v. unfold version_of.
  destruct (get_or o "syncVersion" (VInt 0)); simpl; try done; by intros [= <-].
Qed.

Lemma version_of_insert o z :
  version_of (<["syncVersion" := VInt z]> o) = Some z.
Proof. unfold version_of, get_or. by rewrite lookup_insert_eq. Qed.

Lemma version_of_insert_ne o k v :
  k ≠ "syncVersion" → version_of (<[k := v]> o) = version_of o.
Proof. intros Hk. unfold version_of, get_or. by rewrite lookup_insert_ne. Qed.

Lemma new_order_file_name id uid email data now :
  get (new_order rt id uid email data now) "fileName"
  = get_or data "fileName" (VStr "").
Proof.
  unfold get, new_order.
  by rewrite !lookup_insert_ne, lookup_insert_eq by done.
Qed.

Lemma new_order_data id uid email data now :
  get (new_order rt id uid email data now) "data"
  = get_or data "data" (VList []).
Proof.
  unfold get, new_order.
  by rewrite !lookup_insert_ne, lookup_insert_eq by done.
Qed.

Lemma new_order_version id uid email data now :
  version_of (new_order rt id uid email data now) = Some 1.
Proof.
  unfold version_of, get_or, new_order.
  by rewrite !lookup_insert_ne, lookup_singleton_eq by done.
Qed.

Lemma new_order_owner id uid email data now :
  get (new_order rt id uid email data now) "userId" = uid.
Proof.
  unfold get, new_order.
  by rewrite !lookup_insert_ne, lookup_insert_eq by done.
Qed.

(** A re-upload touches neither the file name nor the owner. *)
Lemma same_upload_reuploaded fname uid existing payload now v :
  same_upload fname uid (reuploaded rt existing payload now v)
  = same_upload fname uid existing.
Proof.
  unfold same_upload, reuploaded, get.
  by rewrite !lookup_insert_ne by done.
Qed.

(** What a handler leaves when its last step is a [save_db]. *)
Lemma save_db_last {A} (r : A) (x : bool * db * world) :
  (let '(_, _, w') := x in Ok (r, w')) = Ok (r, x.2).
Proof. by destruct x as [[? ?] ?]. Qed.

(** [create_order] on an order of the same file name and owner: what it
    answers, whatever becomes of the write. *)
Lemma create_order_reupload_eq token data now w os user w1 uid email i
    existing v d w2 :
  holds_orders w os →
  verify_token rt token now w = Ok (Some user, w1) →
  user !! "id" = Some uid →
  user !! "email" = Some email →
  find_first (same_upload (get_or data "fileName" (VStr "")) uid) os
  = Some (i, existing) →
  version_of existing = Some v →
  load_db rt recursion_limit now w1 = Ok (d, w2) →
  let e3 := reuploaded rt existing (get_or data "data" (VList [])) now v in
  let upd := λ x : db, set_orders (<[i := e3]> (orders x)) x in
  create_order rt token data now w
  = Ok (OrderReuploaded e3,
        (save_db rt (serialises rt) now (set_orders (<[i := e3]> os) d)
           (in_place upd (next_uuid w2))).2)
  ∧ writable (in_place upd (next_uuid w2)) = writable w.
Proof.
  intros Hh Hv Hid Hemail Hfind Hver Hload e3 upd.
  destruct (handler_entry rt token now w os _ w1 Hh Hv) as (Hh1 & Hw1 & Hu1).
  destruct (load_db_holds_eq rt now w1 os d w2 Hh1 Hload)
    as (Hos & Hh2 & Hc2 & Hw2 & Hu2).
  unfold create_order. rewrite Hv. simpl. unfold item. rewrite Hid, Hemail. simpl.
  rewrite (load_db_next_uuid rt now w1 os d w2 Hh1 Hload).
  simpl. rewrite new_order_file_name, new_order_data, Hos, Hfind.
  assert (version_of (<["updatedAt" := VStr (isoformat rt now)]>
            (<["data" := get_or data "data" (VList [])]> existing)) = Some v) as Hver2.
  { by rewrite !version_of_insert_ne. }
  rewrite (plus_one_version _ v Hver2). simpl.
  fold (reuploaded rt existing (get_or data "data" (VList [])) now v).
  fold e3. rewrite save_db_last. split; [|by rewrite <- Hw1, <- Hw2].
  by rewrite ?Hos.
Qed.

(** The same, when [json.dump] takes the snapshot. *)
Lemma create_order_reupload token data now w os user w1 uid email i existing v
    d w2 :
  holds_orders w os →
  writable w = true →
  verify_token rt token now w = Ok (Some user, w1) →
  user !! "id" = Some uid →
  user !! "email" = Some email →
  find_first (same_upload (get_or data "fileName" (VStr "")) uid) os
  = Some (i, existing) →
  version_of existing = Some v →
  load_db rt recursion_limit now w1 = Ok (d, w2) →
  dumps rt now
    (set_orders
       (<[i := reuploaded rt existing (get_or data "data" (VList [])) now v]> os)
       d) →
  ∃ w',
    create_order rt token data now w
    = Ok (OrderReuploaded
            (reuploaded rt existing (get_or data "data" (VList [])) now v), w')
    ∧ holds_orders w'
        (<[i := reuploaded rt existing (get_or data "data" (VList [])) now v]> os)
    ∧ writable w' = true.
Proof.
  intros Hh Hw Hv Hid Hemail Hfind Hver Hload Hd.
  destruct (create_order_reupload_eq token data now w os user w1 uid email i
              existing v d w2) as [-> Hwr]; try done.
  eexists. split; [done|].
  destruct (save_db_ok rt (serialises rt) now
              (set_orders
                 (<[i := reuploaded rt existing (get_or data "data" (VList []))
                          now v]> os) d)
              (in_place
                 (λ x : db,
                    set_orders
                      (<[i := reuploaded rt existing
                               (get_or data "data" (VList [])) now v]>
                         (orders x)) x)
                 (next_uuid w2))) as (Hh4 & Hw4 & _); [by rewrite Hwr|done|].
  by split.
Qed.

Lemma create_order_crash token data now w os user w1 uid email i existing :
  holds_orders w os →
  verify_token rt token now w = Ok (Some user, w1) →
  user !! "id" = Some uid →
  user !! "email" = Some email →
  find_first (same_upload (get_or data "fileName" (VStr "")) uid) os
  = Some (i, existing) →
  version_of existing = None →
  create_order rt token data now w = Raise.
Proof.
  intros Hh Hv Hid Hemail Hfind Hver.
  destruct (handler_entry rt token now w os _ w1 Hh Hv) as (Hh1 & Hw1 & Hu1).
  unfold create_order. rewrite Hv. simpl. unfold item. rewrite Hid, Hemail. simpl.
  assert (Hh2 : holds_orders (next_uuid w1) os) by done.
  destruct (load_db_holds rt now (next_uuid w1) os Hh2)
    as (d & w3 & -> & Hos & Hh3 & Hc3 & Hw3 & Hu3).
  simpl. rewrite new_order_file_name, new_order_data, Hos, Hfind.
  assert (get_or (<["updatedAt" := VStr (isoformat rt now)]>
            (<["data" := get_or data "data" (VList [])]> existing))
            "syncVersion" (VInt 0) = get_or existing "syncVersion" (VInt 0)) as ->.
  { unfold get_or. by rewrite !lookup_insert_ne. }
  unfold version_of in Hver.
  by destruct (get_or existing "syncVersion" (VInt 0)).
Qed.

(** [create_order] when the caller has no order of that file name: what
    it answers, whatever becomes of the write. *)
Lemma create_order_fresh_eq token data now w os user w1 uid email d w2 :
  holds_orders w os →
  verify_token rt token now w = Ok (Some user, w1) →
  user !! "id" = Some uid →
  user !! "email" = Some email →
  find_first (same_upload (get_or data "fileName" (VStr "")) uid) os = None →
  load_db rt recursion_limit now w1 = Ok (d, w2) →
  let o := new_order rt (uuid4 rt (uuid_count w)) uid email data now in
  let upd := λ x : db, set_orders (orders x ++ [o]) x in
  create_order rt token data now w
  = Ok (OrderCreated o,
        (save_db rt (serialises rt) now (set_orders (os ++ [o]) d)
           (in_place upd (next_uuid w2))).2)
  ∧ writable (in_place upd (next_uuid w2)) = writable w.
Proof.
  intros Hh Hv Hid Hemail Hfind Hload o upd.
  destruct (handler_entry rt token now w os _ w1 Hh Hv) as (Hh1 & Hw1 & Hu1).
  destruct (load_db_holds_eq rt now w1 os d w2 Hh1 Hload)
    as (Hos & Hh2 & Hc2 & Hw2 & Hu2).
  unfold create_order. rewrite Hv. simpl. unfold item. rewrite Hid, Hemail. simpl.
  rewrite (load_db_next_uuid rt now w1 os d w2 Hh1 Hload).
  simpl. rewrite new_order_file_name, Hos, Hfind, Hu1.
  fold o. rewrite save_db_last. split; [|by rewrite <- Hw1, <- Hw2].
  by rewrite ?Hos.
Qed.

(** The same, when [json.dump] takes the snapshot. *)
Lemma create_order_fresh token data now w os user w1 uid email d w2 :
  holds_orders w os →
  writable w = true →
  verify_token rt token now w = Ok (Some user, w1) →
  user !! "id" = Some uid →
  user !! "email" = Some email →
  find_first (same_upload (get_or data "fileName" (VStr "")) uid) os = None →
  load_db rt recursion_limit now w1 = Ok (d, w2) →
  dumps rt now
    (set_orders
       (os ++ [new_order rt (uuid4 rt (uuid_count w)) uid email data now]) d) →
  ∃ w',
    create_order rt token data now w
    = Ok (OrderCreated
            (new_order rt (uuid4 rt (uuid_count w)) uid email data now), w')
    ∧ holds_orders w'
        (os ++ [new_order rt (uuid4 rt (uuid_count w)) uid email data now])
    ∧ writable w' = true.
Proof.
  intros Hh Hw Hv Hid Hemail Hfind Hload Hd.
  destruct (create_order_fresh_eq token data now w os user w1 uid email d w2)
    as [-> Hwr]; try done.
  eexists. split; [done|].
  destruct (save_db_ok rt (serialises rt) now
              (set_orders
                 (os ++ [new_order rt (uuid4 rt (uuid_count w)) uid email data
                           now]) d)
              (in_place
                 (λ x : db,
                    set_orders
                      (orders x
                       ++ [new_order rt (uuid4 rt (uuid_count w)) uid email
                             data now]) x)
                 (next_uuid w2))) as (Hh4 & Hw4 & _); [by rewrite Hwr|done|].
  by split.
Qed.

Lemma find_order_hit order_id os i o :
  find_order order_id os = Ok (Some (i, o)) →
  os !! i = Some o ∧ o !! "id" = Some (VStr order_id).
Proof.
  revert i. induction os as [|x os IH]; intros i; simpl; [done|].
  unfold item. destruct (x !! "id") as [v|] eqn:Hid; simpl; [|done].
  destruct (py_eq v (VStr order_id)) eqn:Heq.
  - intros [= <- <-]. split; [done|]. rewrite Hid. f_equal.
    destruct v; simpl in Heq; try done. by apply String.eqb_eq in Heq as ->.
  - destruct (find_order order_id os) as [[[j y]|]|]; simpl; [|done..].
    intros [= <- <-]. by apply IH.
Qed.

(** [update_order] by the owner or an admin: what it answers, whatever
    becomes of the write. *)
Lemma update_order_allowed_eq token order_id data now w os user w1 i o v d w2 :
  holds_orders w os →
  verify_token rt token now w = Ok (Some user, w1) →
  find_order order_id os = Ok (Some (i, o)) →
  (is_admin user = true
   ∨ ∃ uid, user !! "id" = Some uid ∧ owned_by uid o = true) →
  version_of (dict_update o data) = Some v →
  load_db rt recursion_limit now w1 = Ok (d, w2) →
  let o3 := patched rt o data now v in
  let upd := λ x : db, set_orders (<[i := o3]> (orders x)) x in
  update_order rt token order_id data now w
  = Ok (OrderUpdated o3,
        (save_db rt (serialises rt) now (set_orders (<[i := o3]> os) d)
           (in_place upd w2)).2)
  ∧ writable (in_place upd w2) = writable w.
Proof.
  intros Hh Hv Hfind Hallow Hver Hload o3 upd.
  destruct (handler_entry rt token now w os _ w1 Hh Hv) as (Hh1 & Hw1 & Hu1).
  destruct (load_db_holds_eq rt now w1 os d w2 Hh1 Hload)
    as (Hos & Hh2 & Hc2 & Hw2 & Hu2).
  unfold update_order. rewrite Hv. simpl. rewrite Hload.
  simpl. rewrite Hos, Hfind. simpl.
  assert ((if truthy (get user "isAdmin") then Ok false
           else let! uid := item user "id" in Ok (negb (owned_by uid o)))
          = Ok false) as ->.
  { destruct Hallow as [Ha|(uid & Hid & Hown)].
    - unfold is_admin in Ha. by rewrite Ha.
    - destruct (truthy (get user "isAdmin")); [done|].
      unfold item. rewrite Hid. simpl. by rewrite Hown. }
  simpl.
  assert (version_of (<["updatedAt" := VStr (isoformat rt now)]>
            (dict_update o data)) = Some v) as Hver2.
  { by rewrite version_of_insert_ne. }
  rewrite (plus_one_version _ v Hver2). simpl.
  fold (patched rt o data now v). fold o3.
  rewrite save_db_last. split; [|by rewrite <- Hw1, <- Hw2].
  by rewrite ?Hos.
Qed.

(** The same, when [json.dump] takes the snapshot. *)
Lemma update_order_allowed token order_id data now w os user w1 i o v d w2 :
  holds_orders w os →
  writable w = true →
  verify_token rt token now w = Ok (Some user, w1) →
  find_order order_id os = Ok (Some (i, o)) →
  (is_admin user = true
   ∨ ∃ uid, user !! "id" = Some uid ∧ owned_by uid o = true) →
  version_of (dict_update o data) = Some v →
  load_db rt recursion_limit now w1 = Ok (d, w2) →
  dumps rt now (set_orders (<[i := patched rt o data now v]> os) d) →
  ∃ w',
    update_order rt token order_id data now w
    = Ok (OrderUpdated (patched rt o data now v), w')
    ∧ holds_orders w' (<[i := patched rt o data now v]> os)
    ∧ writable w' = true.
Proof.
  intros Hh Hw Hv Hfind Hallow Hver Hload Hd.
  destruct (update_order_allowed_eq token order_id data now w os user w1 i o v
              d w2) as [-> Hwr]; try done.
  eexists. split; [done|].
  destruct (save_db_ok rt (serialises rt) now
              (set_orders (<[i := patched rt o data now v]> os) d)
              (in_place
                 (λ x : db,
                    set_orders (<[i := patched rt o data now v]> (orders x)) x)
                 w2)) as (Hh4 & Hw4 & _); [by rewrite Hwr|done|].
  by split.
Qed.

End OrderFacts.

Section Versions.

Variable rt : runtime.

Lemma map_find_set_eq m k o : map_find (map_set m k o) k = Some o.
Proof.
  induction m as [|[k' o'] m IH]; simpl.
  - by rewrite py_eq_refl.
  - destruct (py_eq k' k) eqn:Heq; simpl; by rewrite Heq.
Qed.

Lemma py_gt_versions a b va vb :
  version_of a = Some va → version_of b = Some vb →
  py_gt (get_or a "syncVersion" (VInt 0)) (get_or b "syncVersion" (VInt 0))
  = Ok (vb <? va)%Z.
Proof.
  unfold version_of.
  destruct (get_or a "syncVersion" (VInt 0)) as [|x|x|?|?]; try done;
    destruct (get_or b "syncVersion" (VInt 0)) as [|y|y|?|?]; try done;
    by intros [= <-] [= <-].
Qed.

Lemma version_of_update_keep o data :
  data !! "syncVersion" = None → version_of (dict_update o data) = version_of o.
Proof.
  intros Hnone. unfold version_of, get_or, dict_update.
  by rewrite lookup_union_r.
Qed.

Lemma version_of_update_patch o data :
  is_Some (data !! "syncVersion") →
  version_of (dict_update o data) = version_of data.
Proof.
  intros [x Hx]. unfold version_of, get_or, dict_update.
  by rewrite (lookup_union_Some_l _ _ _ _ Hx), Hx.
Qed.

Lemma version_of_patched o data now v : version_of (patched rt o data now v) = Some (v + 1).
Proof. apply version_of_insert. Qed.

Lemma version_of_reuploaded o payload now v :
  version_of (reuploaded rt o payload now v) = Some (v + 1).
Proof. apply version_of_insert. Qed.

End Versions.

Section Reupload.

Variable rt : runtime.

Lemma find_first_app_new {A} (p : A → bool) (l : list A) x :
  find_first p l = None → p x = true →
  find_first p (l ++ [x]) = Some (length l, x).
Proof.
  intros Hnone Hx. induction l as [|y l IH]; simpl in *; [by rewrite Hx|].
  destruct (p y); [done|].
  destruct (find_first p l) as [[j z]|]; [done|]. by rewrite IH.
Qed.

Lemma find_first_insert {A} (p : A → bool) (l : list A) i x y :
  find_first p l = Some (i, x) → p y = true →
  find_first p (<[i := y]> l) = Some (i, y).
Proof.
  revert i. induction l as [|z l IH]; intros i; simpl; [done|].
  destruct (p z) eqn:Hz.
  - intros [= <- <-] Hy. simpl. by rewrite Hy.
  - destruct (find_first p l) as [[j t]|] eqn:Hf; [|done].
    intros [= <- <-] Hy. simpl. by rewrite Hz, (IH j).
Qed.

Lemma uploads_insert fname uid os i x y :
  os !! i = Some x →
  same_upload fname uid y = same_upload fname uid x →
  uploads fname uid (<[i := y]> os) = uploads fname uid os.
Proof. apply (filter_insert_same (same_upload fname uid)). Qed.

Lemma uploads_hit fname uid os i x :
  os !! i = Some x → same_upload fname uid x = true →
  (1 ≤ uploads fname uid os)%nat.
Proof.
  intros Hi Hx. unfold uploads.
  assert (x ∈ filter (λ o, same_upload fname uid o = true) os) as Hin.
  { apply list_elem_of_filter. split; [done|]. by eapply list_elem_of_lookup_2. }
  destruct (filter _ os); [by apply not_elem_of_nil in Hin|]. simpl. lia.
Qed.

Lemma same_upload_new id uid email data now :
  same_upload (get_or data "fileName" (VStr "")) uid
    (new_order rt id uid email data now) = true.
Proof.
  unfold same_upload.
  by rewrite new_order_file_name, new_order_owner, !py_eq_refl.
Qed.

(** C7 (amended): when the store holds at most one order of that file name
    for the user, and [json.dump] takes what the two calls write, two
    uploads of the name leave exactly one; the second call finds the order
    the first one left, replaces its data, refreshes [updatedAt], adds one
    to its version where it stands, and answers with an update. *)
Theorem create_twice_one_order token1 token2 data1 data2 now1 now2 w os
    user1 w1 user2 wb uid email1 email2 fname r1 wa d1 w1' d2 wb' :
  holds_orders w os →
  writable w = true →
  (uploads fname uid os ≤ 1)%nat →
  get_or data1 "fileName" (VStr "") = fname →
  get_or data2 "fileName" (VStr "") = fname →
  verify_token rt token1 now1 w = Ok (Some user1, w1) →
  user1 !! "id" = Some uid →
  user1 !! "email" = Some email1 →
  load_db rt recursion_limit now1 w1 = Ok (d1, w1') →
  create_order rt token1 data1 now1 w = Ok (r1, wa) →
  dumps rt now1 (set_orders (after_upload fname uid os r1) d1) →
  verify_token rt token2 now2 wa = Ok (Some user2, wb) →
  user2 !! "id" = Some uid →
  user2 !! "email" = Some email2 →
  load_db rt recursion_limit now2 wb = Ok (d2, wb') →
  second_upload_dumps rt fname uid os r1 (get_or data2 "data" (VList [])) now2
    d2 →
  ∃ i o1 v1 o2 wc,
    (r1 = OrderCreated o1 ∨ r1 = OrderReuploaded o1)
    ∧ persisted_orders wa !! i = Some o1
    ∧ version_of o1 = Some v1
    ∧ create_order rt token2 data2 now2 wa = Ok (OrderReuploaded o2, wc)
    ∧ o2 = reuploaded rt o1 (get_or data2 "data" (VList [])) now2 v1
    ∧ o2 !! "data" = Some (get_or data2 "data" (VList []))
    ∧ o2 !! "updatedAt" = Some (VStr (isoformat rt now2))
    ∧ version_of o2 = Some (v1 + 1)
    ∧ persisted_orders wc = <[i := o2]> (persisted_orders wa)
    ∧ uploads fname uid (persisted_orders wc) = 1%nat.
Proof.
  intros Hh Hw Hmost Hf1 Hf2 Hv1 Hid1 Hem1 Hl1 Hcall1 Hd1 Hv2 Hid2 Hem2 Hl2 Hd2.
  assert (Hsecond : ∀ os' i o1 v1,
    holds_orders wa os' → writable wa = true →
    find_first (same_upload fname uid) os' = Some (i, o1) →
    version_of o1 = Some v1 →
    uploads fname uid os' = 1%nat →
    dumps rt now2
      (set_orders
         (<[i := reuploaded rt o1 (get_or data2 "data" (VList [])) now2 v1]> os')
         d2) →
    ∃ o2 wc,
      persisted_orders wa !! i = Some o1
      ∧ version_of o1 = Some v1
      ∧ create_order rt token2 data2 now2 wa = Ok (OrderReuploaded o2, wc)
      ∧ o2 = reuploaded rt o1 (get_or data2 "data" (VList [])) now2 v1
      ∧ o2 !! "data" = Some (get_or data2 "data" (VList []))
      ∧ o2 !! "updatedAt" = Some (VStr (isoformat rt now2))
      ∧ version_of o2 = Some (v1 + 1)
      ∧ persisted_orders wc = <[i := o2]> (persisted_orders wa)
      ∧ uploads fname uid (persisted_orders wc) = 1%nat).
  { intros os' i o1 v1 Hha Hwa Hfind Hver Hone Hdump.
    destruct (find_first_hit _ _ _ _ Hfind) as [Hi Hp].
    destruct (create_order_reupload rt token2 data2 now2 wa os' user2 wb uid
                email2 i o1 v1 d2 wb') as (wc & Hc2 & Hhc & _);
      rewrite ?Hf2; try done.
    eexists _, wc.
    rewrite (holds_orders_persisted _ _ Hha), (holds_orders_persisted _ _ Hhc).
    split; [done|]. split; [done|]. split; [exact Hc2|]. split; [done|].
    split; [unfold reuploaded; by rewrite !lookup_insert_ne, lookup_insert_eq by done|].
    split; [unfold reuploaded; by rewrite !lookup_insert_ne, lookup_insert_eq by done|].
    split; [apply version_of_reuploaded|]. split; [done|].
    rewrite (uploads_insert fname uid os' i o1); [done..|].
    apply same_upload_reuploaded. }
  destruct (find_first (same_upload fname uid) os) as [[i existing]|] eqn:Hfind.
  - destruct (find_first_hit _ _ _ _ Hfind) as [Hi Hp].
    destruct (version_of existing) as [v|] eqn:Hver.
    + destruct (create_order_reupload_eq rt token1 data1 now1 w os user1 w1 uid
                  email1 i existing v d1 w1') as [Hc Hwr];
        rewrite ?Hf1; try done.
      rewrite Hc in Hcall1. injection Hcall1 as <- <-.
      set (o1 := reuploaded rt existing (get_or data1 "data" (VList [])) now1 v) in *.
      assert (Hafter : after_upload fname uid os (OrderReuploaded o1)
                       = <[i := o1]> os) by (simpl; by rewrite Hfind).
      rewrite Hafter in Hd1.
      match type of Hv2 with
      | context [save_db ?r ?t ?n ?x ?y] =>
          destruct (save_db_ok r t n x y) as (Hha & Hwa & _);
            [by rewrite Hwr|done|]
      end.
      assert (Hfind1 : find_first (same_upload fname uid) (<[i := o1]> os)
                       = Some (i, o1)).
      { apply (find_first_insert _ _ _ existing); [done|].
        unfold o1. by rewrite same_upload_reuploaded. }
      destruct (Hsecond (<[i := o1]> os) i o1 (v + 1)) as (o2 & wc & Hrest);
        [done|done|done|apply version_of_reuploaded| |..].
      * rewrite (uploads_insert fname uid os i existing); [|done|].
        -- pose proof (uploads_hit fname uid os i existing Hi Hp). lia.
        -- apply same_upload_reuploaded.
      * assert (Hvo : version_of o1 = Some (v + 1))
          by apply version_of_reuploaded.
        unfold second_upload_dumps in Hd2. rewrite Hvo, Hafter in Hd2.
        simpl in Hd2. by rewrite Hfind1 in Hd2.
      * exists i, o1, (v + 1), o2, wc. split; [by right|]. exact Hrest.
    + rewrite (create_order_crash rt token1 data1 now1 w os user1 w1 uid email1
                 i existing) in Hcall1; rewrite ?Hf1; done.
  - destruct (create_order_fresh_eq rt token1 data1 now1 w os user1 w1 uid
                email1 d1 w1') as [Hc Hwr]; rewrite ?Hf1; try done.
    rewrite Hc in Hcall1. injection Hcall1 as <- <-.
    set (o1 := new_order rt (uuid4 rt (uuid_count w)) uid email1 data1 now1) in *.
    change (after_upload fname uid os (OrderCreated o1)) with (os ++ [o1])
      in Hd1.
    match type of Hv2 with
    | context [save_db ?r ?t ?n ?x ?y] =>
        destruct (save_db_ok r t n x y) as (Hha & Hwa & _);
          [by rewrite Hwr|done|]
    end.
    assert (Hp : same_upload fname uid o1 = true).
    { rewrite <- Hf1. apply same_upload_new. }
    assert (Hfind1 : find_first (same_upload fname uid) (os ++ [o1])
                     = Some (length os, o1)) by by apply find_first_app_new.
    destruct (Hsecond (os ++ [o1]) (length os) o1 1) as (o2 & wc & Hrest);
      [done|done|done|apply new_order_version| |..].
    + unfold uploads. rewrite filter_app, (find_first_none _ _ Hfind).
      rewrite filter_cons, decide_True by done. done.
    + assert (Hvo : version_of o1 = Some 1) by apply new_order_version.
      unfold second_upload_dumps in Hd2. rewrite Hvo in Hd2.
      simpl in Hd2. by rewrite Hfind1 in Hd2.
    + exists (length os), o1, 1, o2, wc. split; [by left|]. exact Hrest.
Qed.

End Reupload.

Lemma create_twice_one_order_witness :
  ∃ i o1 v1 o2 wc,
    (Sample.r0_uploaded = OrderCreated o1
     ∨ Sample.r0_uploaded = OrderReuploaded o1)
    ∧ persisted_orders Sample.w0_uploaded !! i = Some o1
    ∧ version_of o1 = Some v1
    ∧ create_order Sample.rt0 "t1" Sample.upload_a (Sample.now0 + 1)
        Sample.w0_uploaded
      = Ok (OrderReuploaded o2, wc)
    ∧ o2 = reuploaded Sample.rt0 o1 (get_or Sample.upload_a "data" (VList []))
             (Sample.now0 + 1) v1
    ∧ o2 !! "data" = Some (get_or Sample.upload_a "data" (VList []))
    ∧ o2 !! "updatedAt" = Some (VStr (isoformat Sample.rt0 (Sample.now0 + 1)))
    ∧ version_of o2 = Some (v1 + 1)
    ∧ persisted_orders wc = <[i := o2]> (persisted_orders Sample.w0_uploaded)
    ∧ uploads (VStr "flightA") (VStr "u1") (persisted_orders wc) = 1%nat.
Proof.
  apply (create_twice_one_order Sample.rt0 "t1" "t1" Sample.upload_a
              Sample.upload_a Sample.now0 (Sample.now0 + 1) Sample.w0
              (orders Sample.db0) Sample.u1_verified Sample.w0_verified
              Sample.u1_reverified Sample.w0_reverified
              (VStr "u1") (VStr "u1@x") (VStr "u1@x") (VStr "flightA")
              Sample.r0_uploaded Sample.w0_uploaded
              (Sample.snapshot Sample.rt0 Sample.now0 Sample.w0_verified)
              (Sample.reloaded Sample.rt0 Sample.now0 Sample.w0_verified)
              (Sample.snapshot Sample.rt0 (Sample.now0 + 1)
                 Sample.w0_reverified)
              (Sample.reloaded Sample.rt0 (Sample.now0 + 1)
                 Sample.w0_reverified)).
  - split; [by exists Sample.db0|]. intros c. vm_compute. discriminate.
  - reflexivity.
  - vm_compute. lia.
  - vm_compute. reflexivity.
  - vm_compute. reflexivity.
  - vm_compute. reflexivity.
  - vm_compute. reflexivity.
  - vm_compute. reflexivity.
  - vm_compute. reflexivity.
  - vm_compute. reflexivity.
  - vm_compute. reflexivity.
  - vm_compute. reflexivity.
  - vm_compute. reflexivity.
  - vm_compute. reflexivity.
  - vm_compute. reflexivity.
  - vm_compute. reflexivity.
Defined.

(** The turns of the merge loop are studied one at a time. *)
Arguments merge_client : simpl never.

Section SyncFacts.

Variable rt : runtime.

Lemma py_eq_str_l v s : py_eq (VStr s) v = true ↔ v = VStr s.
Proof.
  destruct v; simpl; try (split; [done|by intros [=]]).
  rewrite String.eqb_eq. split; [by intros ->|by intros [= ->]].
Qed.

(** Setting another key leaves the entry of a string key alone. *)
Lemma map_find_set_ne m k o s :
  py_eq k (VStr s) = false →
  map_find (map_set m k o) (VStr s) = map_find m (VStr s).
Proof.
  intros Hne. induction m as [|[k' o'] m IH]; simpl.
  - by rewrite Hne.
  - destruct (py_eq k' k) eqn:Hk; simpl.
    + destruct (py_eq k' (VStr s)) eqn:Hs; [|done].
      apply py_eq_str_r in Hs as ->. apply py_eq_str_l in Hk as ->.
      by rewrite py_eq_refl in Hne.
    + by rewrite IH.
Qed.

Lemma map_find_values m k o : map_find m k = Some o → o ∈ map_values m.
Proof.
  induction m as [|[k' o'] m IH]; simpl; [done|].
  destruct (py_eq k' k).
  - intros [= ->]. by left.
  - intros H. right. by apply IH.
Qed.

Lemma map_values_set (P : dict → Prop) m k o :
  Forall P (map_values m) → P o → Forall P (map_values (map_set m k o)).
Proof.
  intros Hm Ho. induction m as [|[k' o'] m IH]; simpl.
  - by constructor.
  - unfold map_values in *. simpl in *.
    apply Forall_cons in Hm as [Ho' Hm].
    destruct (py_eq k' k); simpl; constructor; auto.
Qed.

Lemma has_id_item oid o k :
  o !! "id" = Some k → has_id oid o = py_eq k (VStr oid).
Proof. intros Hk. unfold has_id, get. by rewrite Hk. Qed.

(** After seeding, a string id leads to the server order that carries it,
    provided one order only does. *)
Lemma seed_find oid o server :
  (∀ o', o' ∈ server → has_id oid o' = true → o' = o) →
  ∀ m m', seed_merge m server = Ok m' →
  map_find m' (VStr oid)
  = if existsb (has_id oid) server then Some o else map_find m (VStr oid).
Proof.
  induction server as [|x server IH]; intros Huniq m m'; simpl.
  - by intros [= <-].
  - unfold item. destruct (x !! "id") as [k|] eqn:Hk; simpl; [|done].
    destruct (hashable k); [|done]. intros Hseed.
    rewrite (IH (λ o' Hin, Huniq o' (list_elem_of_further _ _ _ Hin)) _ _ Hseed).
    rewrite (has_id_item oid x k Hk).
    destruct (existsb (has_id oid) server); [by rewrite orb_true_r|].
    rewrite orb_false_r.
    destruct (py_eq k (VStr oid)) eqn:Hs.
    + apply py_eq_str_r in Hs as ->. rewrite map_find_set_eq. f_equal.
      apply Huniq; [by left|]. rewrite (has_id_item oid x _ Hk).
      apply py_eq_refl.
    + by apply map_find_set_ne.
Qed.

Lemma seed_values (P : dict → Prop) server :
  Forall P server →
  ∀ m m', Forall P (map_values m) → seed_merge m server = Ok m' →
  Forall P (map_values m').
Proof.
  induction 1 as [|x server Hx Hrest IH]; intros m m' Hm; simpl.
  - by intros [= <-].
  - destruct (item x "id") as [k|]; simpl; [|done].
    destruct (hashable k); [|done].
    apply IH. by apply map_values_set.
Qed.

(** A client order that carries another id, or none, leaves the entry of
    [oid] alone, as long as no fresh uuid is [oid]. *)
Lemma merge_client_other oid user m n c m' n' :
  has_id oid c = false ∨ oid = "" →
  uuid4 rt n ≠ oid →
  merge_client rt user (m, n) c = Ok (m', n') →
  map_find m' (VStr oid) = map_find m (VStr oid)
  ∧ (n' = n ∨ n' = S n).
Proof.
  intros Hother Hfresh. unfold merge_client.
  assert (Hnew : py_eq (VStr (uuid4 rt n)) (VStr oid) = false).
  { simpl. by apply String.eqb_neq. }
  destruct (truthy (get c "id")) eqn:Htr; simpl.
  - assert (Hc : py_eq (get c "id") (VStr oid) = false).
    { destruct Hother as [? | ->]; [done|].
      destruct (py_eq (get c "id") (VStr "")) eqn:He; [|done].
      apply py_eq_str_r in He. by rewrite He in Htr. }
    destruct (hashable (get c "id")); [|done].
    destruct (map_find m (get c "id")) as [s|].
    + destruct (py_gt _ _) as [[|]|]; simpl; [| |done]; intros [= <- <-];
        (split; [|by left]); [by apply map_find_set_ne|done].
    + destruct (item user "id") as [uid|]; simpl; [|done].
      destruct (item user "email") as [email|]; simpl; [|done].
      intros [= <- <-]. split; [by apply map_find_set_ne|by left].
  - destruct (item user "id") as [uid|]; simpl; [|done].
    destruct (item user "email") as [email|]; simpl; [|done].
    intros [= <- <-]. split; [by apply map_find_set_ne|by right].
Qed.

Lemma merge_clients_other oid user client :
  Forall (λ c, has_id oid c = false ∨ oid = "") client →
  (∀ j, uuid4 rt j ≠ oid) →
  ∀ m n m' n', merge_clients rt user (m, n) client = Ok (m', n') →
  map_find m' (VStr oid) = map_find m (VStr oid).
Proof.
  intros Hall Hfresh. induction Hall as [|c client Hc Hrest IH];
    intros m n m' n'; simpl.
  - by intros [= <- <-].
  - destruct (merge_client rt user (m, n) c) as [[m1 n1]|] eqn:Hstep;
      simpl; [|done].
    intros Hgo. rewrite (IH _ _ _ _ Hgo).
    by destruct (merge_client_other oid user m n c m1 n1 Hc (Hfresh n) Hstep).
Qed.

Lemma map_set_keys (P : value → Prop) m k o :
  Forall (λ e, P e.1) m → P k → Forall (λ e, P e.1) (map_set m k o).
Proof.
  intros Hm Hk. induction m as [|[k' o'] m IH]; simpl.
  - by constructor.
  - apply Forall_cons in Hm as [Hk' Hm].
    destruct (py_eq k' k); constructor; auto.
Qed.

Lemma map_set_well_keyed m k o :
  get o "id" = k → well_keyed m → well_keyed (map_set m k o).
Proof.
  intros Hid [Hkeyed Hdist]. split.
  - clear Hdist. induction m as [|[k' o'] m IH]; simpl.
    + constructor; [|done]. simpl. rewrite Hid. apply py_eq_refl.
    + apply Forall_cons in Hkeyed as [Hk' Hm].
      destruct (py_eq k' k) eqn:Heq; constructor; auto.
      simpl. by rewrite Hid.
  - clear Hkeyed. induction m as [|[k' o'] m IH]; simpl; [done|].
    destruct Hdist as [Hk' Hm].
    destruct (py_eq k' k) eqn:Heq; simpl; [done|].
    split; [|by apply IH].
    by apply (map_set_keys (λ x, py_eq k' x = false)).
Qed.

Lemma seed_well_keyed server :
  ∀ m m', well_keyed m → seed_merge m server = Ok m' → well_keyed m'.
Proof.
  induction server as [|x server IH]; intros m m' Hm; simpl.
  - by intros [= <-].
  - unfold item. destruct (x !! "id") as [k|] eqn:Hk; simpl; [|done].
    destruct (hashable k); [|done].
    apply IH, map_set_well_keyed; [|done]. unfold get. by rewrite Hk.
Qed.

Lemma merge_client_well_keyed user m n c m' n' :
  well_keyed m → merge_client rt user (m, n) c = Ok (m', n') → well_keyed m'.
Proof.
  intros Hm. unfold merge_client.
  destruct (truthy (get c "id")); simpl.
  - destruct (hashable (get c "id")); [|done].
    destruct (map_find m (get c "id")) as [s|].
    + destruct (py_gt _ _) as [[|]|]; simpl; [| |done]; intros [= <- <-];
        [|done]. by apply map_set_well_keyed.
    + destruct (item user "id") as [uid|]; simpl; [|done].
      destruct (item user "email") as [email|]; simpl; [|done].
      intros [= <- <-]. apply map_set_well_keyed; [|done].
      unfold get. by rewrite !lookup_insert_ne.
  - destruct (item user "id") as [uid|]; simpl; [|done].
    destruct (item user "email") as [email|]; simpl; [|done].
    intros [= <- <-]. apply map_set_well_keyed; [|done].
    unfold get. by rewrite !lookup_insert_ne, lookup_insert_eq by done.
Qed.

Lemma merge_clients_well_keyed user client :
  ∀ m n m' n',
    well_keyed m → merge_clients rt user (m, n) client = Ok (m', n') →
    well_keyed m'.
Proof.
  induction client as [|c client IH]; intros m n m' n' Hm; simpl.
  - by intros [= <- <-].
  - destruct (merge_client rt user (m, n) c) as [[m1 n1]|] eqn:Hstep;
      simpl; [|done].
    apply IH. by eapply merge_client_well_keyed.
Qed.

(** In a well-keyed map the entry of a string id is the one order of the
    map that carries the id. *)
Lemma map_find_only m oid x :
  well_keyed m →
  map_find m (VStr oid) = Some x →
  filter (λ o, has_id oid o = true) (map_values m) = [x].
Proof.
  intros [Hkeyed Hdist]. unfold map_values.
  assert (Hrest : ∀ m' : merge_map,
    Forall (λ e, py_eq e.1 (get e.2 "id") = true) m' →
    Forall (λ e, py_eq e.1 (VStr oid) = false) m' →
    filter (λ o, has_id oid o = true) m'.*2 = []).
  { intros m' Hk Hne. induction m' as [|[k o] m' IH]; [done|].
    apply Forall_cons in Hk as [Hk Hk']. apply Forall_cons in Hne as [Hne Hne'].
    simpl in *. rewrite filter_cons_False; [by apply IH|].
    unfold has_id. intros Hid. apply py_eq_str_r in Hid.
    rewrite Hid in Hk. congruence. }
  induction m as [|[k o] m IH]; simpl; [done|].
  apply Forall_cons in Hkeyed as [Hk Hkeyed]. destruct Hdist as [Hne Hdist].
  simpl in Hk. destruct (py_eq k (VStr oid)) eqn:Heq.
  - intros [= ->]. apply py_eq_str_r in Heq as ->.
    apply py_eq_str_l in Hk.
    rewrite filter_cons_True by (unfold has_id; rewrite Hk; apply py_eq_refl).
    f_equal. apply Hrest; [done|].
    eapply Forall_impl; [exact Hne|]. intros [k' o'] Hk'.
    change (py_eq (VStr oid) k' = false) in Hk'.
    change (py_eq k' (VStr oid) = false).
    destruct (py_eq k' (VStr oid)) eqn:Hk2; [|done].
    apply py_eq_str_r in Hk2 as ->. by rewrite py_eq_refl in Hk'.
  - intros Hfind. rewrite filter_cons_False; [by apply IH|].
    unfold has_id. intros Hid. apply py_eq_str_r in Hid.
    rewrite Hid in Hk. congruence.
Qed.

Lemma merge_clients_cons user c l st :
  merge_clients rt user st (c :: l)
  = let! st' := merge_client rt user st c in merge_clients rt user st' l.
Proof. done. Qed.

Lemma merge_clients_app user l1 l2 st :
  merge_clients rt user st (l1 ++ l2)
  = let! st1 := merge_clients rt user st l1 in merge_clients rt user st1 l2.
Proof.
  revert st. induction l1 as [|c l1 IH]; intros st; simpl; [done|].
  destruct (merge_client rt user st c); simpl; [apply IH|done].
Qed.

(** The turn of a client order whose id the map knows. *)
Lemma merge_client_known oid user m n c s vs vc :
  oid ≠ "" →
  get c "id" = VStr oid →
  map_find m (VStr oid) = Some s →
  version_of s = Some vs →
  version_of c = Some vc →
  ∃ m', merge_client rt user (m, n) c = Ok (m', n)
        ∧ map_find m' (VStr oid) = Some (if (vs <? vc)%Z then c else s).
Proof.
  intros Hoid Hid Hfind Hvs Hvc. unfold merge_client. rewrite Hid. simpl.
  assert (String.eqb oid "" = false) as -> by by apply String.eqb_neq.
  simpl. rewrite Hfind, (py_gt_versions c s vc vs Hvc Hvs). simpl.
  eexists. split; [done|].
  destruct (vs <? vc)%Z; [apply map_find_set_eq|done].
Qed.

(** The stored orders of other owners all survive the filter, in place. *)
Lemma keep_orders_others user uid m os kept :
  user !! "id" = Some uid →
  keep_orders user m os = Ok kept →
  filter (λ o, owned_by uid o = false) kept
  = filter (λ o, owned_by uid o = false) os.
Proof.
  intros Hid. revert kept. induction os as [|o os IH]; intros kept; simpl.
  - by intros [= <-].
  - unfold item at 1. rewrite Hid. simpl.
    destruct (owned_by uid o) eqn:Hown; simpl.
    + destruct (item o "id") as [k|]; simpl; [|done].
      destruct (hashable k); simpl; [|done].
      destruct (keep_orders user m os) as [rest|]; simpl; [|done].
      rewrite (filter_cons_False _ o) by (by rewrite Hown).
      destruct (negb _); intros [= <-]; [|by apply IH].
      rewrite filter_cons_False by (by rewrite Hown). by apply IH.
    + destruct (keep_orders user m os) as [rest|]; simpl; [|done].
      intros [= <-]. rewrite !filter_cons_True by done. f_equal. by apply IH.
Qed.

(** What an answered sync went through. *)
Lemma sync_data_inv token client now w os user w1 ms w' :
  holds_orders w os →
  verify_token rt token now w = Ok (Some user, w1) →
  sync_data rt token client now w = Ok (SyncDone ms, w') →
  ∃ server seeded merged n kept,
    scoped_orders user os = Ok server
    ∧ seed_merge [] server = Ok seeded
    ∧ merge_clients rt user (seeded, uuid_count w) client = Ok (merged, n)
    ∧ keep_orders user merged os = Ok kept
    ∧ ms = map_values merged
    ∧ (∀ d w2,
         load_db rt recursion_limit now w1 = Ok (d, w2) →
         writable w = true →
         dumps rt now (set_orders (kept ++ map_values merged) d) →
         holds_orders w' (kept ++ map_values merged))
    ∧ merged_orders rt user os client (uuid_count w) = Ok (merged, n)
    ∧ well_keyed merged.
Proof.
  intros Hh Hv.
  destruct (handler_entry rt token now w os _ w1 Hh Hv) as (Hh1 & Hw1 & Hu1).
  unfold sync_data. rewrite Hv. simpl. unfold sync_body.
  destruct (load_db_holds rt now w1 os Hh1)
    as (d & w2 & Hload & Hos & Hh2 & Hc2 & Hw2 & Hu2).
  rewrite Hload. simpl. rewrite Hos, Hu2, Hu1.
  destruct (scoped_orders user os) as [server|] eqn:E1; simpl; [|done].
  destruct (seed_merge [] server) as [seeded|] eqn:E2; simpl; [|done].
  destruct (merge_clients rt user (seeded, uuid_count w) client)
    as [[merged n]|] eqn:E3; simpl; [|done].
  destruct (keep_orders user merged os) as [kept|] eqn:E4; simpl; [|done].
  save_step Hsave w3. intros [= <- <-].
  exists server, seeded, merged, n, kept. split_and!; [done..| | |].
  - intros d' w2' Hload' Hw Hd. injection Hload' as <- <-.
    destruct Hsave as (Hh3 & _); [by rewrite Hw2, Hw1|done|]. apply Hh3.
  - unfold merged_orders. rewrite E1. simpl. by rewrite E2.
  - eapply merge_clients_well_keyed; [|exact E3].
    eapply seed_well_keyed; [|exact E2]. by split.
Qed.

End SyncFacts.

Section SyncClaims.

Variable rt : runtime.

Lemma scoped_orders_own user uid os server :
  user !! "id" = Some uid →
  scoped_orders user os = Ok server →
  (∀ x, x ∈ server → x ∈ os)
  ∧ (∀ x, x ∈ os → owned_by uid x = true → x ∈ server)
  ∧ (is_admin user = true → server = os)
  ∧ (is_admin user = false → server = filter (λ o, owned_by uid o = true) os).
Proof.
  intros Hid. unfold scoped_orders, is_admin.
  destruct (truthy (get user "isAdmin")).
  - intros [= <-]. by split_and!.
  - unfold own_orders, item. rewrite Hid.
    assert (Ok (filter (λ o, owned_by uid o = true) os) = Ok server →
            server = filter (λ o, owned_by uid o = true) os) as Hinj
      by (by intros [= <-]).
    intros Hs. assert (server = filter (λ o, owned_by uid o = true) os) as ->.
    { destruct os; [by injection Hs as <-|by apply Hinj]. }
    split_and!; try done.
    + intros x. rewrite list_elem_of_filter. tauto.
    + intros x Hin Hown. by apply list_elem_of_filter.
Qed.

Lemma existsb_elem {A} (p : A → bool) (l : list A) x :
  x ∈ l → p x = true → existsb p l = true.
Proof.
  intros Hin Hx. apply existsb_exists. exists x.
  split; [by apply list_elem_of_In|done].
Qed.

(** The one stored order that carries an id. *)
Lemma only_order oid (os : list dict) s :
  filter (λ o', has_id oid o' = true) os = [s] →
  s ∈ os ∧ has_id oid s = true
  ∧ ∀ o', o' ∈ os → has_id oid o' = true → o' = s.
Proof.
  intros Honly.
  assert (Hs : s ∈ filter (λ o', has_id oid o' = true) os)
    by (rewrite Honly; by apply list_elem_of_singleton).
  apply list_elem_of_filter in Hs as [Hid Hin]. split_and!; [done..|].
  intros o' Hin' Hid'. apply list_elem_of_singleton. rewrite <- Honly.
  by apply list_elem_of_filter.
Qed.

(** C2 (amended): for a client order that alone in the request carries the
    non-empty id of a server order of the caller, the merge map ends with
    the client order under that id when its version is the greater, and
    with the server order otherwise. *)
Theorem sync_version_dominance token pre c post now w os user w1 uid s oid
    vs vc ms w' :
  holds_orders w os →
  verify_token rt token now w = Ok (Some user, w1) →
  user !! "id" = Some uid →
  filter (λ o', has_id oid o' = true) os = [s] →
  owned_by uid s = true →
  oid ≠ "" →
  get c "id" = VStr oid →
  Forall (λ x, has_id oid x = false) (pre ++ post) →
  (∀ j, uuid4 rt j ≠ oid) →
  version_of s = Some vs →
  version_of c = Some vc →
  sync_data rt token (pre ++ c :: post) now w = Ok (SyncDone ms, w') →
  ∃ merged n,
    merged_orders rt user os (pre ++ c :: post) (uuid_count w) = Ok (merged, n)
    ∧ ms = map_values merged
    ∧ map_find merged (VStr oid) = Some (if (vs <? vc)%Z then c else s)
    ∧ filter (λ o, has_id oid o = true) ms = [if (vs <? vc)%Z then c else s].
Proof.
  intros Hh Hv Hid Honly Hown Hoid Hcid Hothers Hfresh Hvs Hvc Hsync.
  destruct (only_order oid os s Honly) as (Hin & Hsid & Huniq).
  destruct (sync_data_inv rt token _ now w os user w1 ms w' Hh Hv Hsync)
    as (server & seeded & merged & n & kept & Hsc & Hseed & Hmerge & _ & -> & _
        & Hmo & Hwk).
  destruct (scoped_orders_own user uid os server Hid Hsc) as (Hsub & Hsup & _).
  assert (Hseeded : map_find seeded (VStr oid) = Some s).
  { rewrite (seed_find oid s server (λ o' Hin', Huniq o' (Hsub o' Hin')) _ _ Hseed).
    by rewrite (existsb_elem (has_id oid) server s); [|apply Hsup|]. }
  apply Forall_app in Hothers as [Hpre Hpost].
  rewrite merge_clients_app in Hmerge.
  destruct (merge_clients rt user (seeded, uuid_count w) pre)
    as [[m1 n1]|] eqn:Hpre'; simpl in Hmerge; [|done].
  assert (Hm1 : map_find m1 (VStr oid) = Some s).
  { rewrite <- Hseeded.
    apply (merge_clients_other rt oid user pre) with (n := uuid_count w) (n' := n1);
      [|done..].
    eapply Forall_impl; [exact Hpre|]. intros x Hx. by left. }
  destruct (merge_client_known rt oid user m1 n1 c s vs vc Hoid Hcid Hm1 Hvs Hvc)
    as (m2 & Hstep & Hm2).
  rewrite Hstep in Hmerge. simpl in Hmerge.
  assert (Hfinal : map_find merged (VStr oid)
                   = Some (if (vs <? vc)%Z then c else s)).
  { rewrite <- Hm2.
    apply (merge_clients_other rt oid user post) with (n := n1) (n' := n);
      [|done..].
    eapply Forall_impl; [exact Hpost|]. intros x Hx. by left. }
  exists merged, n. split_and!; [done..|]. by apply map_find_only.
Qed.

(** The snapshot a sync writes, when [json.dump] takes what it builds. *)
Lemma sync_dumps_holds token client now w os user w1 w' d w2 kept merged n :
  holds_orders w os →
  writable w = true →
  verify_token rt token now w = Ok (Some user, w1) →
  load_db rt recursion_limit now w1 = Ok (d, w2) →
  sync_dumps rt user d client (uuid_count w) now →
  merged_orders rt user os client (uuid_count w) = Ok (merged, n) →
  keep_orders user merged os = Ok kept →
  (∀ d' w2',
     load_db rt recursion_limit now w1 = Ok (d', w2') →
     writable w = true →
     dumps rt now (set_orders (kept ++ map_values merged) d') →
     holds_orders w' (kept ++ map_values merged)) →
  persisted_orders w' = kept ++ map_values merged.
Proof.
  intros Hh Hw Hv Hload Hd Hmo Hkeep Hp.
  destruct (handler_entry rt token now w os _ w1 Hh Hv) as (Hh1 & _).
  destruct (load_db_holds_eq rt now w1 os d w2 Hh1 Hload) as (Hos & _).
  apply holds_orders_persisted, (Hp d w2); [done..|].
  unfold sync_dumps in Hd. by rewrite Hos, Hmo, Hkeep in Hd.
Qed.

(** C3 (amended): a sync by a non-admin keeps the caller's server order
    that no client order names: it is in the answer, as it was, and, when
    [json.dump] takes the snapshot the sync writes, in the persisted
    collection. *)
Theorem sync_keeps_omitted_order token client now w os user w1 uid o oid ms w'
    d w2 :
  holds_orders w os →
  writable w = true →
  verify_token rt token now w = Ok (Some user, w1) →
  is_admin user = false →
  user !! "id" = Some uid →
  filter (λ o', has_id oid o' = true) os = [o] →
  owned_by uid o = true →
  Forall (λ x, has_id oid x = false) client →
  (∀ j, uuid4 rt j ≠ oid) →
  load_db rt recursion_limit now w1 = Ok (d, w2) →
  sync_dumps rt user d client (uuid_count w) now →
  sync_data rt token client now w = Ok (SyncDone ms, w') →
  filter (λ x, has_id oid x = true) ms = [o] ∧ o ∈ persisted_orders w'.
Proof.
  intros Hh Hw Hv Hadm Hid Honly Hown Homit Hfresh Hload Hd Hsync.
  destruct (only_order oid os o Honly) as (Hin & Hoid & Huniq).
  destruct (sync_data_inv rt token _ now w os user w1 ms w' Hh Hv Hsync)
    as (server & seeded & merged & n & kept & Hsc & Hseed & Hmerge & Hkeep & ->
        & Hp & Hmo & Hwk).
  destruct (scoped_orders_own user uid os server Hid Hsc) as (Hsub & Hsup & _).
  assert (Hseeded : map_find seeded (VStr oid) = Some o).
  { rewrite (seed_find oid o server (λ o' Hin', Huniq o' (Hsub o' Hin')) _ _ Hseed).
    by rewrite (existsb_elem (has_id oid) server o); [|apply Hsup|]. }
  assert (Hfinal : map_find merged (VStr oid) = Some o).
  { rewrite <- Hseeded.
    apply (merge_clients_other rt oid user client) with (n := uuid_count w) (n' := n);
      [|done..].
    eapply Forall_impl; [exact Homit|]. intros x Hx. by left. }
  assert (o ∈ map_values merged) by by apply (map_find_values _ (VStr oid)).
  split; [by apply map_find_only|].
  rewrite (sync_dumps_holds token client now w os user w1 w' d w2 kept merged
             n); try done.
  apply elem_of_app. by right.
Qed.

Lemma owned_by_stamped uid o :
  owned_by uid (<["userId" := uid]> o) = true.
Proof. unfold owned_by, get. rewrite lookup_insert_eq. apply py_eq_refl. Qed.

(** One turn keeps the merge map among the caller's orders, when the
    client order that carries an id names the caller as owner. *)
Lemma merge_client_owned uid user m n c m' n' :
  user !! "id" = Some uid →
  (truthy (get c "id") = true → owned_by uid c = true) →
  Forall (λ o, owned_by uid o = true) (map_values m) →
  merge_client rt user (m, n) c = Ok (m', n') →
  Forall (λ o, owned_by uid o = true) (map_values m').
Proof.
  intros Hid Hc Hm. unfold merge_client, item. rewrite Hid.
  destruct (truthy (get c "id")); simpl.
  - destruct (hashable (get c "id")); [|done].
    destruct (map_find m (get c "id")) as [s|].
    + destruct (py_gt _ _) as [[|]|]; simpl; [| |done]; intros [= <- <-];
        [|done]. apply map_values_set; [done|]. by apply Hc.
    + destruct (user !! "email") as [email|]; simpl; [|done].
      intros [= <- <-]. apply map_values_set; [done|].
      unfold owned_by, get. rewrite lookup_insert_ne by done.
      apply owned_by_stamped.
  - destruct (user !! "email") as [email|]; simpl; [|done].
    intros [= <- <-]. apply map_values_set; [done|].
    unfold owned_by, get. rewrite !lookup_insert_ne by done.
    apply owned_by_stamped.
Qed.

Lemma merge_clients_owned uid user client :
  user !! "id" = Some uid →
  Forall (λ c, truthy (get c "id") = true → owned_by uid c = true) client →
  ∀ m n m' n',
    Forall (λ o, owned_by uid o = true) (map_values m) →
    merge_clients rt user (m, n) client = Ok (m', n') →
    Forall (λ o, owned_by uid o = true) (map_values m').
Proof.
  intros Hid Hall. induction Hall as [|c client Hc Hrest IH];
    intros m n m' n' Hm; simpl.
  - by intros [= <- <-].
  - destruct (merge_client rt user (m, n) c) as [[m1 n1]|] eqn:Hstep;
      simpl; [|done].
    apply IH. by eapply merge_client_owned.
Qed.

Lemma filter_none {A} (P : A → Prop) `{!∀ x, Decision (P x)} (l : list A) :
  Forall (λ x, ¬ P x) l → filter P l = [].
Proof.
  induction 1 as [|x l Hx Hl IH]; [done|].
  by rewrite filter_cons_False.
Qed.

(** C4 (amended): an admin's merge map is seeded from every server order;
    anybody else's from the caller's own orders only, and then, when the
    client orders that carry an id name the caller as owner and
    [json.dump] takes the snapshot the sync writes, the persisted
    collection holds the orders of other owners exactly as before. *)
Theorem sync_leaves_other_owners token client now w os user w1 uid d w2 :
  holds_orders w os →
  writable w = true →
  verify_token rt token now w = Ok (Some user, w1) →
  user !! "id" = Some uid →
  load_db rt recursion_limit now w1 = Ok (d, w2) →
  (is_admin user = true → scoped_orders user os = Ok os)
  ∧ (is_admin user = false →
     scoped_orders user os = Ok (filter (λ o, owned_by uid o = true) os)
     ∧ ∀ ms w',
         Forall (λ c, truthy (get c "id") = true → owned_by uid c = true)
           client →
         sync_dumps rt user d client (uuid_count w) now →
         sync_data rt token client now w = Ok (SyncDone ms, w') →
         filter (λ o, owned_by uid o = false) (persisted_orders w')
         = filter (λ o, owned_by uid o = false) os).
Proof.
  intros Hh Hw Hv Hid Hload. split.
  - intros Hadm. unfold scoped_orders. unfold is_admin in Hadm. by rewrite Hadm.
  - intros Hadm.
    assert (Hsc : scoped_orders user os
                  = Ok (filter (λ o, owned_by uid o = true) os)).
    { unfold scoped_orders. unfold is_admin in Hadm. rewrite Hadm.
      unfold own_orders, item. rewrite Hid. by destruct os. }
    split; [done|]. intros ms w' Hclient Hd Hsync.
    destruct (sync_data_inv rt token _ now w os user w1 ms w' Hh Hv Hsync)
      as (server & seeded & merged & n & kept & Hsc' & Hseed & Hmerge & Hkeep
          & -> & Hp & Hmo & _).
    rewrite Hsc in Hsc'. injection Hsc' as <-.
    assert (Hown : Forall (λ o, owned_by uid o = true) (map_values merged)).
    { assert (Hserv : Forall (λ o, owned_by uid o = true)
                        (filter (λ o, owned_by uid o = true) os)).
      { apply Forall_forall. intros x. rewrite list_elem_of_filter. tauto. }
      eapply (merge_clients_owned uid user client Hid Hclient); [|exact Hmerge].
      exact (seed_values _ _ Hserv [] seeded (Forall_nil_2 _) Hseed). }
    rewrite (sync_dumps_holds token client now w os user w1 w' d w2 kept merged
               n), filter_app; try done.
    rewrite (keep_orders_others user uid merged os kept Hid Hkeep).
    rewrite (filter_none _ (map_values merged)); [by rewrite app_nil_r|].
    eapply Forall_impl; [exact Hown|]. intros x Hx. by rewrite Hx.
Qed.

End SyncClaims.

Section VersionClaims.

Variable rt : runtime.

(** A number is above a numeric version only if it is a number itself. *)
Lemma py_gt_numeric c x vx :
  version_of x = Some vx →
  py_gt (get_or c "syncVersion" (VInt 0)) (get_or x "syncVersion" (VInt 0))
  = Ok true →
  ∃ vc, version_of c = Some vc ∧ vx < vc.
Proof.
  unfold version_of.
  destruct (get_or x "syncVersion" (VInt 0)) as [|b|z|?|?]; try done;
    destruct (get_or c "syncVersion" (VInt 0)) as [|b'|z'|?|?]; simpl; try done;
    intros [= <-] [= Hlt]; eexists; (split; [done|]); by apply Z.ltb_lt.
Qed.

(** One turn of the merge loop leaves the entry of [oid] alone, or puts
    there a client order of that id and of a greater version. *)
Lemma merge_client_entry oid user m n c m' n' x vx :
  uuid4 rt n ≠ oid →
  map_find m (VStr oid) = Some x →
  version_of x = Some vx →
  merge_client rt user (m, n) c = Ok (m', n') →
  map_find m' (VStr oid) = Some x
  ∨ (map_find m' (VStr oid) = Some c
     ∧ ∃ vc, version_of c = Some vc ∧ vx < vc).
Proof.
  intros Hfresh Hm Hvx Hstep.
  destruct (has_id oid c) eqn:Hc.
  - destruct (decide (oid = "")) as [->|Hoid].
    + left. rewrite <- Hm.
      by apply (merge_client_other rt "" user m n c m' n'); [right| |].
    + unfold has_id in Hc. apply py_eq_str_r in Hc.
      unfold merge_client in Hstep. rewrite Hc in Hstep. simpl in Hstep.
      assert (String.eqb oid "" = false) as Hne by by apply String.eqb_neq.
      rewrite Hne, Hm in Hstep. simpl in Hstep.
      destruct (py_gt (get_or c "syncVersion" (VInt 0))
                  (get_or x "syncVersion" (VInt 0))) as [[|]|] eqn:Hgt;
        simpl in Hstep; [| |done]; injection Hstep as <- <-.
      * right. split; [apply map_find_set_eq|].
        by apply (py_gt_numeric c x vx).
      * by left.
  - left. rewrite <- Hm.
    by apply (merge_client_other rt oid user m n c m' n'); [left| |].
Qed.

(** The whole loop: the entry of [oid] ends as it started, or as a client
    order of a greater version. *)
Lemma merge_clients_entry oid user client :
  (∀ j, uuid4 rt j ≠ oid) →
  ∀ m n m' n' x vx,
    map_find m (VStr oid) = Some x →
    version_of x = Some vx →
    merge_clients rt user (m, n) client = Ok (m', n') →
    ∃ x' vx',
      map_find m' (VStr oid) = Some x' ∧ version_of x' = Some vx'
      ∧ (x' = x ∨ (x' ∈ client ∧ vx < vx')).
Proof.
  intros Hfresh. induction client as [|c client IH];
    intros m n m' n' x vx Hm Hvx; simpl.
  - intros [= <- <-]. exists x, vx. split_and!; [done..|by left].
  - destruct (merge_client rt user (m, n) c) as [[m1 n1]|] eqn:Hstep;
      simpl; [|done].
    intros Hgo.
    destruct (merge_client_entry oid user m n c m1 n1 x vx (Hfresh n) Hm Hvx
                Hstep) as [Hm1|(Hm1 & vc & Hvc & Hlt)].
    + destruct (IH m1 n1 m' n' x vx Hm1 Hvx Hgo)
        as (x' & vx' & Hm' & Hvx' & Hcase).
      exists x', vx'. split_and!; [done..|].
      destruct Hcase as [->|[Hin Hlt]]; [by left|].
      right. split; [by right|done].
    + destruct (IH m1 n1 m' n' c vc Hm1 Hvc Hgo)
        as (x' & vx' & Hm' & Hvx' & Hcase).
      exists x', vx'. split_and!; [done..|]. right.
      destruct Hcase as [->|[Hin Hlt']].
      * split; [by left|]. congruence.
      * split; [by right|lia].
Qed.

(** The filter of a sync keeps no order of the caller whose id the merge
    map knows. *)
Lemma keep_orders_drops oid o uid user m os kept :
  user !! "id" = Some uid →
  (∀ o', o' ∈ os → has_id oid o' = true → o' = o) →
  owned_by uid o = true →
  o !! "id" = Some (VStr oid) →
  is_Some (map_find m (VStr oid)) →
  keep_orders user m os = Ok kept →
  filter (λ x, has_id oid x = true) kept = [].
Proof.
  intros Hid Huniq Hown Hoid Hknown. revert kept Huniq.
  induction os as [|x os IH]; intros kept Huniq; simpl.
  - by intros [= <-].
  - unfold item at 1. rewrite Hid. simpl.
    assert (Hrest : ∀ o', o' ∈ os → has_id oid o' = true → o' = o).
    { intros o' Hin. apply Huniq. by right. }
    destruct (has_id oid x) eqn:Hx.
    + assert (x = o) as -> by (apply Huniq; [by left|done]).
      rewrite Hown. simpl. unfold item. rewrite Hoid. simpl.
      rewrite bool_decide_true by done. simpl.
      destruct (keep_orders user m os) as [rest|]; simpl; [|done].
      intros [= <-]. by apply IH.
    + destruct (negb (owned_by uid x)); simpl.
      * destruct (keep_orders user m os) as [rest|]; simpl; [|done].
        intros [= <-]. rewrite filter_cons_False by (by rewrite Hx).
        by apply IH.
      * destruct (item x "id") as [k|]; simpl; [|done].
        destruct (hashable k); simpl; [|done].
        destruct (keep_orders user m os) as [rest|]; simpl; [|done].
        destruct (negb _); intros [= <-]; [|by apply IH].
        rewrite filter_cons_False by (by rewrite Hx). by apply IH.
Qed.

(** C5 (amended): for the one stored order of its id, at version [v], and
    as far as [json.dump] takes what is written: an update by the owner or
    an admin whose patch names no [syncVersion] leaves version [v + 1], and
    so does a re-upload; after a sync by the owner the order under that
    id, in the answer and in the store, is the order as it was or a client
    order of a greater version; an update whose patch names a
    [syncVersion] leaves that one plus one, whatever [v] is. *)
Theorem sync_version_after_mutation token now w os user w1 uid email i o oid v
    d w2 :
  holds_orders w os →
  writable w = true →
  verify_token rt token now w = Ok (Some user, w1) →
  user !! "id" = Some uid →
  user !! "email" = Some email →
  load_db rt recursion_limit now w1 = Ok (d, w2) →
  find_order oid os = Ok (Some (i, o)) →
  filter (λ x, has_id oid x = true) os = [o] →
  version_of o = Some v →
  (∀ data,
     is_admin user = true ∨ owned_by uid o = true →
     data !! "syncVersion" = None →
     dumps rt now (set_orders (<[i := patched rt o data now v]> os) d) →
     ∃ w',
       update_order rt token oid data now w
       = Ok (OrderUpdated (patched rt o data now v), w')
       ∧ holds_orders w' (<[i := patched rt o data now v]> os)
       ∧ version_of (patched rt o data now v) = Some (v + 1))
  ∧ (∀ data pv,
       is_admin user = true ∨ owned_by uid o = true →
       is_Some (data !! "syncVersion") →
       version_of data = Some pv →
       dumps rt now (set_orders (<[i := patched rt o data now pv]> os) d) →
       ∃ w',
         update_order rt token oid data now w
         = Ok (OrderUpdated (patched rt o data now pv), w')
         ∧ holds_orders w' (<[i := patched rt o data now pv]> os)
         ∧ version_of (patched rt o data now pv) = Some (pv + 1))
  ∧ (∀ data,
       find_first (same_upload (get_or data "fileName" (VStr "")) uid) os
       = Some (i, o) →
       dumps rt now
         (set_orders
            (<[i := reuploaded rt o (get_or data "data" (VList [])) now v]> os)
            d) →
       ∃ w',
         create_order rt token data now w
         = Ok (OrderReuploaded
                 (reuploaded rt o (get_or data "data" (VList [])) now v), w')
         ∧ holds_orders w'
             (<[i := reuploaded rt o (get_or data "data" (VList [])) now v]> os)
         ∧ version_of (reuploaded rt o (get_or data "data" (VList [])) now v)
           = Some (v + 1))
  ∧ (∀ client ms w',
       owned_by uid o = true →
       (∀ j, uuid4 rt j ≠ oid) →
       sync_dumps rt user d client (uuid_count w) now →
       sync_data rt token client now w = Ok (SyncDone ms, w') →
       ∃ o' v',
         filter (λ x, has_id oid x = true) ms = [o']
         ∧ filter (λ x, has_id oid x = true) (persisted_orders w') = [o']
         ∧ version_of o' = Some v'
         ∧ (o' = o ∨ (o' ∈ client ∧ v < v'))).
Proof.
  intros Hh Hw Hv Hid Hemail Hload Hfind Honly Hver.
  assert (Hallow : is_admin user = true ∨ owned_by uid o = true →
          is_admin user = true
          ∨ ∃ uid', user !! "id" = Some uid' ∧ owned_by uid' o = true).
  { intros [?|?]; [by left|right; by exists uid]. }
  split_and!.
  - intros data Hal Hnone Hd.
    destruct (update_order_allowed rt token oid data now w os user w1 i o v d w2)
      as (w' & Hupd & Hh' & _); try done; [by apply Hallow| |].
    { by rewrite version_of_update_keep. }
    exists w'. by rewrite version_of_patched.
  - intros data pv Hal Hsome Hpv Hd.
    destruct (update_order_allowed rt token oid data now w os user w1 i o pv d
                w2) as (w' & Hupd & Hh' & _); try done; [by apply Hallow| |].
    { by rewrite version_of_update_patch. }
    exists w'. by rewrite version_of_patched.
  - intros data Hff Hd.
    destruct (create_order_reupload rt token data now w os user w1 uid email i o
                v d w2) as (w' & Hcr & Hh' & _); try done.
    exists w'. by rewrite version_of_reuploaded.
  - intros client ms w' Hown Hfresh Hd Hsync.
    destruct (only_order oid os o Honly) as (Hin & Hoid & Huniq).
    destruct (find_order_hit _ _ _ _ Hfind) as [_ Hoid'].
    destruct (sync_data_inv rt token _ now w os user w1 ms w' Hh Hv Hsync)
      as (server & seeded & merged & n & kept & Hsc & Hseed & Hmerge & Hkeep
          & -> & Hp & Hmo & Hwk).
    destruct (scoped_orders_own user uid os server Hid Hsc) as (Hsub & Hsup & _).
    assert (Hseeded : map_find seeded (VStr oid) = Some o).
    { rewrite (seed_find oid o server (λ o' Hin', Huniq o' (Hsub o' Hin')) _ _
                 Hseed).
      by rewrite (existsb_elem (has_id oid) server o); [|apply Hsup|]. }
    destruct (merge_clients_entry oid user client Hfresh seeded (uuid_count w)
                merged n o v Hseeded Hver Hmerge)
      as (o' & v' & Hfinal & Hv' & Hcase).
    exists o', v'.
    assert (Hans : filter (λ x, has_id oid x = true) (map_values merged) = [o'])
      by by apply map_find_only.
    split_and!; [done| |done|done].
    rewrite (sync_dumps_holds rt token client now w os user w1 w' d w2 kept
               merged n); try done.
    rewrite filter_app, Hans.
    by rewrite (keep_orders_drops oid o uid user merged os kept).
Qed.

End VersionClaims.

Lemma sample_holds : holds_orders Sample.w0 (orders Sample.db0).
Proof. split; [by exists Sample.db0|]. intros c. vm_compute. discriminate. Qed.

Lemma sample_uuid_fresh oid :
  String.length oid = 2%nat → ∀ j, uuid4 Sample.rt0 j ≠ oid.
Proof. intros Hlen j <-. vm_compute in Hlen. discriminate. Qed.

Lemma sync_version_dominance_witness :
  ∃ merged n,
    merged_orders Sample.rt0 Sample.u1_verified (orders Sample.db0)
      ([] ++ Sample.c5 :: [Sample.c9]) (uuid_count Sample.w0)
    = Ok (merged, n)
    ∧ Sample.synced (sync_data Sample.rt0 "t1" ([] ++ Sample.c5 :: [Sample.c9])
                       Sample.now0 Sample.w0)
      = map_values merged
    ∧ map_find merged (VStr "o1")
      = Some (if (2 <? 5)%Z then Sample.c5 else Sample.o1)
    ∧ filter (λ o, has_id "o1" o = true)
        (Sample.synced (sync_data Sample.rt0 "t1" ([] ++ Sample.c5 :: [Sample.c9])
                          Sample.now0 Sample.w0))
      = [if (2 <? 5)%Z then Sample.c5 else Sample.o1].
Proof.
  apply (sync_version_dominance Sample.rt0 "t1" [] Sample.c5 [Sample.c9]
           Sample.now0 Sample.w0 (orders Sample.db0) Sample.u1_verified
           Sample.w0_verified (VStr "u1") Sample.o1 "o1" 2 5 _
           (world_after (sync_data Sample.rt0 "t1" ([] ++ Sample.c5 :: [Sample.c9])
                           Sample.now0 Sample.w0) Sample.w0)).
  - exact sample_holds.
  - vm_compute. reflexivity.
  - vm_compute. reflexivity.
  - vm_compute. reflexivity.
  - vm_compute. reflexivity.
  - discriminate.
  - vm_compute. reflexivity.
  - repeat constructor.
  - by apply sample_uuid_fresh.
  - vm_compute. reflexivity.
  - vm_compute. reflexivity.
  - vm_compute. reflexivity.
Defined.

(** C2, as stated, fails: the request carries two copies of order [o1], at
    versions 5 and 7, the server holds version 2; the first copy is newer
    than the server order, and the merge ends with the second. *)
Lemma sync_duplicate_id_last_wins :
  Sample.o1 ∈ orders Sample.db0
  ∧ owned_by (VStr "u1") Sample.o1 = true
  ∧ Sample.c5 ∈ [Sample.c5; Sample.c7]
  ∧ get Sample.c5 "id" = get Sample.o1 "id"
  ∧ version_of Sample.o1 = Some 2
  ∧ version_of Sample.c5 = Some 5
  ∧ answer_of (sync_data Sample.rt0 "t1" [Sample.c5; Sample.c7]
                 Sample.now0 Sample.w0)
    = Some (SyncDone [Sample.c7])
  ∧ Sample.c7 ≠ Sample.c5.
Proof.
  split_and!.
  - apply (list_elem_of_lookup_2 _ 0%nat). reflexivity.
  - vm_compute. reflexivity.
  - by left.
  - vm_compute. reflexivity.
  - vm_compute. reflexivity.
  - vm_compute. reflexivity.
  - vm_compute. reflexivity.
  - intros H. apply (f_equal version_of) in H. vm_compute in H. discriminate.
Qed.

Lemma sync_keeps_omitted_order_witness :
  filter (λ x, has_id "o1" x = true)
    (Sample.synced (sync_data Sample.rt0 "t1" [Sample.c9] Sample.now0 Sample.w0))
  = [Sample.o1]
  ∧ Sample.o1 ∈ persisted_orders
                  (world_after (sync_data Sample.rt0 "t1" [Sample.c9]
                                  Sample.now0 Sample.w0) Sample.w0).
Proof.
  apply (sync_keeps_omitted_order Sample.rt0 "t1" [Sample.c9] Sample.now0
           Sample.w0 (orders Sample.db0) Sample.u1_verified Sample.w0_verified
           (VStr "u1") Sample.o1 "o1"
           (Sample.synced (sync_data Sample.rt0 "t1" [Sample.c9] Sample.now0
                             Sample.w0))
           (world_after (sync_data Sample.rt0 "t1" [Sample.c9] Sample.now0
                           Sample.w0) Sample.w0)
           (Sample.snapshot Sample.rt0 Sample.now0 Sample.w0_verified)
           (Sample.reloaded Sample.rt0 Sample.now0 Sample.w0_verified)).
  - exact sample_holds.
  - reflexivity.
  - vm_compute. reflexivity.
  - vm_compute. reflexivity.
  - vm_compute. reflexivity.
  - vm_compute. reflexivity.
  - vm_compute. reflexivity.
  - repeat constructor.
  - by apply sample_uuid_fresh.
  - vm_compute. reflexivity.
  - vm_compute. reflexivity.
  - vm_compute. reflexivity.
Defined.

(** C3, as stated, fails: user [u1] syncs an empty list, so the request
    names none of the server orders, and order [o1] is persisted still. *)
Lemma sync_omitted_order_survives :
  Sample.o1 ∈ orders Sample.db0
  ∧ owned_by (VStr "u1") Sample.o1 = true
  ∧ is_admin Sample.u1_verified = false
  ∧ answer_of (sync_data Sample.rt0 "t1" [] Sample.now0 Sample.w0)
    = Some (SyncDone [Sample.o1])
  ∧ persisted_orders
      (world_after (sync_data Sample.rt0 "t1" [] Sample.now0 Sample.w0) Sample.w0)
    = [Sample.o2; Sample.o1].
Proof.
  split_and!.
  - apply (list_elem_of_lookup_2 _ 0%nat). reflexivity.
  - vm_compute. reflexivity.
  - vm_compute. reflexivity.
  - vm_compute. reflexivity.
  - vm_compute. reflexivity.
Qed.

Lemma sync_leaves_other_owners_witness :
  scoped_orders Sample.u1_verified (orders Sample.db0)
  = Ok (filter (λ o, owned_by (VStr "u1") o = true) (orders Sample.db0))
  ∧ filter (λ o, owned_by (VStr "u1") o = false)
      (persisted_orders
         (world_after (sync_data Sample.rt0 "t1" [Sample.c5; Sample.c9]
                         Sample.now0 Sample.w0) Sample.w0))
    = filter (λ o, owned_by (VStr "u1") o = false) (orders Sample.db0).
Proof.
  destruct (sync_leaves_other_owners Sample.rt0 "t1" [Sample.c5; Sample.c9]
              Sample.now0 Sample.w0 (orders Sample.db0) Sample.u1_verified
              Sample.w0_verified (VStr "u1")
              (Sample.snapshot Sample.rt0 Sample.now0 Sample.w0_verified)
              (Sample.reloaded Sample.rt0 Sample.now0 Sample.w0_verified))
    as [_ Hrest].
  - exact sample_holds.
  - reflexivity.
  - vm_compute. reflexivity.
  - vm_compute. reflexivity.
  - vm_compute. reflexivity.
  - destruct Hrest as [Hscope Hkeep]; [vm_compute; reflexivity|].
    split; [exact Hscope|].
    apply (Hkeep (Sample.synced (sync_data Sample.rt0 "t1"
                                   [Sample.c5; Sample.c9] Sample.now0
                                   Sample.w0))).
    + repeat constructor.
    + vm_compute. reflexivity.
    + vm_compute. reflexivity.
Defined.

(** C4, as stated, fails: the admin syncs an empty list; the merge map is
    seeded with the orders of [u1] and [u2], none of which the filter
    removes, and both are persisted twice. *)
Lemma admin_sync_duplicates_orders :
  is_admin Sample.admin = true
  ∧ owned_by (VStr "a0") Sample.o1 = false
  ∧ owned_by (VStr "a0") Sample.o2 = false
  ∧ persisted_orders Sample.w0 = [Sample.o1; Sample.o2]
  ∧ answer_of (sync_data Sample.rt0 "ta" [] Sample.now0 Sample.w0)
    = Some (SyncDone [Sample.o1; Sample.o2])
  ∧ persisted_orders
      (world_after (sync_data Sample.rt0 "ta" [] Sample.now0 Sample.w0) Sample.w0)
    = [Sample.o1; Sample.o2; Sample.o1; Sample.o2].
Proof. split_and!; vm_compute; reflexivity. Qed.

(** C7, as stated, fails: user [u1] holds two orders of file ["flightA"];
    both uploads of that name update the first, and two orders of the name
    remain. *)
Lemma create_twice_keeps_twins :
  uploads (VStr "flightA") (VStr "u1") (orders Sample.db_twins) = 2%nat
  ∧ answer_of (create_order Sample.rt0 "t1" Sample.upload_a Sample.now0
                 Sample.w_twins)
    = Some (OrderReuploaded
              (reuploaded Sample.rt0 (Sample.order "o1" "u1" "flightA" 1)
                 (get Sample.upload_a "data") Sample.now0 1))
  ∧ answer_of (create_order Sample.rt0 "t1" Sample.upload_a (Sample.now0 + 1)
                 (world_after (create_order Sample.rt0 "t1" Sample.upload_a
                                 Sample.now0 Sample.w_twins) Sample.w_twins))
    = Some (OrderReuploaded
              (reuploaded Sample.rt0
                 (reuploaded Sample.rt0 (Sample.order "o1" "u1" "flightA" 1)
                    (get Sample.upload_a "data") Sample.now0 1)
                 (get Sample.upload_a "data") (Sample.now0 + 1) 2))
  ∧ uploads (VStr "flightA") (VStr "u1")
      (persisted_orders
         (world_after
            (create_order Sample.rt0 "t1" Sample.upload_a (Sample.now0 + 1)
               (world_after (create_order Sample.rt0 "t1" Sample.upload_a
                               Sample.now0 Sample.w_twins) Sample.w_twins))
            Sample.w_twins))
    = 2%nat.
Proof. split_and!; vm_compute; reflexivity. Qed.

Lemma sync_version_after_mutation_witness :
  (∃ w',
     update_order Sample.rt0 "t1" "o1" Sample.note_patch Sample.now0 Sample.w0
     = Ok (OrderUpdated
             (patched Sample.rt0 Sample.o1 Sample.note_patch Sample.now0 2), w')
     ∧ holds_orders w'
         (<[0%nat := patched Sample.rt0 Sample.o1 Sample.note_patch
                       Sample.now0 2]> (orders Sample.db0))
     ∧ version_of (patched Sample.rt0 Sample.o1 Sample.note_patch
                     Sample.now0 2) = Some (2 + 1))
  ∧ (∃ w',
       update_order Sample.rt0 "t1" "o1" Sample.stale_patch Sample.now0
         Sample.w0
       = Ok (OrderUpdated
               (patched Sample.rt0 Sample.o1 Sample.stale_patch Sample.now0 0),
             w')
       ∧ holds_orders w'
           (<[0%nat := patched Sample.rt0 Sample.o1 Sample.stale_patch
                         Sample.now0 0]> (orders Sample.db0))
       ∧ version_of (patched Sample.rt0 Sample.o1 Sample.stale_patch
                       Sample.now0 0) = Some (0 + 1))
  ∧ (∃ w',
       create_order Sample.rt0 "t1" Sample.upload_a Sample.now0 Sample.w0
       = Ok (OrderReuploaded
               (reuploaded Sample.rt0 Sample.o1
                  (get_or Sample.upload_a "data" (VList [])) Sample.now0 2), w')
       ∧ holds_orders w'
           (<[0%nat := reuploaded Sample.rt0 Sample.o1
                         (get_or Sample.upload_a "data" (VList []))
                         Sample.now0 2]> (orders Sample.db0))
       ∧ version_of (reuploaded Sample.rt0 Sample.o1
                       (get_or Sample.upload_a "data" (VList []))
                       Sample.now0 2) = Some (2 + 1))
  ∧ (∃ o' v',
       filter (λ x, has_id "o1" x = true)
         (Sample.synced (sync_data Sample.rt0 "t1" [Sample.c5; Sample.c7]
                           Sample.now0 Sample.w0)) = [o']
       ∧ filter (λ x, has_id "o1" x = true)
           (persisted_orders
              (world_after (sync_data Sample.rt0 "t1" [Sample.c5; Sample.c7]
                              Sample.now0 Sample.w0) Sample.w0)) = [o']
       ∧ version_of o' = Some v'
       ∧ (o' = Sample.o1 ∨ (o' ∈ [Sample.c5; Sample.c7] ∧ 2 < v'))).
Proof.
  destruct (sync_version_after_mutation Sample.rt0 "t1" Sample.now0 Sample.w0
              (orders Sample.db0) Sample.u1_verified Sample.w0_verified
              (VStr "u1") (VStr "u1@x") 0%nat Sample.o1 "o1" 2
              (Sample.snapshot Sample.rt0 Sample.now0 Sample.w0_verified)
              (Sample.reloaded Sample.rt0 Sample.now0 Sample.w0_verified))
    as (Hkeep & Hpatch & Hupload & Hsync).
  - exact sample_holds.
  - reflexivity.
  - vm_compute. reflexivity.
  - vm_compute. reflexivity.
  - vm_compute. reflexivity.
  - vm_compute. reflexivity.
  - vm_compute. reflexivity.
  - vm_compute. reflexivity.
  - vm_compute. reflexivity.
  - split_and!.
    + apply (Hkeep Sample.note_patch).
      * right. vm_compute. reflexivity.
      * vm_compute. reflexivity.
      * vm_compute. reflexivity.
    + apply (Hpatch Sample.stale_patch 0).
      * right. vm_compute. reflexivity.
      * vm_compute. by eexists.
      * vm_compute. reflexivity.
      * vm_compute. reflexivity.
    + apply (Hupload Sample.upload_a).
      * vm_compute. reflexivity.
      * vm_compute. reflexivity.
    + apply (Hsync [Sample.c5; Sample.c7]).
      * vm_compute. reflexivity.
      * by apply sample_uuid_fresh.
      * vm_compute. reflexivity.
      * vm_compute. reflexivity.
Defined.

(** C5, as stated, fails: user [u1] patches the own order [o1], stored at
    version 2, with [{"syncVersion": 0}], and the order comes out at
    version 1. *)
Lemma update_order_version_can_drop :
  Sample.order "o1" "u1" "flightA" 2 ∈ orders Sample.db0
  ∧ version_of (Sample.order "o1" "u1" "flightA" 2) = Some 2
  ∧ ∃ o' w',
      update_order Sample.rt0 "t1" "o1" Sample.stale_patch Sample.now0 Sample.w0
      = Ok (OrderUpdated o', w')
      ∧ o' !! "id" = Some (VStr "o1")
      ∧ version_of o' = Some 1.
Proof.
  split; [apply (list_elem_of_lookup_2 _ 0%nat); reflexivity|].
  split; [vm_compute; reflexivity|].
  destruct (update_order_allowed Sample.rt0 "t1" "o1" Sample.stale_patch
              Sample.now0 Sample.w0 (orders Sample.db0) Sample.u1_verified
              Sample.w0_verified 0%nat (Sample.order "o1" "u1" "flightA" 2) 0
              (Sample.snapshot Sample.rt0 Sample.now0 Sample.w0_verified)
              (Sample.reloaded Sample.rt0 Sample.now0 Sample.w0_verified))
    as (w' & Hupd & _).
  - split; [by exists Sample.db0|]. intros c. vm_compute. discriminate.
  - reflexivity.
  - vm_compute. reflexivity.
  - vm_compute. reflexivity.
  - right. exists (VStr "u1"). split; vm_compute; reflexivity.
  - vm_compute. reflexivity.
  - vm_compute. reflexivity.
  - vm_compute. reflexivity.
  - eexists _, w'. split; [exact Hupd|]. split; vm_compute; reflexivity.
Qed.

Module HeapFacts.
Import Heap.

Lemma new_addr_fresh (h : heap) : h !! new_addr h = None.
Proof. apply not_elem_of_dom. unfold new_addr. apply is_fresh. Qed.

Lemma dict_copy_spec h c r h' :
  dict_copy h c = Some (r, h') →
  ∃ d, h !! c = Some (ODict d) ∧ r = new_addr h ∧ h' = <[r := ODict d]> h.
Proof.
  unfold dict_copy. destruct (h !! c) as [[d|xs]|]; [|done..].
  intros [= <- <-]. by exists d.
Qed.

Lemma load_db_hit_spec p r p1 :
  load_db_hit p = Some (r, p1) →
  ∃ c d,
    g_db_cache p = Some c ∧ objects p !! c = Some (ODict d)
    ∧ objects p !! r = None
    ∧ p1 = with_objects (<[r := ODict d]> (objects p)) p
    ∧ negb (bool_decide (d = ∅)) && g_file_exists p
      && (g_file_mtime p <=? g_db_last_modified p)%Z = true.
Proof.
  unfold load_db_hit. destruct (g_db_cache p) as [c|] eqn:Hc; [|done].
  destruct (_ && _) eqn:Hcond; [|done].
  destruct (dict_copy (objects p) c) as [[r' h']|] eqn:Hcopy; [|done].
  intros [= <- <-].
  destruct (dict_copy_spec _ _ _ _ Hcopy) as (d & Hd & -> & ->).
  exists c, d. split_and!; try done; [apply new_addr_fresh| |].
  - unfold with_objects. by rewrite Hc.
  - unfold nonempty_dict in Hcond. by rewrite Hd in Hcond.
Qed.

(** The document an object stands for depends on the objects under it
    only. *)
Lemma view_agree (h h2 : heap) :
  closed h →
  (∀ l, is_Some (h !! l) → h2 !! l = h !! l) →
  ∀ fuel v, (∀ l, v = HRef l → is_Some (h !! l)) →
  view fuel h2 v = view fuel h v.
Proof.
  intros Hclosed Hagree. induction fuel as [|fuel IH]; intros v Hv.
  - by destruct v.
  - destruct v as [a|l]; [done|]. simpl.
    rewrite (Hagree l (Hv l eq_refl)).
    destruct (h !! l) as [[d|xs]|] eqn:Hl; [| |done].
    + f_equal. apply list_fmap_ext. intros i [k x] Hi. simpl. f_equal.
      apply IH. intros l' ->.
      apply (Hclosed l (ODict d) Hl k (HRef l')).
      apply elem_of_map_to_list. by apply list_elem_of_lookup_2 in Hi.
    + f_equal. apply list_fmap_ext. intros i x Hi.
      apply IH. intros l' ->.
      pose proof (Hclosed l (OList xs) Hl) as Hxs. simpl in Hxs.
      rewrite Forall_forall in Hxs.
      apply (Hxs (HRef l')). by apply list_elem_of_lookup_2 in Hi.
Qed.

(** A copy of the cache dict, wherever it was made, stands for the
    document of the cache. *)
Lemma view_copy (h hA : heap) c d a fuel :
  closed h →
  h !! c = Some (ODict d) →
  (∀ l, is_Some (h !! l) → hA !! l = h !! l) →
  hA !! a = Some (ODict d) →
  view (S fuel) hA (HRef a)
  = TDict (prod_map id (view fuel h) <$> map_to_list d).
Proof.
  intros Hclosed Hc Hagree Ha. simpl. rewrite Ha. f_equal.
  apply list_fmap_ext. intros i [k x] Hi. simpl. f_equal.
  apply view_agree; [done..|]. intros l' ->.
  apply (Hclosed c (ODict d) Hc k (HRef l')).
  apply elem_of_map_to_list. by apply list_elem_of_lookup_2 in Hi.
Qed.

(** C6 (amended): on a cache hit [load_db] returns a new dict with the
    entries of the cache.  It is a copy of the top level only: an
    assignment to a key of the returned snapshot changes no object that
    existed before, so the cache stands for the same document as before
    and the next hit returns that document again. *)
Theorem load_db_hit_copies_top_level p r p1 k v h2 :
  closed (objects p) →
  load_db_hit p = Some (r, p1) →
  mutate (objects p1) r (SetItem [] k v) = Some h2 →
  ∃ c d,
    g_db_cache p = Some c
    ∧ objects p !! c = Some (ODict d)
    ∧ objects p !! r = None
    ∧ objects p1 !! r = Some (ODict d)
    ∧ (∀ l, is_Some (objects p !! l) → h2 !! l = objects p !! l)
    ∧ (∀ fuel, view fuel h2 (HRef c) = view fuel (objects p) (HRef c))
    ∧ ∃ r2 p3,
        load_db_hit (with_objects h2 p1) = Some (r2, p3)
        ∧ objects p3 !! r2 = Some (ODict d)
        ∧ ∀ fuel, view fuel (objects p3) (HRef r2)
                  = view fuel (objects p1) (HRef r).
Proof.
  intros Hclosed Hload Hmut.
  destruct (load_db_hit_spec p r p1 Hload) as (c & d & Hc & Hd & Hr & -> & Hcond).
  simpl in Hmut. rewrite lookup_insert_eq in Hmut. injection Hmut as <-.
  set (h := objects p) in *.
  set (h2 := <[r := ODict (<[k := v]> d)]> (<[r := ODict d]> h)).
  assert (Hagree : ∀ l, is_Some (h !! l) → h2 !! l = h !! l).
  { intros l [o Hl]. unfold h2. rewrite !lookup_insert_ne; [done|congruence..]. }
  assert (Hc2 : h2 !! c = Some (ODict d)) by (by rewrite Hagree, Hd).
  exists c, d. split_and!; try done.
  - simpl. by rewrite lookup_insert_eq.
  - intros fuel. apply view_agree; [done..|]. intros l [= <-]. by rewrite Hd.
  - exists (new_addr h2), (with_objects (<[new_addr h2 := ODict d]> h2) p).
    split_and!.
    + unfold load_db_hit, nonempty_dict, dict_copy. simpl.
      rewrite Hc, Hc2, Hcond. unfold with_objects. simpl. by rewrite Hc.
    + simpl. by rewrite lookup_insert_eq.
    + intros [|fuel]; [done|].
      rewrite (view_copy h _ c d (new_addr h2) fuel Hclosed Hd);
        [|intros l Hl; simpl;
          rewrite lookup_insert_ne, Hagree; [done..|];
          intros <-; destruct Hl as [o Hl];
          by rewrite <- (Hagree _ (mk_is_Some _ _ Hl)), new_addr_fresh in Hl
         |simpl; by rewrite lookup_insert_eq].
      rewrite (view_copy h _ c d r fuel Hclosed Hd); [done| |].
      * intros l [o Hl]. simpl. rewrite lookup_insert_ne; [done|congruence].
      * simpl. by rewrite lookup_insert_eq.
Qed.

Lemma sample_closed : closed sample_objects.
Proof. apply (bool_decide_unpack (closed sample_objects)). vm_compute. exact I. Qed.

End HeapFacts.

Lemma load_db_hit_copies_top_level_witness :
  ∃ c d,
    Heap.g_db_cache Heap.sample_state = Some c
    ∧ Heap.objects Heap.sample_state !! c = Some (Heap.ODict d)
    ∧ Heap.objects Heap.sample_state !! 4%nat = None
    ∧ Heap.objects Heap.sample_hit !! 4%nat = Some (Heap.ODict d)
    ∧ (∀ l, is_Some (Heap.objects Heap.sample_state !! l) →
            Heap.sample_rebound !! l = Heap.objects Heap.sample_state !! l)
    ∧ (∀ fuel, Heap.view fuel Heap.sample_rebound (Heap.HRef c)
               = Heap.view fuel (Heap.objects Heap.sample_state) (Heap.HRef c))
    ∧ ∃ r2 p3,
        Heap.load_db_hit (Heap.with_objects Heap.sample_rebound Heap.sample_hit)
        = Some (r2, p3)
        ∧ Heap.objects p3 !! r2 = Some (Heap.ODict d)
        ∧ ∀ fuel, Heap.view fuel (Heap.objects p3) (Heap.HRef r2)
                  = Heap.view fuel (Heap.objects Heap.sample_hit) (Heap.HRef 4%nat).
Proof.
  apply (HeapFacts.load_db_hit_copies_top_level Heap.sample_state 4%nat
           Heap.sample_hit "orders" (Heap.HAtom VNone) Heap.sample_rebound).
  - exact HeapFacts.sample_closed.
  - vm_compute. reflexivity.
  - vm_compute. reflexivity.
Defined.

(** C6, as stated, fails: the caller appends to the [orders] list of the
    snapshot a cache hit returned; the list is the one the cache holds, so
    the cache stands for another document afterwards, and so does what the
    next hit returns. *)
Lemma cache_hit_shares_nested_lists :
  Heap.load_db_hit Heap.sample_state = Some (4%nat, Heap.sample_hit)
  ∧ Heap.mutate (Heap.objects Heap.sample_hit) 4%nat
      (Heap.Append [Heap.Key "orders"] (Heap.HAtom (VStr "new order")))
    = Some Heap.sample_appended
  ∧ Heap.view 3 Heap.sample_appended (Heap.HRef 0%nat)
    ≠ Heap.view 3 (Heap.objects Heap.sample_state) (Heap.HRef 0%nat)
  ∧ ∃ p3,
      Heap.load_db_hit (Heap.with_objects Heap.sample_appended Heap.sample_hit)
      = Some (5%nat, p3)
      ∧ Heap.view 3 (Heap.objects p3) (Heap.HRef 5%nat)
        ≠ Heap.view 3 (Heap.objects Heap.sample_hit) (Heap.HRef 4%nat).
Proof.
  split_and!.
  - vm_compute. reflexivity.
  - vm_compute. reflexivity.
  - vm_compute. discriminate.
  - eexists. split; [vm_compute; reflexivity|]. vm_compute. discriminate.
Qed.

(** ** More on the store *)

Section StoreMore.

Variable rt : runtime.

Lemma load_db_saved takes fuel now now' data w :
  writable w = true →
  takes (set_last_modified (isoformat rt now) data) = true →
  load_db rt (S fuel) now' (save_db rt takes now data w).2
  = Ok (set_last_modified (isoformat rt now) data,
        (save_db rt takes now data w).2).
Proof.
  intros Hw Ht. rewrite (save_db_taken rt takes now data w Hw Ht).
  erewrite load_db_doc_eq; [|reflexivity]. simpl.
  by rewrite Z.leb_refl.
Qed.

(** X1: what a [save_db] that answered [True] wrote is in the file, and
    is what the next [load_db] returns, stamp included, at any later time
    and without reading the file: the state stays as [save_db] left it. *)
Theorem save_then_load takes fuel now now' data w :
  (save_db rt takes now data w).1.1 = true →
  file (save_db rt takes now data w).2
  = Doc (set_last_modified (isoformat rt now) data)
  ∧ load_db rt (S fuel) now' (save_db rt takes now data w).2
    = Ok (set_last_modified (isoformat rt now) data,
          (save_db rt takes now data w).2).
Proof.
  intros Hok.
  assert (writable w = true
          ∧ takes (set_last_modified (isoformat rt now) data) = true)
    as [Hw Ht].
  { unfold save_db in Hok. destruct (writable w); [|done].
    by destruct (takes _). }
  split; [by rewrite (save_db_taken rt takes now data w Hw Ht)|].
  by apply load_db_saved.
Qed.

(** X2: on an empty disk that takes the write, [init_db] writes and
    returns the default snapshot, one admin user and nothing else; a
    second [init_db], whenever it comes, returns the same snapshot and
    leaves file and cache alone. *)
Theorem init_db_seeds_once fuel fuel' now now' w :
  file w = Missing →
  writable w = true →
  ∃ d w1 u,
    init_db rt (S fuel) now w = Ok (d, w1)
    ∧ file w1 = Doc d
    ∧ users d = [u] ∧ is_admin u = true
    ∧ orders d = [] ∧ sessions d = []
    ∧ init_db rt (S fuel') now' w1 = Ok (d, w1).
Proof.
  intros Hfile Hw.
  set (d := set_last_modified (isoformat rt now)
              (default_db rt now (uuid4 rt (uuid_count w)))).
  assert (Hseed : seed_if_missing rt now w
                  = mkWorld (Doc d) now true (Some d) now (S (uuid_count w))).
  { unfold seed_if_missing, file_exists, save_db, stored. rewrite Hfile. simpl.
    rewrite Hw.
    unfold set_db_last_modified, set_cache, write_file, next_uuid. simpl.
    by rewrite Hw. }
  assert (Hhit : ∀ f t, load_db rt (S f) t
                          (mkWorld (Doc d) now true (Some d) now (S (uuid_count w)))
                        = Ok (d, mkWorld (Doc d) now true (Some d) now
                                   (S (uuid_count w)))).
  { intros f t. erewrite load_db_doc_eq; [|reflexivity]. simpl.
    by rewrite Z.leb_refl. }
  exists d, (mkWorld (Doc d) now true (Some d) now (S (uuid_count w))).
  eexists. unfold init_db. rewrite Hseed, Hhit.
  rewrite seed_if_missing_exists by done. rewrite Hhit.
  split; [done|]. split; [done|]. split; [reflexivity|]. by split_and!.
Qed.

(** X3: on an empty disk that refuses the write, [load_db] returns at no
    call depth: [init_db] keeps the snapshot it could not write in the
    cache, [load_db] sees no file, and the two call each other again. *)
Theorem load_db_unwritable_never_returns fuel now w :
  file w = Missing →
  writable w = false →
  load_db rt fuel now w = Raise.
Proof.
  revert w. induction fuel as [|fuel IH]; intros w Hfile Hw; [done|].
  assert (Hnext : load_db rt fuel now (seed_if_missing rt now w) = Raise).
  { apply IH.
    - unfold seed_if_missing, file_exists, save_db, stored. rewrite Hfile. simpl.
      by rewrite Hw.
    - unfold seed_if_missing, file_exists, save_db, stored. rewrite Hfile. simpl.
      by rewrite Hw. }
  change (load_db rt (S fuel) now w) with
    (match db_cache w with
     | Some c =>
         if file_exists w && (file_mtime w <=? db_last_modified w)%Z
         then Ok (c, w)
         else
           match file w with
           | Doc d => Ok (d, set_db_last_modified now (set_cache (Some d) w))
           | _ => load_db rt fuel now (seed_if_missing rt now w)
           end
     | None =>
         match file w with
         | Doc d => Ok (d, set_db_last_modified now (set_cache (Some d) w))
         | _ => load_db rt fuel now (seed_if_missing rt now w)
         end
     end).
  unfold file_exists. rewrite Hfile, Hnext. by destruct (db_cache w).
Qed.

End StoreMore.

Lemma save_then_load_witness :
  file (save_db Sample.rt0 (serialises Sample.rt0) 3 Sample.db0 Sample.w0).2
  = Doc (set_last_modified (isoformat Sample.rt0 3) Sample.db0)
  ∧ load_db Sample.rt0 (S 0) 7
      (save_db Sample.rt0 (serialises Sample.rt0) 3 Sample.db0 Sample.w0).2
    = Ok (set_last_modified (isoformat Sample.rt0 3) Sample.db0,
          (save_db Sample.rt0 (serialises Sample.rt0) 3 Sample.db0
             Sample.w0).2).
Proof.
  apply (save_then_load Sample.rt0 (serialises Sample.rt0) 0 3 7 Sample.db0
           Sample.w0).
  vm_compute. reflexivity.
Defined.

Lemma init_db_seeds_once_witness :
  ∃ d w1 u,
    init_db Sample.rt0 (S 0) 3 More.blank = Ok (d, w1)
    ∧ file w1 = Doc d
    ∧ users d = [u] ∧ is_admin u = true
    ∧ orders d = [] ∧ sessions d = []
    ∧ init_db Sample.rt0 (S 5) 9 w1 = Ok (d, w1).
Proof.
  apply (init_db_seeds_once Sample.rt0 0 5 3 9 More.blank); reflexivity.
Defined.

Lemma load_db_unwritable_never_returns_witness :
  load_db Sample.rt0 recursion_limit 3 More.blank_readonly = Raise.
Proof.
  apply (load_db_unwritable_never_returns Sample.rt0 recursion_limit 3
           More.blank_readonly); reflexivity.
Defined.

(** ** More on sessions *)

Section SessionsMore.

Variable rt : runtime.

Lemma filter_singleton_split {A} (p : A → bool) (l : list A) x :
  filter (λ y, p y = true) l = [x] →
  ∃ pre post,
    l = pre ++ x :: post ∧ p x = true
    ∧ Forall (λ y, p y = false) pre ∧ Forall (λ y, p y = false) post.
Proof.
  induction l as [|y l IH]; [done|].
  rewrite filter_cons. destruct (decide (p y = true)) as [Hy|Hy].
  - intros [= -> Hrest]. exists [], l. split_and!; try done.
    apply Forall_forall. intros z Hz.
    destruct (p z) eqn:Hpz; [|done].
    assert (z ∈ filter (λ y, p y = true) l) as Hin
      by by apply list_elem_of_filter.
    rewrite Hrest in Hin. by apply not_elem_of_nil in Hin.
  - intros Hl. destruct (IH Hl) as (pre & post & -> & Hx & Hpre & Hpost).
    exists (y :: pre), post. split_and!; try done.
    constructor; [|done]. by destruct (p y).
Qed.

(** The session loop as a whole, when one young session holds the token
    and names a stored user. *)
Lemma verify_fold_resolves token now ss s us i u :
  filter (λ x, holds_token token x = true) ss = [s] →
  is_active rt now s = true →
  find_user us (get s "user_id") = Ok (Some i) →
  us !! i = Some u →
  foldl (verify_step rt token now) ([], None, us) ss
  = (filter (λ x, is_active rt now x = true) ss,
     Some (<["lastActivity" := VStr (isoformat rt now)]> u),
     <[i := <["lastActivity" := VStr (isoformat rt now)]> u]> us).
Proof.
  intros Honly Hact Hfind Hu.
  destruct (filter_singleton_split _ _ _ Honly)
    as (pre & post & -> & Hs & Hpre & Hpost).
  assert (Hquiet : ∀ l a v xs,
    Forall (λ y, holds_token token y = false) l →
    foldl (verify_step rt token now) (a, v, xs) l
    = (a ++ filter (λ x, is_active rt now x = true) l, v, xs)).
  { intros l a v xs Hl.
    pose proof (verify_fold_active rt token now l a v xs) as Ha.
    destruct (verify_fold_user rt token now l a v xs) as [Hv Hxs].
    { intros y Hy Hh. rewrite Forall_forall in Hl. rewrite (Hl y Hy) in Hh.
      done. }
    destruct (foldl _ _ l) as [[a' v'] xs']. simpl in *. by subst. }
  rewrite foldl_app, (Hquiet pre [] None us Hpre). cbn [foldl].
  assert (Hstep : verify_step rt token now
                    ([] ++ filter (λ x, is_active rt now x = true) pre, None, us) s
    = (filter (λ x, is_active rt now x = true) pre ++ [s],
       Some (<["lastActivity" := VStr (isoformat rt now)]> u),
       <[i := <["lastActivity" := VStr (isoformat rt now)]> u]> us)).
  { unfold verify_step. rewrite Hact. unfold holds_token in Hs.
    destruct (s !! "token") as [tv|]; [|done].
    by rewrite Hs, Hfind, Hu. }
  rewrite Hstep, (Hquiet post _ _ _ Hpost).
  rewrite filter_app, filter_cons_True by done.
  by rewrite <- app_assoc.
Qed.

Lemma verify_token_resolves_user token now w d wl s i u :
  load_db rt recursion_limit now w = Ok (d, wl) →
  token ≠ "" →
  filter (λ x, holds_token token x = true) (sessions d) = [s] →
  is_active rt now s = true →
  find_user (users d) (get s "user_id") = Ok (Some i) →
  users d !! i = Some u →
  ∃ w1,
    verify_token rt token now w
    = Ok (Some (<["lastActivity" := VStr (isoformat rt now)]> u), w1).
Proof.
  intros Hload Htok Honly Hact Hfind Hu. unfold verify_token.
  assert (String.eqb token "" = false) as -> by by apply String.eqb_neq.
  rewrite Hload. simpl.
  rewrite (verify_fold_resolves token now (sessions d) s (users d) i u)
    by done.
  destruct (negb _); [|by eauto].
  destruct (save_db _ _ _ _ _) as [[b dd] w3]. by eauto.
Qed.

(** X4: a token that one session holds, younger than thirty days, whose
    [user_id] is the id of a stored user, resolves that user, stamped with
    the time of the call. *)
Theorem verify_token_resolves token now w d0 d wl s i u :
  file w = Doc d0 →
  load_db rt recursion_limit now w = Ok (d, wl) →
  token ≠ "" →
  filter (λ x, holds_token token x = true) (sessions d) = [s] →
  is_active rt now s = true →
  find_user (users d) (get s "user_id") = Ok (Some i) →
  users d !! i = Some u →
  ∃ w1 idv,
    verify_token rt token now w
    = Ok (Some (<["lastActivity" := VStr (isoformat rt now)]> u), w1)
    ∧ u !! "id" = Some idv ∧ py_eq idv (get s "user_id") = true.
Proof.
  intros _ Hload Htok Honly Hact Hfind Hu.
  destruct (verify_token_resolves_user token now w d wl s i u)
    as [w1 Hv]; try done.
  destruct (find_user_hit _ _ _ Hfind) as (u' & idv & Hu' & Hid & Heq).
  rewrite Hu in Hu'. injection Hu' as <-. by exists w1, idv.
Qed.

(** X5: while no session is expired, [verify_token] writes nothing: the
    file and its modification time stay, whoever the token resolves. *)
Theorem verify_token_writes_only_to_prune token now w d0 d wl :
  file w = Doc d0 →
  load_db rt recursion_limit now w = Ok (d, wl) →
  Forall (λ s, is_active rt now s = true) (sessions d) →
  ∃ user w1,
    verify_token rt token now w = Ok (user, w1)
    ∧ file w1 = Doc d0 ∧ file_mtime w1 = file_mtime w.
Proof.
  intros Hfile Hload Hall. unfold verify_token.
  destruct (String.eqb token ""); [by eauto 10|].
  destruct (load_db_limit rt now w d0 Hfile) as (d' & wl' & Hload' & Hl).
  rewrite Hload in Hload'. injection Hload' as <- <-.
  destruct Hl as (_ & Hf & Hm & _).
  rewrite Hload. simpl.
  pose proof (verify_fold_active rt token now (sessions d) [] None (users d)) as Ha.
  destruct (foldl _ _ _) as [[active user] us]. simpl in Ha. subst active.
  assert (filter (λ x, is_active rt now x = true) (sessions d) = sessions d) as ->.
  { clear -Hall. induction Hall as [|s ss Hs Hss IH]; [done|].
    by rewrite filter_cons_True, IH. }
  rewrite Nat.eqb_refl. simpl.
  exists user, (in_place (set_users us) wl). simpl. by rewrite Hf, Hm, Hfile.
Qed.

End SessionsMore.

(** ** Accounts *)

Section AccountFacts.

Variable rt : runtime.
Variable strip : string → string.
Variable lower : string → string.

Lemma loaded_writable now w d0 d wl :
  file w = Doc d0 →
  load_db rt recursion_limit now w = Ok (d, wl) →
  loaded w d wl.
Proof.
  intros Hfile Hload.
  destruct (load_db_limit rt now w d0 Hfile) as (d' & wl' & Hload' & Hl).
  rewrite Hload in Hload'. by injection Hload' as <- <-.
Qed.






Lemma email_taken_hit us email u :
  Forall (λ x, is_Some (x !! "email")) us →
  u ∈ us → u !! "email" = Some (VStr email) →
  email_taken us email = Ok true.
Proof.
  intros Hall Hin Hu. induction Hall as [|x us [v Hx] Hrest IH];
    [by apply not_elem_of_nil in Hin|].
  simpl. unfold item. rewrite Hx. simpl.
  destruct (py_eq v (VStr email)) eqn:Heq; [done|].
  apply elem_of_cons in Hin as [->|Hin]; [|by apply IH].
  rewrite Hu in Hx. injection Hx as <-. by rewrite py_eq_refl in Heq.
Qed.

(** X7: an email a stored user has already, after [strip] and [lower],
    is refused, and nothing is written: the file stays as it was. *)
Theorem register_refuses_taken_email data now w d0 d wl email u :
  file w = Doc d0 →
  load_db rt recursion_limit now w = Ok (d, wl) →
  email_of strip lower data = Ok email →
  email ≠ "" →
  truthy (get_or data "password" (VStr "")) = true →
  Forall (λ x, is_Some (x !! "email")) (users d) →
  u ∈ users d →
  u !! "email" = Some (VStr email) →
  register rt strip lower data now w = (UserExists, wl)
  ∧ file wl = Doc d0 ∧ file_mtime wl = file_mtime w.
Proof.
  intros Hfile Hload Hemail Hne Hpw Hall Hin Hu.
  destruct (loaded_writable now w d0 d wl Hfile Hload) as (_ & Hf & Hm & _).
  unfold register. rewrite Hemail, Hpw.
  assert (String.eqb email "" = false) as -> by by apply String.eqb_neq.
  simpl. rewrite Hload, (email_taken_hit _ _ u Hall Hin Hu).
  by rewrite Hf, Hfile.
Qed.





End AccountFacts.

(** ** More on orders *)

Section OrdersMore.

Variable rt : runtime.

(** X10: a token that resolves nobody gets [Unauthorized] from every
    handler that asks for one, and the stored orders stay as they were. *)
Theorem unauthorized_changes_no_order token now w os w1 :
  holds_orders w os →
  verify_token rt token now w = Ok (None, w1) →
  get_orders rt token now w = Ok (Unauthorized, w1)
  ∧ (∀ data, create_order rt token data now w = Ok (Unauthorized, w1))
  ∧ (∀ order_id data,
       update_order rt token order_id data now w = Ok (Unauthorized, w1))
  ∧ (∀ order_id,
       delete_order rt token order_id now w = Ok (DeleteUnauthorized, w1))
  ∧ (∀ client, sync_data rt token client now w = Ok (Unauthorized, w1))
  ∧ (∀ key value, set_setting rt token key value now w = Ok (Unauthorized, w1))
  ∧ holds_orders w1 os
  ∧ persisted_orders w1 = persisted_orders w.
Proof.
  intros Hh Hv.
  destruct (handler_entry rt token now w os _ w1 Hh Hv) as (Hh1 & _).
  unfold get_orders, create_order, update_order, delete_order, sync_data,
    set_setting.
  rewrite Hv. simpl. split_and!; try done.
  by rewrite (holds_orders_persisted _ _ Hh), (holds_orders_persisted _ _ Hh1).
Qed.

(** X11: somebody who is neither admin nor owner can neither update nor
    delete an order: both handlers answer [Forbidden], whatever the
    patch, and the stored orders stay as they were. *)
Theorem foreign_order_is_forbidden token order_id now w os user w1 uid i o :
  holds_orders w os →
  verify_token rt token now w = Ok (Some user, w1) →
  is_admin user = false →
  user !! "id" = Some uid →
  find_order order_id os = Ok (Some (i, o)) →
  owned_by uid o = false →
  ∃ w2,
    (∀ data, update_order rt token order_id data now w = Ok (Forbidden, w2))
    ∧ delete_order rt token order_id now w = Ok (DeleteForbidden, w2)
    ∧ holds_orders w2 os
    ∧ persisted_orders w2 = persisted_orders w.
Proof.
  intros Hh Hv Hadm Hid Hfind Hown.
  destruct (handler_entry rt token now w os _ w1 Hh Hv) as (Hh1 & _).
  destruct (load_db_holds rt now w1 os Hh1) as (d & w2 & Hload & Hos & Hh2 & _).
  exists w2. unfold update_order, delete_order. rewrite Hv. simpl.
  rewrite Hload. simpl. rewrite Hos, Hfind. simpl.
  unfold is_admin in Hadm. rewrite Hadm. unfold item. rewrite Hid. simpl.
  rewrite Hown. simpl. split_and!; try done.
  by rewrite (holds_orders_persisted _ _ Hh), (holds_orders_persisted _ _ Hh2).
Qed.

Lemma find_order_none order_id os :
  Forall (λ o, is_Some (o !! "id") ∧ has_id order_id o = false) os →
  find_order order_id os = Ok None.
Proof.
  induction 1 as [|o os [[v Hv] Hne] Hrest IH]; [done|].
  simpl. unfold item. rewrite Hv. simpl.
  rewrite (has_id_item order_id o v Hv) in Hne. by rewrite Hne, IH.
Qed.

Lemma find_order_split order_id pre o post :
  Forall (λ x, is_Some (x !! "id") ∧ has_id order_id x = false) pre →
  has_id order_id o = true →
  find_order order_id (pre ++ o :: post) = Ok (Some (length pre, o)).
Proof.
  intros Hpre Ho. induction Hpre as [|x pre [[v Hv] Hne] Hrest IH]; simpl.
  - unfold has_id, get in Ho. unfold item.
    destruct (o !! "id") as [v|]; [|done]. simpl in *. by rewrite Ho.
  - unfold item. rewrite Hv. simpl.
    rewrite (has_id_item order_id x v Hv) in Hne. by rewrite Hne, IH.
Qed.

(** X12: for an id no stored order carries, [update_order] and
    [delete_order] answer that the order was not found and leave the
    stored orders as they were. *)
Theorem unknown_order_not_found token order_id now w os user w1 :
  holds_orders w os →
  verify_token rt token now w = Ok (Some user, w1) →
  Forall (λ o, is_Some (o !! "id") ∧ has_id order_id o = false) os →
  ∃ w2,
    (∀ data, update_order rt token order_id data now w = Ok (OrderNotFound, w2))
    ∧ delete_order rt token order_id now w = Ok (DeleteNotFound, w2)
    ∧ holds_orders w2 os
    ∧ persisted_orders w2 = persisted_orders w.
Proof.
  intros Hh Hv Hnone.
  destruct (handler_entry rt token now w os _ w1 Hh Hv) as (Hh1 & _).
  destruct (load_db_holds rt now w1 os Hh1) as (d & w2 & Hload & Hos & Hh2 & _).
  exists w2. unfold update_order, delete_order. rewrite Hv. simpl.
  rewrite Hload. simpl. rewrite Hos, (find_order_none _ _ Hnone). simpl.
  split_and!; try done.
  by rewrite (holds_orders_persisted _ _ Hh), (holds_orders_persisted _ _ Hh2).
Qed.

Lemma filter_split_out {A} (p : A → bool) (pre post : list A) x :
  Forall (λ y, p y = false) pre → Forall (λ y, p y = false) post →
  p x = true →
  filter (λ y, p y = false) (pre ++ x :: post) = pre ++ post.
Proof.
  intros Hpre Hpost Hx.
  assert (Hall : ∀ l, Forall (λ y, p y = false) l →
                      filter (λ y, p y = false) l = l).
  { induction 1 as [|y l Hy Hl IH]; [done|]. by rewrite filter_cons_True, IH. }
  rewrite filter_app, filter_cons_False by (by rewrite Hx).
  by rewrite !Hall.
Qed.

(** X13: the owner or an admin deletes an order by its id: when every
    stored order has an id and one carries this one, that order goes and
    all others stay, in their order. *)
Theorem delete_order_removes token order_id now w os user w1 o :
  holds_orders w os →
  writable w = true →
  verify_token rt token now w = Ok (Some user, w1) →
  Forall (λ x, is_Some (x !! "id")) os →
  filter (λ x, has_id order_id x = true) os = [o] →
  (is_admin user = true
   ∨ ∃ uid, user !! "id" = Some uid ∧ owned_by uid o = true) →
  ∃ w3,
    delete_order rt token order_id now w = Ok (OrderDeleted, w3)
    ∧ persisted_orders w3 = filter (λ x, has_id order_id x = false) os
    ∧ (o ∉ persisted_orders w3)
    ∧ length (persisted_orders w3) = (length os - 1)%nat.
Proof.
  intros Hh Hw Hv Hids Honly Hallow.
  destruct (filter_singleton_split _ _ _ Honly)
    as (pre & post & -> & Ho & Hpre & Hpost).
  destruct (handler_entry rt token now w _ _ w1 Hh Hv) as (Hh1 & Hw1 & _).
  destruct (load_db_holds rt now w1 _ Hh1)
    as (d & w2 & Hload & Hos & Hh2 & _ & Hw2 & _).
  assert (Hfind : find_order order_id (pre ++ o :: post)
                  = Ok (Some (length pre, o))).
  { apply find_order_split; [|done]. apply Forall_app in Hids as [Hids _].
    rewrite Forall_forall in Hids, Hpre. apply Forall_forall.
    intros x Hx. split; [by apply Hids|by apply Hpre]. }
  unfold delete_order. rewrite Hv. simpl. rewrite Hload. simpl.
  rewrite Hos, Hfind. simpl.
  assert ((if truthy (get user "isAdmin") then Ok false
           else let! uid := item user "id" in Ok (negb (owned_by uid o)))
          = Ok false) as ->.
  { destruct Hallow as [Ha|(uid & Hid & Hown)].
    - unfold is_admin in Ha. by rewrite Ha.
    - destruct (truthy (get user "isAdmin")); [done|].
      unfold item. rewrite Hid. simpl. by rewrite Hown. }
  simpl. save_step Hsave w3.
  destruct Hsave as (Hh3 & _); [by rewrite Hw2, Hw1|done|].
  exists w3. split; [done|].
  rewrite (holds_orders_persisted _ _ Hh3).
  rewrite (filter_split_out _ pre post o Hpre Hpost Ho).
  assert (Hdel : delete (length pre) (pre ++ o :: post) = pre ++ post).
  { clear. induction pre as [|x pre IH]; [done|]. simpl. by rewrite IH. }
  rewrite Hdel. split_and!; [done| |].
  - intros Hin. apply elem_of_app in Hin as [Hin|Hin].
    + rewrite Forall_forall in Hpre. rewrite (Hpre o Hin) in Ho. done.
    + rewrite Forall_forall in Hpost. rewrite (Hpost o Hin) in Ho. done.
  - rewrite !length_app. simpl. lia.
Qed.

Lemma find_first_absent {A} (p : A → bool) (l : list A) :
  filter (λ x, p x = true) l = [] → find_first p l = None.
Proof.
  induction l as [|y l IH]; [done|]. rewrite filter_cons. simpl.
  destruct (decide (p y = true)) as [Hy|Hy]; [done|].
  intros Hl. rewrite (IH Hl). by destruct (p y).
Qed.

(** X14: an upload under a file name of which the caller has no order,
    with a snapshot [json.dump] takes, appends one order after those
    stored: it carries the uuid drawn, the caller as owner, the data sent
    and version 1. *)
Theorem create_order_appends token data now w os user w1 uid email d w2 :
  holds_orders w os →
  writable w = true →
  verify_token rt token now w = Ok (Some user, w1) →
  user !! "id" = Some uid →
  user !! "email" = Some email →
  uploads (get_or data "fileName" (VStr "")) uid os = 0%nat →
  load_db rt recursion_limit now w1 = Ok (d, w2) →
  dumps rt now
    (set_orders
       (os ++ [new_order rt (uuid4 rt (uuid_count w)) uid email data now]) d) →
  ∃ o w',
    create_order rt token data now w = Ok (OrderCreated o, w')
    ∧ persisted_orders w' = os ++ [o]
    ∧ o !! "id" = Some (VStr (uuid4 rt (uuid_count w)))
    ∧ o !! "userId" = Some uid
    ∧ o !! "data" = Some (get_or data "data" (VList []))
    ∧ version_of o = Some 1.
Proof.
  intros Hh Hw Hv Hid Hemail Hnone Hload Hd.
  destruct (create_order_fresh rt token data now w os user w1 uid email d w2)
    as (w' & Hc & Hh' & _); try done.
  { apply find_first_absent. unfold uploads in Hnone.
    by destruct (filter _ os). }
  eexists _, w'. split; [exact Hc|].
  rewrite (holds_orders_persisted _ _ Hh'). split; [done|].
  unfold new_order.
  split; [by rewrite lookup_insert_eq|].
  split; [by rewrite !lookup_insert_ne, lookup_insert_eq by done|].
  split; [by rewrite !lookup_insert_ne, lookup_insert_eq by done|].
  apply new_order_version.
Qed.

(** [get_orders] on a store that holds [os]. *)
Lemma get_orders_holds token now w os user w1 uid :
  holds_orders w os →
  verify_token rt token now w = Ok (Some user, w1) →
  user !! "id" = Some uid →
  ∃ lm w2,
    get_orders rt token now w
    = Ok (OrdersList
            (if is_admin user then os
             else filter (λ o, owned_by uid o = true) os)
            (length (if is_admin user then os
                     else filter (λ o, owned_by uid o = true) os))
            lm, w2).
Proof.
  intros Hh Hv Hid.
  destruct (handler_entry rt token now w os _ w1 Hh Hv) as (Hh1 & _).
  destruct (load_db_holds rt now w1 os Hh1) as (d & w2 & Hload & Hos & _).
  unfold get_orders. rewrite Hv. simpl. rewrite Hload. simpl. rewrite Hos.
  destruct (is_admin user); simpl; [by eauto|].
  unfold own_orders, item. rewrite Hid. destruct os; simpl; by eauto.
Qed.

(** X15: what [create_order] answered with, new order or update of an
    old one, is in the list [get_orders] gives the same user afterwards,
    when [json.dump] took the snapshot [create_order] wrote. *)
Theorem create_then_list token1 token2 data now1 now2 w os user1 w1 user2 wb
    uid email r1 wa d w2 :
  holds_orders w os →
  writable w = true →
  verify_token rt token1 now1 w = Ok (Some user1, w1) →
  user1 !! "id" = Some uid →
  user1 !! "email" = Some email →
  load_db rt recursion_limit now1 w1 = Ok (d, w2) →
  create_order rt token1 data now1 w = Ok (r1, wa) →
  dumps rt now1
    (set_orders (after_upload (get_or data "fileName" (VStr "")) uid os r1) d) →
  verify_token rt token2 now2 wa = Ok (Some user2, wb) →
  user2 !! "id" = Some uid →
  ∃ o listed lm w3,
    (r1 = OrderCreated o ∨ r1 = OrderReuploaded o)
    ∧ get_orders rt token2 now2 wa
      = Ok (OrdersList listed (length listed) lm, w3)
    ∧ o ∈ listed.
Proof.
  intros Hh Hw Hv1 Hid1 Hem1 Hload Hcall Hd Hv2 Hid2.
  set (fname := get_or data "fileName" (VStr "")) in *.
  assert (Hlist : ∀ os' o, holds_orders wa os' → o ∈ os' →
            owned_by uid o = true →
            ∃ listed lm w3,
              get_orders rt token2 now2 wa
              = Ok (OrdersList listed (length listed) lm, w3)
              ∧ o ∈ listed).
  { intros os' o Hha Hin Hown.
    destruct (get_orders_holds token2 now2 wa os' user2 wb uid Hha Hv2 Hid2)
      as (lm & w3 & Hget).
    eexists _, lm, w3. split; [exact Hget|].
    destruct (is_admin user2); [done|]. by apply list_elem_of_filter. }
  destruct (find_first (same_upload fname uid) os) as [[i existing]|] eqn:Hfind.
  - destruct (find_first_hit _ _ _ _ Hfind) as [Hi Hp].
    destruct (version_of existing) as [v|] eqn:Hver.
    + destruct (create_order_reupload_eq rt token1 data now1 w os user1 w1 uid
                  email i existing v d w2) as [Hc Hwr]; try done.
      rewrite Hc in Hcall. injection Hcall as <- <-.
      simpl in Hd. rewrite Hfind in Hd.
      match type of Hv2 with
      | context [save_db ?r ?t ?n ?x ?y] =>
          destruct (save_db_ok r t n x y) as (Hha & _);
            [by rewrite Hwr|done|]
      end.
      destruct (Hlist _ (reuploaded rt existing (get_or data "data" (VList []))
                           now1 v) Hha) as (listed & lm & w3 & Hget & Hin).
      * apply list_elem_of_lookup. exists i.
        apply list_lookup_insert_eq. by eapply lookup_lt_Some.
      * pose proof (same_upload_reuploaded rt fname uid existing
                      (get_or data "data" (VList [])) now1 v) as Hsame.
        rewrite Hp in Hsame. unfold same_upload in Hsame.
        by apply andb_true_iff in Hsame as [_ ?].
      * eexists _, listed, lm, w3. split; [by right|]. by split.
    + by rewrite (create_order_crash rt token1 data now1 w os user1 w1 uid email
                    i existing) in Hcall.
  - destruct (create_order_fresh_eq rt token1 data now1 w os user1 w1 uid email
                d w2) as [Hc Hwr]; try done.
    rewrite Hc in Hcall. injection Hcall as <- <-.
    simpl in Hd.
    match type of Hv2 with
    | context [save_db ?r ?t ?n ?x ?y] =>
        destruct (save_db_ok r t n x y) as (Hha & _);
          [by rewrite Hwr|done|]
    end.
    destruct (Hlist _ (new_order rt (uuid4 rt (uuid_count w)) uid email data now1)
                Hha) as (listed & lm & w3 & Hget & Hin).
    + apply elem_of_app. right. by apply list_elem_of_singleton.
    + unfold owned_by. rewrite new_order_owner. apply py_eq_refl.
    + eexists _, listed, lm, w3. split; [by left|]. by split.
Qed.

(** X23: an upload whose snapshot [json.dump] does not take is answered
    as created all the same, and leaves a file that does not decode: no
    order is stored any more, and a process that has to read the file,
    because it was started anew or because its cache is older than the
    file, gets no snapshot at any call depth, not even for a setting. *)
Theorem refused_write_spoils_store token data now w os user w1 uid email d w2 :
  holds_orders w os →
  writable w = true →
  verify_token rt token now w = Ok (Some user, w1) →
  user !! "id" = Some uid →
  user !! "email" = Some email →
  uploads (get_or data "fileName" (VStr "")) uid os = 0%nat →
  load_db rt recursion_limit now w1 = Ok (d, w2) →
  serialises rt
    (set_last_modified (isoformat rt now)
       (set_orders
          (os ++ [new_order rt (uuid4 rt (uuid_count w)) uid email data now])
          d)) = false →
  ∃ w',
    create_order rt token data now w
    = Ok (OrderCreated
            (new_order rt (uuid4 rt (uuid_count w)) uid email data now), w')
    ∧ file w' = Corrupt
    ∧ persisted_orders w' = []
    ∧ (∀ fuel now', load_db rt fuel now' (set_cache None w') = Raise)
    ∧ (∀ key now', get_setting rt key now' (set_cache None w') = Raise)
    ∧ (db_last_modified w' < file_mtime w' →
       ∀ fuel now', load_db rt fuel now' w' = Raise).
Proof.
  intros Hh Hw Hv Hid Hemail Hnone Hload Hd.
  destruct (create_order_fresh_eq rt token data now w os user w1 uid email d w2)
    as [Hc Hwr]; try done.
  { apply find_first_absent. unfold uploads in Hnone.
    by destruct (filter _ os). }
  rewrite Hc. eexists. split; [done|].
  match goal with
  | |- context [save_db ?r ?t ?n ?x ?y] =>
      destruct (save_db_spoils r t n x y) as (Hfile & _);
        [by rewrite Hwr|done|];
      generalize dependent (save_db r t n x y).2
  end.
  intros w' _ Hfile.
  assert (Hfresh : ∀ fuel now', load_db rt fuel now' (set_cache None w') = Raise).
  { intros fuel now'. apply load_db_corrupt; [done|by left]. }
  split_and!; [done| |done| |].
  - unfold persisted_orders. by rewrite Hfile.
  - intros key now'. unfold get_setting. by rewrite Hfresh.
  - intros Hold fuel now'. apply load_db_corrupt; [done|by right].
Qed.

End OrdersMore.

(** ** More on synchronisation *)

Section SyncMore.

Variable rt : runtime.

Lemma map_find_absent m k :
  map_find m k = None → Forall (λ e, py_eq e.1 k = false) m.
Proof.
  induction m as [|[k' o] m IH]; simpl; [by constructor|].
  destruct (py_eq k' k) eqn:Heq; [done|]. intros H. constructor; auto.
Qed.

Lemma map_values_one_per_id m oid :
  well_keyed m →
  (length (filter (λ o, has_id oid o = true) (map_values m)) ≤ 1)%nat.
Proof.
  intros Hwk. destruct (map_find m (VStr oid)) as [x|] eqn:Hfind.
  - by rewrite (map_find_only m oid x Hwk Hfind).
  - destruct Hwk as [Hkeyed _].
    pose proof (map_find_absent _ _ Hfind) as Hne.
    rewrite (filter_none _ (map_values m)); [simpl; lia|].
    unfold map_values. clear Hfind.
    induction m as [|[k o] m IH]; [by constructor|].
    apply Forall_cons in Hkeyed as [Hk Hkeyed].
    apply Forall_cons in Hne as [Hn Hne]. simpl in *.
    constructor; [|by apply IH].
    unfold has_id. intros Hid. apply py_eq_str_r in Hid.
    rewrite Hid in Hk. congruence.
Qed.

(** X16: the answer of a sync holds at most one order under any id. *)
Theorem sync_answer_one_order_per_id token client now w os user w1 ms w' oid :
  holds_orders w os →
  verify_token rt token now w = Ok (Some user, w1) →
  sync_data rt token client now w = Ok (SyncDone ms, w') →
  (length (filter (λ o, has_id oid o = true) ms) ≤ 1)%nat.
Proof.
  intros Hh Hv Hsync.
  destruct (sync_data_inv rt token _ now w os user w1 ms w' Hh Hv Hsync)
    as (server & seeded & merged & n & kept & _ & _ & _ & _ & -> & _ & _ & Hwk).
  by apply map_values_one_per_id.
Qed.

(** X17: a sync that fails on the way (an id that cannot be hashed, two
    versions that cannot be compared, an order without id in the store)
    answers with an error and has written nothing. *)
Theorem failed_sync_writes_nothing token client now w os w' :
  holds_orders w os →
  sync_data rt token client now w = Ok (SyncError, w') →
  holds_orders w' os ∧ persisted_orders w' = persisted_orders w.
Proof.
  intros Hh. unfold sync_data.
  destruct (verify_token_holds rt token now w os Hh)
    as (user & w1 & Hv & Hh1 & _).
  rewrite Hv. simpl. destruct user as [u|]; [|done].
  assert (Hbody : ∀ a, sync_body rt u client now w1 = Ok a → a.1 ≠ SyncError).
  { intros a. unfold sync_body.
    destruct (load_db rt recursion_limit now w1) as [[d w2]|]; simpl; [|done].
    destruct (scoped_orders u (orders d)); simpl; [|done].
    destruct (seed_merge [] a0); simpl; [|done].
    destruct (merge_clients rt u (a1, uuid_count w2) client) as [[m n]|];
      simpl; [|done].
    destruct (keep_orders u m (orders d)); simpl; [|done].
    destruct (save_db _ _ _ _ _) as [[b dd] w3]. by intros [= <-]. }
  destruct (sync_body rt u client now w1) as [[a wa]|] eqn:Hb.
  - intros [= -> <-]. by destruct (Hbody _ eq_refl).
  - intros [= <-]. split; [done|].
    by rewrite (holds_orders_persisted _ _ Hh), (holds_orders_persisted _ _ Hh1).
Qed.

(** The uuid counter moves by one for each client order without an id. *)
Lemma merge_clients_counter user client :
  ∀ m n m' n',
    merge_clients rt user (m, n) client = Ok (m', n') →
    n' = (n + length (filter (λ c, truthy (get c "id") = false) client))%nat.
Proof.
  induction client as [|c client IH]; intros m n m' n'; simpl.
  - intros [= <- <-]. lia.
  - destruct (merge_client rt user (m, n) c) as [[m1 n1]|] eqn:Hstep;
      simpl; [|done].
    intros Hgo. rewrite (IH _ _ _ _ Hgo). rewrite filter_cons.
    revert Hstep. unfold merge_client.
    destruct (truthy (get c "id")) eqn:Htr; simpl.
    + destruct (hashable (get c "id")); [|done].
      destruct (map_find m (get c "id")).
      * destruct (py_gt _ _) as [[|]|]; simpl; [| |done]; intros [= <- <-];
          simpl; lia.
      * destruct (item user "id"); simpl; [|done].
        destruct (item user "email"); simpl; [|done].
        intros [= <- <-]. simpl. lia.
    + destruct (item user "id"); simpl; [|done].
      destruct (item user "email"); simpl; [|done].
      intros [= <- <-]. simpl. lia.
Qed.

(** Client orders that carry another id, or none, leave the entry of
    [oid] alone, as long as the uuids drawn from [n] on are not [oid]. *)
Lemma merge_clients_other_from oid user client :
  Forall (λ c, has_id oid c = false ∨ oid = "") client →
  ∀ m n m' n',
    (∀ j, (n ≤ j)%nat → uuid4 rt j ≠ oid) →
    merge_clients rt user (m, n) client = Ok (m', n') →
    map_find m' (VStr oid) = map_find m (VStr oid).
Proof.
  intros Hall. induction Hall as [|c client Hc Hrest IH];
    intros m n m' n' Hfresh; simpl.
  - by intros [= <- <-].
  - destruct (merge_client rt user (m, n) c) as [[m1 n1]|] eqn:Hstep;
      simpl; [|done].
    intros Hgo.
    destruct (merge_client_other rt oid user m n c m1 n1 Hc (Hfresh n (le_n _))
                Hstep) as [Hsame Hn].
    assert (Hfresh1 : ∀ j, (n1 ≤ j)%nat → uuid4 rt j ≠ oid)
      by (intros j Hj; apply Hfresh; lia).
    by rewrite (IH _ _ _ _ Hfresh1 Hgo).
Qed.

(** X18: a client order without an id comes back under the uuid drawn for
    it, owned by the caller, at version 1, its other fields as sent; it is
    the one order of the answer under that id, and, when [json.dump] takes
    the snapshot the sync writes, it is persisted. *)
Theorem sync_adds_new_order token pre c post now w os user w1 uid email ms w'
    d w2 :
  holds_orders w os →
  writable w = true →
  verify_token rt token now w = Ok (Some user, w1) →
  user !! "id" = Some uid →
  user !! "email" = Some email →
  truthy (get c "id") = false →
  let j := (uuid_count w
            + length (filter (λ x, truthy (get x "id") = false) pre))%nat in
  (∀ k, k ≠ j → uuid4 rt k ≠ uuid4 rt j) →
  Forall (λ x, has_id (uuid4 rt j) x = false) (os ++ pre ++ post) →
  load_db rt recursion_limit now w1 = Ok (d, w2) →
  sync_dumps rt user d (pre ++ c :: post) (uuid_count w) now →
  sync_data rt token (pre ++ c :: post) now w = Ok (SyncDone ms, w') →
  let o := <["syncVersion" := VInt 1]>
             (<["userEmail" := email]>
                (<["userId" := uid]> (<["id" := VStr (uuid4 rt j)]> c))) in
  filter (λ x, has_id (uuid4 rt j) x = true) ms = [o]
  ∧ o ∈ persisted_orders w'.
Proof.
  intros Hh Hw Hv Hid Hemail Hnoid j Hinj Hothers Hload Hd Hsync o.
  destruct (sync_data_inv rt token _ now w os user w1 ms w' Hh Hv Hsync)
    as (server & seeded & merged & n & kept & Hsc & Hseed & Hmerge & Hkeep & ->
        & Hp & Hmo & Hwk).
  apply Forall_app in Hothers as [Hos Hothers].
  apply Forall_app in Hothers as [Hpre Hpost].
  rewrite merge_clients_app in Hmerge.
  destruct (merge_clients rt user (seeded, uuid_count w) pre)
    as [[m1 n1]|] eqn:Hpre'; simpl in Hmerge; [|done].
  pose proof (merge_clients_counter user pre _ _ _ _ Hpre') as Hn1.
  fold j in Hn1. subst n1.
  assert (Hstep : merge_client rt user (m1, j) c
                  = Ok (map_set m1 (VStr (uuid4 rt j)) o, S j)).
  { unfold merge_client, item. by rewrite Hnoid, Hid, Hemail. }
  rewrite Hstep in Hmerge. simpl in Hmerge.
  assert (Hfinal : map_find merged (VStr (uuid4 rt j)) = Some o).
  { rewrite <- (map_find_set_eq m1 (VStr (uuid4 rt j)) o).
    apply (merge_clients_other_from (uuid4 rt j) user post)
      with (n := S j) (n' := n); [| |done].
    - eapply Forall_impl; [exact Hpost|]. intros x Hx. by left.
    - intros k Hk. apply Hinj. lia. }
  split; [by apply map_find_only|].
  rewrite (sync_dumps_holds rt token (pre ++ c :: post) now w os user w1 w' d w2
             kept merged n); try done.
  apply elem_of_app. right. by apply (map_find_values _ (VStr (uuid4 rt j))).
Qed.

(** X19: a client order under an id the merge did not start with, alone
    in the request with that id, is taken as sent, version and all, with
    the caller stamped as owner; when [json.dump] takes the snapshot the
    sync writes, it is persisted. *)
Theorem sync_adopts_unknown_order token pre c post now w os user w1 uid email
    server oid ms w' d w2 :
  holds_orders w os →
  writable w = true →
  verify_token rt token now w = Ok (Some user, w1) →
  user !! "id" = Some uid →
  user !! "email" = Some email →
  scoped_orders user os = Ok server →
  oid ≠ "" →
  get c "id" = VStr oid →
  Forall (λ x, has_id oid x = false) (server ++ pre ++ post) →
  (∀ j, uuid4 rt j ≠ oid) →
  load_db rt recursion_limit now w1 = Ok (d, w2) →
  sync_dumps rt user d (pre ++ c :: post) (uuid_count w) now →
  sync_data rt token (pre ++ c :: post) now w = Ok (SyncDone ms, w') →
  let o := <["userEmail" := email]> (<["userId" := uid]> c) in
  filter (λ x, has_id oid x = true) ms = [o]
  ∧ o ∈ persisted_orders w'
  ∧ get o "syncVersion" = get c "syncVersion".
Proof.
  intros Hh Hw Hv Hid Hemail Hsc Hoid Hcid Hothers Hfresh Hload Hd Hsync o.
  destruct (sync_data_inv rt token _ now w os user w1 ms w' Hh Hv Hsync)
    as (server' & seeded & merged & n & kept & Hsc' & Hseed & Hmerge & Hkeep
        & -> & Hp & Hmo & Hwk).
  rewrite Hsc in Hsc'. injection Hsc' as <-.
  apply Forall_app in Hothers as [Hserver Hothers].
  apply Forall_app in Hothers as [Hpre Hpost].
  assert (Hseeded : map_find seeded (VStr oid) = None).
  { rewrite (seed_find oid ∅ server) with (m := []) (m' := seeded); [|..|done].
    - assert (existsb (has_id oid) server = false) as ->; [|done].
      clear -Hserver. induction Hserver as [|x l Hx Hl IH]; [done|].
      simpl. by rewrite Hx, IH.
    - intros o' Hin Hid'. rewrite Forall_forall in Hserver.
      by rewrite (Hserver o' Hin) in Hid'. }
  rewrite merge_clients_app in Hmerge.
  destruct (merge_clients rt user (seeded, uuid_count w) pre)
    as [[m1 n1]|] eqn:Hpre'; simpl in Hmerge; [|done].
  assert (Hm1 : map_find m1 (VStr oid) = None).
  { rewrite <- Hseeded.
    apply (merge_clients_other rt oid user pre) with (n := uuid_count w) (n' := n1);
      [|done..].
    eapply Forall_impl; [exact Hpre|]. intros x Hx. by left. }
  assert (Hstep : merge_client rt user (m1, n1) c
                  = Ok (map_set m1 (VStr oid) o, n1)).
  { unfold merge_client, item. rewrite Hcid. simpl.
    assert (String.eqb oid "" = false) as -> by by apply String.eqb_neq.
    simpl. by rewrite Hm1, Hid, Hemail. }
  rewrite Hstep in Hmerge. simpl in Hmerge.
  assert (Hfinal : map_find merged (VStr oid) = Some o).
  { rewrite <- (map_find_set_eq m1 (VStr oid) o).
    apply (merge_clients_other rt oid user post) with (n := n1) (n' := n);
      [|done..].
    eapply Forall_impl; [exact Hpost|]. intros x Hx. by left. }
  split; [by apply map_find_only|]. split.
  - rewrite (sync_dumps_holds rt token (pre ++ c :: post) now w os user w1 w' d
               w2 kept merged n); try done.
    apply elem_of_app. right. by apply (map_find_values _ (VStr oid)).
  - unfold o, get. by rewrite !lookup_insert_ne.
Qed.

(** X20: what a sync answers to somebody who is not an admin, and whose
    client orders that carry an id name the caller as owner, are orders
    of the caller only. *)
Theorem sync_answers_own_orders token client now w os user w1 uid ms w' :
  holds_orders w os →
  verify_token rt token now w = Ok (Some user, w1) →
  is_admin user = false →
  user !! "id" = Some uid →
  Forall (λ c, truthy (get c "id") = true → owned_by uid c = true) client →
  sync_data rt token client now w = Ok (SyncDone ms, w') →
  Forall (λ o, owned_by uid o = true) ms.
Proof.
  intros Hh Hv Hadm Hid Hclient Hsync.
  destruct (sync_data_inv rt token _ now w os user w1 ms w' Hh Hv Hsync)
    as (server & seeded & merged & n & kept & Hsc & Hseed & Hmerge & _ & -> & _).
  destruct (scoped_orders_own user uid os server Hid Hsc) as (_ & _ & _ & Hown).
  rewrite (Hown Hadm) in Hseed.
  assert (Hserv : Forall (λ o, owned_by uid o = true)
                    (filter (λ o, owned_by uid o = true) os)).
  { apply Forall_forall. intros x. rewrite list_elem_of_filter. tauto. }
  eapply (merge_clients_owned rt uid user client Hid Hclient); [|exact Hmerge].
  exact (seed_values _ _ Hserv [] seeded (Forall_nil_2 _) Hseed).
Qed.

End SyncMore.

(** ** More on settings and on sharing *)

Section SettingsMore.

Variable rt : runtime.

(** X21: a value an authenticated caller stores under a key, with a
    snapshot [json.dump] takes, is what [get_setting] answers for that key
    from then on, also for one of the built-in keys; every other key
    answers as before. *)
Theorem set_then_get_setting token key value now w d0 user w1 d w2 :
  file w = Doc d0 →
  writable w = true →
  verify_token rt token now w = Ok (Some user, w1) →
  load_db rt recursion_limit now w1 = Ok (d, w2) →
  dumps rt now (set_settings (<[key := value]> (settings d)) d) →
  ∃ w3,
    set_setting rt token key value now w = Ok (SettingSaved key value, w3)
    ∧ ∀ key' now',
        ∃ w4,
          get_setting rt key' now' w3
          = Ok (if decide (key' = key) then SettingValue value
                else match settings d !! key' with
                     | Some v => SettingValue v
                     | None => builtin_answer key'
                     end, w4).
Proof.
  intros Hfile Hw Hv Hload Hd.
  destruct (verify_token_doc rt token now w d0 Hfile)
    as (user' & w1' & d1 & Hv' & Hfile1 & Hw1 & _).
  rewrite Hv in Hv'. injection Hv' as <- <-.
  destruct (load_db_limit rt now w1 d1 Hfile1) as (d' & w2' & Hload' & Hl).
  rewrite Hload in Hload'. injection Hload' as <- <-.
  destruct Hl as (_ & _ & _ & Hw2 & _).
  unfold set_setting. rewrite Hv. simpl. rewrite Hload. simpl.
  match goal with
  | |- context [save_db rt ?t now ?x ?y] =>
      pose proof (save_db_taken rt t now x y) as Hsave;
      destruct (save_db rt t now x y) as [[? ?] w3]
  end.
  simpl in Hsave. rewrite Hsave by (done || by rewrite Hw2, Hw1).
  eexists. split; [done|]. intros key' now'.
  unfold get_setting.
  erewrite load_db_limit_eq; [|reflexivity]. simpl. rewrite Z.leb_refl. simpl.
  match goal with
  | |- ∃ w4, match _ with Some _ => Ok (_, ?W) | None => _ end = _ => exists W
  end.
  rewrite lookup_insert.
  destruct (decide (key = key')) as [->|Hne].
  - by rewrite decide_True.
  - rewrite decide_False by congruence.
    destruct (settings d !! key'); [done|].
    rewrite <- defaults_lookup. by destruct (defaults !! key').
Qed.

End SettingsMore.

Module HeapMore.
Import Heap.

(** X22: what [load_db] returns on a cache hit shares its lists with the
    cache: an [append] made to the list under a key of the returned
    snapshot lands in the list the cache holds under that key. *)
Theorem append_reaches_cache p r p1 c d k l xs v :
  load_db_hit p = Some (r, p1) →
  g_db_cache p = Some c →
  objects p !! c = Some (ODict d) →
  d !! k = Some (HRef l) →
  objects p !! l = Some (OList xs) →
  ∃ h2,
    mutate (objects p1) r (Append [Key k] v) = Some h2
    ∧ resolve h2 (HRef c) [Key k] = Some (HRef l)
    ∧ h2 !! l = Some (OList (xs ++ [v]))
    ∧ h2 !! c = Some (ODict d).
Proof.
  intros Hload Hc Hd Hk Hl.
  destruct (HeapFacts.load_db_hit_spec p r p1 Hload)
    as (c' & d' & Hc' & Hd' & Hr & -> & _).
  rewrite Hc in Hc'. injection Hc' as <-.
  rewrite Hd in Hd'. injection Hd' as <-.
  assert (Hlr : l ≠ r) by congruence.
  assert (Hcr : c ≠ r) by congruence.
  assert (Hcl : c ≠ l) by congruence.
  exists (<[l := OList (xs ++ [v])]> (<[r := ODict d]> (objects p))).
  split_and!.
  - simpl. rewrite lookup_insert_eq. simpl. rewrite Hk.
    by rewrite lookup_insert_ne, Hl by done.
  - simpl. rewrite lookup_insert_ne, lookup_insert_ne, Hd by done.
    by rewrite Hk.
  - by rewrite lookup_insert_eq.
  - by rewrite lookup_insert_ne, lookup_insert_ne by done.
Qed.

End HeapMore.

(** ** The properties above on the sample data *)

Lemma w1_holds : holds_orders More.w1 (orders More.db1).
Proof. split; [by exists More.db1|]. intros c. vm_compute. discriminate. Qed.

Lemma verify_token_resolves_witness :
  ∃ w1 idv,
    verify_token Sample.rt0 "t1" Sample.now0 More.w1
    = Ok (Some (<["lastActivity" := VStr (isoformat Sample.rt0 Sample.now0)]>
                  Sample.u1), w1)
    ∧ Sample.u1 !! "id" = Some idv
    ∧ py_eq idv (get (Sample.session "t1" "u1" "late") "user_id") = true.
Proof.
  apply (verify_token_resolves Sample.rt0 "t1" Sample.now0 More.w1 More.db1
           More.db1 (More.w1_loaded Sample.now0)
           (Sample.session "t1" "u1" "late") 0%nat Sample.u1).
  - reflexivity.
  - vm_compute. reflexivity.
  - discriminate.
  - vm_compute. reflexivity.
  - vm_compute. reflexivity.
  - vm_compute. reflexivity.
  - reflexivity.
Defined.

Lemma verify_token_writes_only_to_prune_witness :
  ∃ user w1,
    verify_token Sample.rt0 "t1" Sample.now0 More.w1 = Ok (user, w1)
    ∧ file w1 = Doc More.db1 ∧ file_mtime w1 = file_mtime More.w1.
Proof.
  apply (verify_token_writes_only_to_prune Sample.rt0 "t1" Sample.now0 More.w1
           More.db1 More.db1 (More.w1_loaded Sample.now0)).
  - reflexivity.
  - vm_compute. reflexivity.
  - repeat constructor.
Defined.


Lemma register_refuses_taken_email_witness :
  register Sample.rt0 id id More.taken Sample.now0 More.w1
  = (UserExists, More.w1_loaded Sample.now0)
  ∧ file (More.w1_loaded Sample.now0) = Doc More.db1
  ∧ file_mtime (More.w1_loaded Sample.now0) = file_mtime More.w1.
Proof.
  apply (register_refuses_taken_email Sample.rt0 id id More.taken Sample.now0
           More.w1 More.db1 More.db1 (More.w1_loaded Sample.now0) "u1@x"
           Sample.u1).
  - reflexivity.
  - vm_compute. reflexivity.
  - vm_compute. reflexivity.
  - discriminate.
  - vm_compute. reflexivity.
  - repeat constructor; vm_compute; by eexists.
  - by left.
  - vm_compute. reflexivity.
Defined.



Lemma unauthorized_changes_no_order_witness :
  let w1 := More.verified Sample.rt0 "zz" Sample.now0 More.w1 in
  get_orders Sample.rt0 "zz" Sample.now0 More.w1 = Ok (Unauthorized, w1)
  ∧ (∀ data, create_order Sample.rt0 "zz" data Sample.now0 More.w1
             = Ok (Unauthorized, w1))
  ∧ (∀ order_id data,
       update_order Sample.rt0 "zz" order_id data Sample.now0 More.w1
       = Ok (Unauthorized, w1))
  ∧ (∀ order_id,
       delete_order Sample.rt0 "zz" order_id Sample.now0 More.w1
       = Ok (DeleteUnauthorized, w1))
  ∧ (∀ client, sync_data Sample.rt0 "zz" client Sample.now0 More.w1
               = Ok (Unauthorized, w1))
  ∧ (∀ key value, set_setting Sample.rt0 "zz" key value Sample.now0 More.w1
                  = Ok (Unauthorized, w1))
  ∧ holds_orders w1 (orders More.db1)
  ∧ persisted_orders w1 = persisted_orders More.w1.
Proof.
  apply (unauthorized_changes_no_order Sample.rt0 "zz" Sample.now0 More.w1
           (orders More.db1)).
  - exact w1_holds.
  - vm_compute. reflexivity.
Defined.

Lemma foreign_order_is_forbidden_witness :
  ∃ w2,
    (∀ data, update_order Sample.rt0 "t1" "o2" data Sample.now0 More.w1
             = Ok (Forbidden, w2))
    ∧ delete_order Sample.rt0 "t1" "o2" Sample.now0 More.w1
      = Ok (DeleteForbidden, w2)
    ∧ holds_orders w2 (orders More.db1)
    ∧ persisted_orders w2 = persisted_orders More.w1.
Proof.
  apply (foreign_order_is_forbidden Sample.rt0 "t1" "o2" Sample.now0 More.w1
           (orders More.db1) (More.caller Sample.rt0 Sample.now0 More.w1)
           (More.verified Sample.rt0 "t1" Sample.now0 More.w1)
           (VStr "u1") 1%nat Sample.o2).
  - exact w1_holds.
  - vm_compute. reflexivity.
  - vm_compute. reflexivity.
  - vm_compute. reflexivity.
  - vm_compute. reflexivity.
  - vm_compute. reflexivity.
Defined.

Lemma unknown_order_not_found_witness :
  ∃ w2,
    (∀ data, update_order Sample.rt0 "t1" "o7" data Sample.now0 More.w1
             = Ok (OrderNotFound, w2))
    ∧ delete_order Sample.rt0 "t1" "o7" Sample.now0 More.w1
      = Ok (DeleteNotFound, w2)
    ∧ holds_orders w2 (orders More.db1)
    ∧ persisted_orders w2 = persisted_orders More.w1.
Proof.
  apply (unknown_order_not_found Sample.rt0 "t1" "o7" Sample.now0 More.w1
           (orders More.db1) (More.caller Sample.rt0 Sample.now0 More.w1)
           (More.verified Sample.rt0 "t1" Sample.now0 More.w1)).
  - exact w1_holds.
  - vm_compute. reflexivity.
  - repeat constructor; vm_compute; by eexists.
Defined.

Lemma delete_order_removes_witness :
  ∃ w3,
    delete_order Sample.rt0 "t1" "o1" Sample.now0 More.w1
    = Ok (OrderDeleted, w3)
    ∧ persisted_orders w3
      = filter (λ x, has_id "o1" x = false) (orders More.db1)
    ∧ (Sample.o1 ∉ persisted_orders w3)
    ∧ length (persisted_orders w3) = (length (orders More.db1) - 1)%nat.
Proof.
  apply (delete_order_removes Sample.rt0 "t1" "o1" Sample.now0 More.w1
           (orders More.db1) (More.caller Sample.rt0 Sample.now0 More.w1)
           (More.verified Sample.rt0 "t1" Sample.now0 More.w1) Sample.o1).
  - exact w1_holds.
  - reflexivity.
  - vm_compute. reflexivity.
  - repeat constructor; vm_compute; by eexists.
  - vm_compute. reflexivity.
  - right. exists (VStr "u1"). split; vm_compute; reflexivity.
Defined.

Lemma create_order_appends_witness :
  ∃ o w',
    create_order Sample.rt0 "t1" More.upload_z Sample.now0 More.w1
    = Ok (OrderCreated o, w')
    ∧ persisted_orders w' = orders More.db1 ++ [o]
    ∧ o !! "id" = Some (VStr (uuid4 Sample.rt0 (uuid_count More.w1)))
    ∧ o !! "userId" = Some (VStr "u1")
    ∧ o !! "data" = Some (get_or More.upload_z "data" (VList []))
    ∧ version_of o = Some 1.
Proof.
  apply (create_order_appends Sample.rt0 "t1" More.upload_z Sample.now0
           More.w1 (orders More.db1)
           (More.caller Sample.rt0 Sample.now0 More.w1)
           (More.verified Sample.rt0 "t1" Sample.now0 More.w1)
           (VStr "u1") (VStr "u1@x")
           (Sample.snapshot Sample.rt0 Sample.now0
              (More.verified Sample.rt0 "t1" Sample.now0 More.w1))
           (Sample.reloaded Sample.rt0 Sample.now0
              (More.verified Sample.rt0 "t1" Sample.now0 More.w1))).
  - exact w1_holds.
  - reflexivity.
  - vm_compute. reflexivity.
  - vm_compute. reflexivity.
  - vm_compute. reflexivity.
  - vm_compute. reflexivity.
  - vm_compute. reflexivity.
  - vm_compute. reflexivity.
Defined.

Lemma create_then_list_witness :
  ∃ o listed lm w3,
    (default Unauthorized
       (answer_of (create_order Sample.rt0 "t1" More.upload_z Sample.now0
                     More.w1)) = OrderCreated o
     ∨ default Unauthorized
         (answer_of (create_order Sample.rt0 "t1" More.upload_z Sample.now0
                       More.w1)) = OrderReuploaded o)
    ∧ get_orders Sample.rt0 "t1" (Sample.now0 + 1)
        (world_after (create_order Sample.rt0 "t1" More.upload_z Sample.now0
                        More.w1) More.w1)
      = Ok (OrdersList listed (length listed) lm, w3)
    ∧ o ∈ listed.
Proof.
  apply (create_then_list Sample.rt0 "t1" "t1" More.upload_z Sample.now0
           (Sample.now0 + 1) More.w1 (orders More.db1)
           (More.caller Sample.rt0 Sample.now0 More.w1)
           (More.verified Sample.rt0 "t1" Sample.now0 More.w1)
           (More.caller Sample.rt0 (Sample.now0 + 1)
              (world_after (create_order Sample.rt0 "t1" More.upload_z
                              Sample.now0 More.w1) More.w1))
           (More.verified Sample.rt0 "t1" (Sample.now0 + 1)
              (world_after (create_order Sample.rt0 "t1" More.upload_z
                              Sample.now0 More.w1) More.w1))
           (VStr "u1") (VStr "u1@x") _ _
           (Sample.snapshot Sample.rt0 Sample.now0
              (More.verified Sample.rt0 "t1" Sample.now0 More.w1))
           (Sample.reloaded Sample.rt0 Sample.now0
              (More.verified Sample.rt0 "t1" Sample.now0 More.w1))).
  - exact w1_holds.
  - reflexivity.
  - vm_compute. reflexivity.
  - vm_compute. reflexivity.
  - vm_compute. reflexivity.
  - vm_compute. reflexivity.
  - vm_compute. reflexivity.
  - vm_compute. reflexivity.
  - vm_compute. reflexivity.
  - vm_compute. reflexivity.
Defined.

Lemma refused_write_spoils_store_witness :
  ∃ w',
    create_order Sample.rt0 "t1" More.upload_surrogate Sample.now0 More.w1
    = Ok (OrderCreated
            (new_order Sample.rt0 (uuid4 Sample.rt0 (uuid_count More.w1))
               (VStr "u1") (VStr "u1@x") More.upload_surrogate Sample.now0),
          w')
    ∧ file w' = Corrupt
    ∧ persisted_orders w' = []
    ∧ (∀ fuel now', load_db Sample.rt0 fuel now' (set_cache None w') = Raise)
    ∧ (∀ key now',
         get_setting Sample.rt0 key now' (set_cache None w') = Raise)
    ∧ (db_last_modified w' < file_mtime w' →
       ∀ fuel now', load_db Sample.rt0 fuel now' w' = Raise).
Proof.
  apply (refused_write_spoils_store Sample.rt0 "t1" More.upload_surrogate
           Sample.now0 More.w1 (orders More.db1)
           (More.caller Sample.rt0 Sample.now0 More.w1)
           (More.verified Sample.rt0 "t1" Sample.now0 More.w1)
           (VStr "u1") (VStr "u1@x")
           (Sample.snapshot Sample.rt0 Sample.now0
              (More.verified Sample.rt0 "t1" Sample.now0 More.w1))
           (Sample.reloaded Sample.rt0 Sample.now0
              (More.verified Sample.rt0 "t1" Sample.now0 More.w1))).
  - exact w1_holds.
  - reflexivity.
  - vm_compute. reflexivity.
  - vm_compute. reflexivity.
  - vm_compute. reflexivity.
  - vm_compute. reflexivity.
  - vm_compute. reflexivity.
  - vm_compute. reflexivity.
Defined.

Lemma sync_answer_one_order_per_id_witness :
  (length (filter (λ o, has_id "o1" o = true)
             (Sample.synced (sync_data Sample.rt0 "t1" [Sample.c5; Sample.c9]
                               Sample.now0 More.w1))) ≤ 1)%nat.
Proof.
  apply (sync_answer_one_order_per_id Sample.rt0 "t1" [Sample.c5; Sample.c9]
           Sample.now0 More.w1 (orders More.db1)
           (More.caller Sample.rt0 Sample.now0 More.w1)
           (More.verified Sample.rt0 "t1" Sample.now0 More.w1)
           (Sample.synced (sync_data Sample.rt0 "t1" [Sample.c5; Sample.c9]
                             Sample.now0 More.w1))
           (world_after (sync_data Sample.rt0 "t1" [Sample.c5; Sample.c9]
                           Sample.now0 More.w1) More.w1)).
  - exact w1_holds.
  - vm_compute. reflexivity.
  - vm_compute. reflexivity.
Defined.

Lemma failed_sync_writes_nothing_witness :
  let w' := world_after (sync_data Sample.rt0 "t1" [More.unhashable]
                           Sample.now0 More.w1) More.w1 in
  holds_orders w' (orders More.db1)
  ∧ persisted_orders w' = persisted_orders More.w1.
Proof.
  apply (failed_sync_writes_nothing Sample.rt0 "t1" [More.unhashable]
           Sample.now0 More.w1 (orders More.db1)).
  - exact w1_holds.
  - vm_compute. reflexivity.
Defined.

Lemma sync_adds_new_order_witness :
  let r := sync_data More.rt1 "t1" [More.unnamed; Sample.c9] Sample.now0
             More.w1 in
  let o := <["syncVersion" := VInt 1]>
             (<["userEmail" := VStr "u1@x"]>
                (<["userId" := VStr "u1"]>
                   (<["id" := VStr (uuid4 More.rt1 0)]> More.unnamed))) in
  filter (λ x, has_id (uuid4 More.rt1 0) x = true) (Sample.synced r) = [o]
  ∧ o ∈ persisted_orders (world_after r More.w1).
Proof.
  apply (sync_adds_new_order More.rt1 "t1" [] More.unnamed [Sample.c9]
           Sample.now0 More.w1 (orders More.db1)
           (More.caller More.rt1 Sample.now0 More.w1)
           (More.verified More.rt1 "t1" Sample.now0 More.w1)
           (VStr "u1") (VStr "u1@x") _ _
           (Sample.snapshot More.rt1 Sample.now0
              (More.verified More.rt1 "t1" Sample.now0 More.w1))
           (Sample.reloaded More.rt1 Sample.now0
              (More.verified More.rt1 "t1" Sample.now0 More.w1))).
  - exact w1_holds.
  - reflexivity.
  - vm_compute. reflexivity.
  - vm_compute. reflexivity.
  - vm_compute. reflexivity.
  - vm_compute. reflexivity.
  - intros [|k] Hk; [done|]. discriminate.
  - repeat constructor.
  - vm_compute. reflexivity.
  - vm_compute. reflexivity.
  - vm_compute. reflexivity.
Defined.

Lemma sync_adopts_unknown_order_witness :
  let r := sync_data Sample.rt0 "t1" [Sample.c9] Sample.now0 More.w1 in
  let o := <["userEmail" := VStr "u1@x"]>
             (<["userId" := VStr "u1"]> Sample.c9) in
  filter (λ x, has_id "o9" x = true) (Sample.synced r) = [o]
  ∧ o ∈ persisted_orders (world_after r More.w1)
  ∧ get o "syncVersion" = get Sample.c9 "syncVersion".
Proof.
  apply (sync_adopts_unknown_order Sample.rt0 "t1" [] Sample.c9 []
           Sample.now0 More.w1 (orders More.db1)
           (More.caller Sample.rt0 Sample.now0 More.w1)
           (More.verified Sample.rt0 "t1" Sample.now0 More.w1)
           (VStr "u1") (VStr "u1@x") [Sample.o1] "o9" _ _
           (Sample.snapshot Sample.rt0 Sample.now0
              (More.verified Sample.rt0 "t1" Sample.now0 More.w1))
           (Sample.reloaded Sample.rt0 Sample.now0
              (More.verified Sample.rt0 "t1" Sample.now0 More.w1))).
  - exact w1_holds.
  - reflexivity.
  - vm_compute. reflexivity.
  - vm_compute. reflexivity.
  - vm_compute. reflexivity.
  - vm_compute. reflexivity.
  - discriminate.
  - vm_compute. reflexivity.
  - repeat constructor.
  - by apply sample_uuid_fresh.
  - vm_compute. reflexivity.
  - vm_compute. reflexivity.
  - vm_compute. reflexivity.
Defined.

Lemma sync_answers_own_orders_witness :
  Forall (λ o, owned_by (VStr "u1") o = true)
    (Sample.synced (sync_data Sample.rt0 "t1" [Sample.c5; Sample.c9]
                      Sample.now0 More.w1)).
Proof.
  apply (sync_answers_own_orders Sample.rt0 "t1" [Sample.c5; Sample.c9]
           Sample.now0 More.w1 (orders More.db1)
           (More.caller Sample.rt0 Sample.now0 More.w1)
           (More.verified Sample.rt0 "t1" Sample.now0 More.w1) (VStr "u1")
           (Sample.synced (sync_data Sample.rt0 "t1" [Sample.c5; Sample.c9]
                             Sample.now0 More.w1))
           (world_after (sync_data Sample.rt0 "t1" [Sample.c5; Sample.c9]
                           Sample.now0 More.w1) More.w1)).
  - exact w1_holds.
  - vm_compute. reflexivity.
  - vm_compute. reflexivity.
  - vm_compute. reflexivity.
  - repeat constructor.
  - vm_compute. reflexivity.
Defined.

Lemma set_then_get_setting_witness :
  ∃ w3,
    set_setting Sample.rt0 "t1" "kgz_rate" (SDec 905 1) Sample.now0 More.w1
    = Ok (SettingSaved "kgz_rate" (SDec 905 1), w3)
    ∧ ∀ key' now',
        ∃ w4,
          get_setting Sample.rt0 key' now' w3
          = Ok (if decide (key' = "kgz_rate") then SettingValue (SDec 905 1)
                else match settings More.db1 !! key' with
                     | Some v => SettingValue v
                     | None => builtin_answer key'
                     end, w4).
Proof.
  apply (set_then_get_setting Sample.rt0 "t1" "kgz_rate" (SDec 905 1)
           Sample.now0 More.w1 More.db1
           (More.caller Sample.rt0 Sample.now0 More.w1)
           (More.verified Sample.rt0 "t1" Sample.now0 More.w1)
           (set_users
              [<["lastActivity" := VStr "late"]> Sample.u1; Sample.u2]
              More.db1)
           (More.verified Sample.rt0 "t1" Sample.now0 More.w1)).
  - reflexivity.
  - reflexivity.
  - vm_compute. reflexivity.
  - vm_compute. reflexivity.
  - vm_compute. reflexivity.
Defined.

Lemma append_reaches_cache_witness :
  ∃ h2,
    Heap.mutate (Heap.objects Heap.sample_hit) 4%nat
      (Heap.Append [Heap.Key "users"] (Heap.HAtom (VStr "u9"))) = Some h2
    ∧ Heap.resolve h2 (Heap.HRef 0%nat) [Heap.Key "users"]
      = Some (Heap.HRef 1%nat)
    ∧ h2 !! 1%nat
      = Some (Heap.OList ([Heap.HRef 3%nat] ++ [Heap.HAtom (VStr "u9")]))
    ∧ h2 !! 0%nat
      = Some (Heap.ODict {[ "users" := Heap.HRef 1%nat;
                            "orders" := Heap.HRef 2%nat ]}).
Proof.
  apply (HeapMore.append_reaches_cache Heap.sample_state 4%nat Heap.sample_hit
           0%nat _ "users" 1%nat [Heap.HRef 3%nat]).
  - vm_compute. reflexivity.
  - reflexivity.
  - vm_compute. reflexivity.
  - vm_compute. reflexivity.
  - vm_compute. reflexivity.
Defined.
